(** * OpenQuake classical PSHA core: task distribution, polling, block scheduling

    A shallow embedding of [openquake/utils/tasks.py] and of
    [openquake/calculators/hazard/classical/core.py].

    The orchestrating process is single threaded.  What it does to the
    outside world (celery, the key-value store, the progress counters, the
    writers, the log) is recorded in a chronological log of events, and the
    answers of the outside world (the failure counters, what the workers have
    put in the cache) are functions of that log, so that they may change at
    any point of a run.  The exceptions are those the Python code raises
    itself: [raise], [assert], [_check_exception], and the [TypeError] and
    [ValueError] of the built-ins it calls; calls into other modules return.
    The polling loop, which has no bound on the number of its iterations,
    takes fuel.

    Python floats ([pause], quantiles, PoEs) are idealised as rationals. *)

From Stdlib Require Import ZArith QArith Qminmax Qpower Lqa Lia List String.
From stdpp Require Import base gmap sets list strings.

Open Scope Z_scope.

(** ** Values, exceptions *)

Inductive exn :=
| RuntimeError (failures : list (string * Z))
| AssertionError (msg : string)
| TypeError (msg : string)
| ValueError (msg : string)
| TaskError (msg : string).

(** How a computation of the orchestrator ends: with a value, with an
    exception, or (in the model) with the fuel of the polling loop used up. *)
Inductive Res (A : Type) :=
| Ok (a : A)
| Raise (e : exn)
| OutOfFuel.
Arguments Ok {A} a.
Arguments Raise {A} e.
Arguments OutOfFuel {A}.

Section Openquake.

Context {Site : Type} {Site_eq : EqDecision Site} {Site_cnt : Countable Site}.
Context {Key : Type} {Key_eq : EqDecision Key} {Key_cnt : Countable Key}.

(** Python objects as far as the orchestrator handles them.  A [VSet] keeps
    its elements in the enumeration order of the set. *)
#[warnings="-register-all"]
Inductive value :=
| VNone
| VInt (n : Z)
| VFloat (q : Q)
| VStr (s : string)
| VList (l : list value)
| VTuple (l : list value)
| VSet (l : list value)
| VExc (e : exn)
| VSite (s : Site).

(** Keyword arguments, [**kwargs]. *)
Local Abbreviation kwargs := (gmap string value).

(** Truth value of an optional dict ([if tf_args:]): [None] and [{}] are false. *)
Definition truthy (d : option kwargs) : bool :=
  match d with
  | Some m => negb (bool_decide (m = ∅))
  | None => false
  end.

(** A celery task callable: its [ignore_result] flag and what a worker
    computes (or the exception instance it hands back) for the keyword
    arguments of one subtask. *)
Record TaskFunc := {
  task_name : string;
  ignore_result : bool;
  task_run : kwargs -> value
}.

(** The XML serialization context, [namedtuple("XSC", ...)]. *)
Record XSC := {
  xsc_blocks : option Z;
  xsc_cblock : option Z;
  i_total : Z;
  i_done : Z;
  i_next : Z
}.

(** ** Events: the calls that leave the orchestrating process

    A log line is recorded with its format string and its integer arguments
    (the other arguments, floats and paths, are left out). *)

Inductive Event :=
| EvLog (msg : string) (args : list Z)
| EvApplyAsync (task : string) (subtasks : list kwargs)
| EvJoinNative (results : list value)
| EvPkSet (job_id : Z) (key : string) (v : Z)
| EvPkInc (job_id : Z) (key : string)
| EvPkGet (job_id : Z) (key : string) (v : option Z)
| EvStoreSourceModel (seed : Z)
| EvStoreGmpeMap (seed : Z)
| EvFailureCounters (job_id : Z) (failures : list (string * Z))
| EvSleep (pause : Q)
| EvKvsGet (key : Key) (v : option value)
| EvKvsDelete (keys : list Key)
| EvSerializerContext (xsc : XSC)
| EvCreateWriter (nrml_path : string)
| EvSerialize (nrml_path : string) (data : list (Site * kwargs))
| EvMapFunc (name : string) (sites : list Site) (quantiles : list Q) (poes : list Q).

(** ** The world and the monad of the orchestrator *)

Record World := {
  w_log : list Event;
  w_kvs : gmap Key value;
  w_pk : gmap (Z * string) Z
}.

Definition M (A : Type) : Type := World -> Res A * World.

Definition ret {A} (a : A) : M A := fun w => (Ok a, w).

Definition bind {A B} (m : M A) (k : A -> M B) : M B := fun w =>
  match m w with
  | (Ok a, w') => k a w'
  | (Raise e, w') => (Raise e, w')
  | (OutOfFuel, w') => (OutOfFuel, w')
  end.

Definition raise {A} (e : exn) : M A := fun w => (Raise e, w).

Definition out_of_fuel {A} : M A := fun w => (OutOfFuel, w).

Notation "'let*' x := m 'in' k" := (bind m (fun x => k))
  (at level 10, x pattern, m at level 100, k at level 200).
Notation "m >> k" := (bind m (fun _ => k))
  (at level 100, k at level 200, right associativity).

(** An external call without an answer: it is appended to the log. *)
Definition emit (ev : Event) : M unit := fun w =>
  (Ok tt, {| w_log := w_log w ++ [ev]; w_kvs := w_kvs w; w_pk := w_pk w |}).

(** [for x in l: body x], stopping at the first exception. *)
Fixpoint for_ {A} (l : list A) (body : A -> M unit) : M unit :=
  match l with
  | [] => ret tt
  | x :: l' => body x >> for_ l' body
  end.

(** [for x in l: st = body x st], threading the loop-carried variables. *)
Fixpoint for_fold {A S} (l : list A) (body : A -> S -> M S) (st : S) : M S :=
  match l with
  | [] => ret st
  | x :: l' => let* st' := body x st in for_fold l' body st'
  end.

(** ** openquake/utils/tasks.py *)

(** [_check_exception]: if any of the results is an exception, raise it. *)
Fixpoint _check_exception (results : list value) : M unit :=
  match results with
  | [] => ret tt
  | VExc e :: _ => raise e
  | _ :: results' => _check_exception results'
  end.

(** What iterating over a value yields; [None] where Python raises
    [TypeError: ... object is not iterable]. *)
Definition iter_value (v : value) : option (list value) :=
  match v with
  | VList l | VTuple l | VSet l => Some l
  | VStr s => Some ((fun c => VStr (String c EmptyString)) <$> list_ascii_of_string s)
  | VNone | VInt _ | VFloat _ | VExc _ | VSite _ => None
  end.

(** [list(itertools.chain( *results ))]: the results, each iterated over, in
    one list. *)
Fixpoint chain (results : list value) : M (list value) :=
  match results with
  | [] => ret []
  | r :: results' =>
      match iter_value r with
      | Some l => let* rest := chain results' in ret (l ++ rest)
      | None => raise (TypeError "object is not iterable")
      end
  end.

(** [isinstance(sample, (list, tuple, set))] *)
Definition is_list_tuple_set (v : value) : bool :=
  match v with
  | VList _ | VTuple _ | VSet _ => true
  | _ => false
  end.

(** [TaskSet(tasks=subtasks).apply_async()]: the subtasks are handed to the
    work queue, in order. *)
Definition apply_async (task_func : TaskFunc) (subtasks : list kwargs) : M (list kwargs) :=
  emit (EvApplyAsync (task_name task_func) subtasks) >> ret subtasks.

(** [result.join_native()]: blocks until every subtask is done and gives the
    results in the order of the subtasks. *)
Definition join_native (task_func : TaskFunc) (result : list kwargs) : M (list value) :=
  let results := task_run task_func <$> result in
  emit (EvJoinNative results) >> ret results.

Definition distribute (task_func : TaskFunc) (name : string) (data : list value)
    (tf_args : option kwargs) (ath : option (kwargs -> M value))
    (ath_args : option kwargs) (flatten_results : bool) : M value :=
  emit (EvLog "-data_length: %s" [Z.of_nat (length data)]) >>
  let subtasks :=
    if truthy tf_args
    then (fun item => <[name := item]> (default ∅ tf_args)) <$> data
    else (fun item => {[name := item]}) <$> data in
  emit (EvLog "-#subtasks: %s" [Z.of_nat (length subtasks)]) >>
  let* result := apply_async task_func subtasks in
  if ignore_result task_func then
    match ath with
    | Some ath =>
        if truthy ath_args then ath (default ∅ ath_args) else ath ∅
    | None => ret VNone
    end
  else
    let* results := join_native task_func result in
    _check_exception results >>
    let* results :=
      match results with
      | sample :: _ =>
          if flatten_results && is_list_tuple_set sample
          then chain results
          else ret results
      | [] => ret results
      end in
    ret (VList results).

(** ** Collaborators of core.py

    The key templates of [kvs.tokens], [hash] on sites, Python's string
    formatting, [random.Random] and the workers are not part of the two
    modules; they are parameters. *)

Context {Template : Type}.
Variable fmt : Template -> Z -> Key.            (* [template % hash(site)] *)
Variable hash : Site -> Z.
Variable hazard_curve_poes_key_template : Z -> Z -> Template.
Variable mean_hazard_curve_key_template : Z -> Template.
Variable quantile_hazard_curve_key_template : Z -> value -> Template.
Variable mean_hazard_map_key_template : Z -> Q -> Template.
Variable quantile_hazard_map_key_template : Z -> Q -> Q -> Template.

Variable str_int : Z -> string.                    (* ['%s' % n] *)
Variable str_float : Q -> string.                  (* [str(x)], ['%s' % x] *)
Variable fmt_2f : Q -> string.                     (* ['%.2f' % x] *)
Variable build_nrml_path : string -> string.

Context {Rng : Type}.
Variable rng_seed : Z -> Rng.                      (* [random.Random()] then [.seed(x)] *)
Variable getrandbits : Rng -> Z -> Z * Rng.        (* [.getrandbits(k)] *)

(** What the outside world answers, given everything that happened so far:
    the failure counters of the job, and what the workers have done to the
    cache since the orchestrator last looked at it. *)
Variable failure_counters : list Event -> list (string * Z).
Variable workers : list Event -> gmap Key value -> gmap Key value.
Variable worker_run : string -> kwargs -> value.

(** The job context and the configuration, as far as the calculator reads
    them. *)
Record JobContext := {
  job_id : Z;
  SOURCE_MODEL_LT_RANDOM_SEED : Z;
  GMPE_LT_RANDOM_SEED : Z;
  NUMBER_OF_LOGIC_TREE_SAMPLES : Z;
  COMPUTE_MEAN_HAZARD_CURVE : bool;
  INVESTIGATION_TIME : value;
  INTENSITY_MEASURE_TYPE : value;
  REFERENCE_VS30_VALUE : value;
  imls : value;
  sites_to_compute : list Site;
  quantile_levels : list Q;
  poes_hazard_maps : list Q;
  hazard_block_size : Z
}.

(** ** Built-ins *)

Definition len {A} (l : list A) : Z := Z.of_nat (length l).

(** [xrange(0, n)] *)
Definition xrange (start stop : Z) : list Z :=
  (fun i => start + Z.of_nat i) <$> seq 0 (Z.to_nat (stop - start)).

(** [range(start, stop, step)]; a zero step is a [ValueError]. *)
Definition range (start stop step : Z) : M (list Z) :=
  if step =? 0 then raise (ValueError "range() step argument must not be zero")
  else
    let n := if 0 <? step then (stop - start + step - 1) / step
             else (start - stop - step - 1) / (- step) in
    ret ((fun i => start + Z.of_nat i * step) <$> seq 0 (Z.to_nat n)).

(** [l[start:stop]]: negative indices count from the end, both are clamped. *)
Definition slice_index (n i : Z) : Z :=
  if i <? 0 then Z.max 0 (i + n) else Z.min i n.

Definition slice {A} (l : list A) (start stop : Z) : list A :=
  let a := slice_index (len l) start in
  let b := slice_index (len l) stop in
  take (Z.to_nat (b - a)) (drop (Z.to_nat a) l).

(** ** The progress counters ([stats.pk_set], [pk_inc], [pk_get]) and the
    cache ([kvs])

    [openquake.utils.stats] and [openquake.kvs] are used through their
    interfaces: a counter is set, incremented (from 0 when it was never set)
    and read; a key of the cache is read and deleted. *)

Definition pk_set (job_id : Z) (key : string) (v : Z) : M unit := fun w =>
  (Ok tt, {| w_log := w_log w ++ [EvPkSet job_id key v]; w_kvs := w_kvs w;
             w_pk := <[(job_id, key) := v]> (w_pk w) |}).

Definition pk_inc (job_id : Z) (key : string) : M unit := fun w =>
  (Ok tt, {| w_log := w_log w ++ [EvPkInc job_id key]; w_kvs := w_kvs w;
             w_pk := <[(job_id, key) := default 0 (w_pk w !! (job_id, key)) + 1]> (w_pk w) |}).

Definition pk_get (job_id : Z) (key : string) : M (option Z) := fun w =>
  let v := w_pk w !! (job_id, key) in
  (Ok v, {| w_log := w_log w ++ [EvPkGet job_id key v]; w_kvs := w_kvs w; w_pk := w_pk w |}).

(** [stats.failure_counters(job_id, "h")]: the list of the failure counters
    of the job with their values, empty when nothing failed. *)
Definition stats_failure_counters (job_id : Z) : M (list (string * Z)) := fun w =>
  let failures := failure_counters (w_log w) in
  (Ok failures, {| w_log := w_log w ++ [EvFailureCounters job_id failures];
                   w_kvs := w_kvs w; w_pk := w_pk w |}).

(** [kvs.get_value_json_decoded(key)]: [None] when the key is absent.  The
    workers run concurrently: what they wrote in the meantime is visible. *)
Definition get_value_json_decoded (key : Key) : M (option value) := fun w =>
  let kvs := workers (w_log w) (w_kvs w) in
  let v := kvs !! key in
  (Ok v, {| w_log := w_log w ++ [EvKvsGet key v]; w_kvs := kvs; w_pk := w_pk w |}).

(** [kvs.get_client().delete( *keys )] *)
Definition kvs_delete (keys : list Key) : M unit := fun w =>
  (Ok tt, {| w_log := w_log w ++ [EvKvsDelete keys];
             w_kvs := foldr delete (w_kvs w) keys; w_pk := w_pk w |}).

(** ** release_data_from_kvs *)

(** [kvs_keys_purged], the list a test may pass in, is extended in place; the
    model hands the extended list back. *)
Definition extend (kvs_keys_purged : option (list Key)) (keys : list Key)
    : option (list Key) :=
  match kvs_keys_purged with
  | Some l => Some (l ++ keys)
  | None => None
  end.

Definition release_data_from_kvs (job_id : Z) (sites : list Site) (realizations : Z)
    (quantiles poes : list Q) (kvs_keys_purged : option (list Key))
    : M (option (list Key)) :=
  let* kvs_keys_purged :=
    for_fold (xrange 0 realizations) (fun realization kvs_keys_purged =>
      let template := hazard_curve_poes_key_template job_id realization in
      let keys := (fun site => fmt template (hash site)) <$> sites in
      kvs_delete keys >>
      ret (extend kvs_keys_purged keys)) kvs_keys_purged in
  let template := mean_hazard_curve_key_template job_id in
  let keys := (fun site => fmt template (hash site)) <$> sites in
  kvs_delete keys >>
  let kvs_keys_purged := extend kvs_keys_purged keys in
  let* kvs_keys_purged :=
    for_fold quantiles (fun quantile kvs_keys_purged =>
      let template := quantile_hazard_curve_key_template job_id (VFloat quantile) in
      let keys := (fun site => fmt template (hash site)) <$> sites in
      let keys := foldl (fun keys poe =>
        let template := quantile_hazard_map_key_template job_id poe quantile in
        keys ++ ((fun site => fmt template (hash site)) <$> sites)) keys poes in
      kvs_delete keys >>
      ret (extend kvs_keys_purged keys)) kvs_keys_purged in
  for_fold poes (fun poe kvs_keys_purged =>
    let template := mean_hazard_map_key_template job_id poe in
    let keys := (fun site => fmt template (hash site)) <$> sites in
    kvs_delete keys >>
    ret (extend kvs_keys_purged keys)) kvs_keys_purged.

(** ** The celery tasks of core.py *)

Definition compute_hazard_curve : TaskFunc :=
  {| task_name := "compute_hazard_curve"; ignore_result := true;
     task_run := worker_run "compute_hazard_curve" |}.

Definition compute_mgm_intensity : TaskFunc :=
  {| task_name := "compute_mgm_intensity"; ignore_result := false;
     task_run := worker_run "compute_mgm_intensity" |}.

Definition compute_mean_curves : TaskFunc :=
  {| task_name := "compute_mean_curves"; ignore_result := true;
     task_run := worker_run "compute_mean_curves" |}.

Definition compute_quantile_curves : TaskFunc :=
  {| task_name := "compute_quantile_curves"; ignore_result := true;
     task_run := worker_run "compute_quantile_curves" |}.

(** ** pause_generator *)

(** The generator object: the value of its local variable, and whether it
    has been resumed before (it then stands in the [while True] loop). *)
Record Gen := {
  gen_value : Q;
  gen_started : bool
}.

Definition pause_generator (value : Q) : Gen :=
  {| gen_value := value; gen_started := false |}.

(** [pgen.next()] *)
Definition next (g : Gen) : Q * Gen :=
  if gen_started g then
    let value :=
      if Qlt_le_dec (gen_value g) 45 then (gen_value g * 2)%Q else gen_value g in
    (value, {| gen_value := value; gen_started := true |})
  else
    (gen_value g, {| gen_value := gen_value g; gen_started := true |}).

Definition min_pause : Q := 1 # 10.

(** ** ClassicalHazardCalculator *)

Section ClassicalHazardCalculator.

Variable job_ctxt : JobContext.

(** *** serialize_hazard_curve *)

(** The variables of the [for site in sites] loop. *)
Record Scan := {
  sc_accounted_for : gset Site;
  sc_hc_data : list (Site * kwargs);
  sc_results_found : Z
}.

Definition scan_site (key_template : Template) (hc_attrib_update : kwargs)
    (site : Site) (sc : Scan) : M Scan :=
  if decide (site ∈ sc_accounted_for sc) then ret sc
  else
    let* value := get_value_json_decoded (fmt key_template (hash site)) in
    match value with
    | None => ret sc
    | Some value =>
        let hc_attrib : kwargs :=
          <["investigationTimeSpan" := INVESTIGATION_TIME job_ctxt]>
          (<["IMLValues" := imls job_ctxt]>
          (<["IMT" := INTENSITY_MEASURE_TYPE job_ctxt]>
          (<["PoEValues" := value]> ∅))) in
        let hc_attrib := hc_attrib_update ∪ hc_attrib in
        ret {| sc_accounted_for := {[site]} ∪ sc_accounted_for sc;
               sc_hc_data := sc_hc_data sc ++ [(site, hc_attrib)];
               sc_results_found := sc_results_found sc + 1 |}
    end.

(** The variables of the [while accounted_for != sites] loop. *)
Record Poll := {
  accounted_for : gset Site;
  pause : Q;
  pgen : Gen;
  xsc : XSC
}.

(** One pass through the body of the [while] loop. *)
Definition poll_body (nrml_path : string) (key_template : Template)
    (hc_attrib_update : kwargs) (sites : gset Site) (st : Poll) : M Poll :=
  let* failures := stats_failure_counters (job_id job_ctxt) in
  if bool_decide (failures = []) then
    emit (EvSleep (pause st)) >>
    let* sc := for_fold (elements sites) (scan_site key_template hc_attrib_update)
                 {| sc_accounted_for := accounted_for st; sc_hc_data := [];
                    sc_results_found := 0 |} in
    let hc_data := sc_hc_data sc in
    if sc_results_found sc =? 0 then
      let '(pause, pgen) := next (pgen st) in
      ret {| accounted_for := sc_accounted_for sc; pause := pause; pgen := pgen;
             xsc := xsc st |}
    else
      let x := xsc st in
      emit (EvSerializerContext
              {| xsc_blocks := xsc_blocks x; xsc_cblock := xsc_cblock x;
                 i_total := i_total x; i_done := i_done x; i_next := len hc_data |}) >>
      emit (EvSerialize nrml_path hc_data) >>
      let x := {| xsc_blocks := xsc_blocks x; xsc_cblock := xsc_cblock x;
                  i_total := i_total x; i_done := i_done x + len hc_data;
                  i_next := i_next x |} in
      let pause := (pause st * (8 # 10))%Q in
      let pause := if Qlt_le_dec pause min_pause then min_pause else pause in
      ret {| accounted_for := sc_accounted_for sc; pause := pause; pgen := pgen st;
             xsc := x |}
  else raise (RuntimeError failures).

(** [while accounted_for != sites: ...] *)
Fixpoint poll_loop (fuel : nat) (nrml_path : string) (key_template : Template)
    (hc_attrib_update : kwargs) (sites : gset Site) (st : Poll) : M Poll :=
  if decide (accounted_for st = sites) then ret st
  else
    match fuel with
    | O => out_of_fuel
    | S fuel' =>
        let* st' := poll_body nrml_path key_template hc_attrib_update sites st in
        poll_loop fuel' nrml_path key_template hc_attrib_update sites st'
    end.

(** The loop variables before the first iteration. *)
Definition poll_init (x : XSC) : Poll :=
  let pgen := pause_generator min_pause in
  let '(pause, pgen) := next pgen in
  {| accounted_for := ∅; pause := pause; pgen := pgen; xsc := x |}.

Definition serialize_hazard_curve (fuel : nat) (nrml_file : string)
    (key_template : Template) (hc_attrib_update : kwargs) (sites : list Site)
    : M string :=
  let* blocks := pk_get (job_id job_ctxt) "blocks" in
  let* cblock := pk_get (job_id job_ctxt) "cblock" in
  let x := {| xsc_blocks := blocks; xsc_cblock := cblock; i_total := len sites;
              i_done := 0; i_next := 0 |} in
  let nrml_path := build_nrml_path nrml_file in
  emit (EvCreateWriter nrml_path) >>
  let sites : gset Site := list_to_set sites in
  poll_loop fuel nrml_path key_template hc_attrib_update sites (poll_init x) >>
  ret nrml_path.

(** *** File names *)

Definition HAZARD_CURVE_FILENAME_PREFIX : string := "hazardcurve".
Definition HAZARD_MAP_FILENAME_PREFIX : string := "hazardmap".

Definition _hazard_curve_filename (filename_part : string) : string :=
  build_nrml_path (HAZARD_CURVE_FILENAME_PREFIX ++ "-" ++ filename_part ++ ".xml").

Definition hazard_curve_filename (realization : Z) : string :=
  _hazard_curve_filename (str_int realization).

Definition mean_hazard_curve_filename : string :=
  _hazard_curve_filename "mean".

Definition quantile_hazard_curve_filename (quantile : Q) : string :=
  _hazard_curve_filename ("quantile-" ++ fmt_2f quantile).

Definition _hazard_map_filename (filename_part : string) : string :=
  build_nrml_path (HAZARD_MAP_FILENAME_PREFIX ++ "-" ++ filename_part ++ ".xml").

Definition mean_hazard_map_filename (poe : Q) : string :=
  _hazard_map_filename (str_float poe ++ "-mean").

Definition quantile_hazard_map_filename (quantile poe : Q) : string :=
  _hazard_map_filename (str_float poe ++ "-quantile-" ++ fmt_2f quantile).

(** *** The curve serializers *)

Definition serialize_hazard_curve_of_realization (fuel : nat) (sites : list Site)
    (realization : Z) : M unit :=
  let hc_attrib_update : kwargs := {[ "endBranchLabel" := VInt realization ]} in
  let nrml_file := hazard_curve_filename realization in
  let key_template :=
    hazard_curve_poes_key_template (job_id job_ctxt) realization in
  serialize_hazard_curve fuel nrml_file key_template hc_attrib_update sites >>
  ret tt.

Definition serialize_mean_hazard_curves (fuel : nat) (sites : list Site) : M unit :=
  let hc_attrib_update : kwargs := {[ "statistics" := VStr "mean" ]} in
  let nrml_file := mean_hazard_curve_filename in
  let key_template := mean_hazard_curve_key_template (job_id job_ctxt) in
  serialize_hazard_curve fuel nrml_file key_template hc_attrib_update sites >>
  ret tt.

Definition serialize_quantile_hazard_curves (fuel : nat) (sites : list Site)
    (quantiles : list Q) : M unit :=
  for_ quantiles (fun quantile =>
    let hc_attrib_update : kwargs :=
      <["statistics" := VStr "quantile"]> (<["quantileValue" := VFloat quantile]> ∅) in
    let nrml_file := quantile_hazard_curve_filename quantile in
    let key_template :=
      quantile_hazard_curve_key_template (job_id job_ctxt)
        (VStr (str_float quantile)) in
    serialize_hazard_curve fuel nrml_file key_template hc_attrib_update sites >>
    ret tt).

(** *** The map serializers *)

Definition serialize_hazard_map_at_poe (sites : list Site) (poe : Q)
    (key_template : Template) (hm_attrib_update : kwargs) (nrml_file : string)
    : M string :=
  let nrml_path := build_nrml_path nrml_file in
  emit (EvLog "Generating NRML hazard map file for PoE %s, %s nodes in hazard map: %s"
          [len sites]) >>
  emit (EvCreateWriter nrml_path) >>
  let* hm_data :=
    for_fold sites (fun site hm_data =>
      let key := fmt key_template (hash site) in
      let* iml := get_value_json_decoded key in
      let hm_attrib : kwargs :=
        <["investigationTimeSpan" := INVESTIGATION_TIME job_ctxt]>
        (<["IMT" := INTENSITY_MEASURE_TYPE job_ctxt]>
        (<["vs30" := REFERENCE_VS30_VALUE job_ctxt]>
        (<["IML" := default VNone iml]>
        (<["poE" := VFloat poe]> ∅)))) in
      let hm_attrib := hm_attrib_update ∪ hm_attrib in
      ret (hm_data ++ [(site, hm_attrib)])) [] in
  emit (EvLog ">> path: %s" []) >>
  let* blocks := pk_get (job_id job_ctxt) "blocks" in
  let* cblock := pk_get (job_id job_ctxt) "cblock" in
  emit (EvSerializerContext
          {| xsc_blocks := blocks; xsc_cblock := cblock; i_total := len sites;
             i_done := 0; i_next := len hm_data |}) >>
  emit (EvSerialize nrml_path hm_data) >>
  ret nrml_path.

Definition serialize_mean_hazard_map (sites : list Site) (poes : list Q) : M unit :=
  for_ poes (fun poe =>
    let nrml_file := mean_hazard_map_filename poe in
    let hm_attrib_update : kwargs := {[ "statistics" := VStr "mean" ]} in
    let key_template := mean_hazard_map_key_template (job_id job_ctxt) poe in
    serialize_hazard_map_at_poe sites poe key_template hm_attrib_update nrml_file >>
    ret tt).

Definition serialize_quantile_hazard_map (sites : list Site) (poes : list Q)
    (quantile : Q) : M unit :=
  for_ poes (fun poe =>
    let nrml_file := quantile_hazard_map_filename quantile poe in
    let key_template :=
      quantile_hazard_map_key_template (job_id job_ctxt) poe quantile in
    let hm_attrib_update : kwargs :=
      <["statistics" := VStr "quantile"]> (<["quantileValue" := VFloat quantile]> ∅) in
    serialize_hazard_map_at_poe sites poe key_template hm_attrib_update nrml_file >>
    ret tt).

(** *** Keyword arguments of the serializers

    [distribute] calls its task handler as [ath( **ath_args )]; these bind the
    keywords to the parameters of the three curve serializers. *)

Definition arg_sites (kw : kwargs) : option (list Site) :=
  match kw !! "sites" with
  | Some (VList l) =>
      Some (omap (fun v => match v with VSite s => Some s | _ => None end) l)
  | _ => None
  end.

Definition arg_quantiles (kw : kwargs) : option (list Q) :=
  match kw !! "quantiles" with
  | Some (VList l) =>
      Some (omap (fun v => match v with VFloat q => Some q | _ => None end) l)
  | _ => None
  end.

Definition missing_argument : exn := TypeError "missing keyword argument".

Definition ath_hazard_curve_of_realization (fuel : nat) (kw : kwargs) : M value :=
  match arg_sites kw, kw !! "realization" with
  | Some sites, Some (VInt realization) =>
      serialize_hazard_curve_of_realization fuel sites realization >> ret VNone
  | _, _ => raise missing_argument
  end.

Definition ath_mean_hazard_curves (fuel : nat) (kw : kwargs) : M value :=
  match arg_sites kw with
  | Some sites => serialize_mean_hazard_curves fuel sites >> ret VNone
  | None => raise missing_argument
  end.

Definition ath_quantile_hazard_curves (fuel : nat) (kw : kwargs) : M value :=
  match arg_sites kw, arg_quantiles kw with
  | Some sites, Some quantiles =>
      serialize_quantile_hazard_curves fuel sites quantiles >> ret VNone
  | _, _ => raise missing_argument
  end.

(** [general.compute_mean_hazard_maps], [general.compute_quantile_hazard_maps]:
    they run in the orchestrating process and leave their maps in the cache. *)
Definition compute_mean_hazard_maps (job_id : Z) (sites : list Site) (imls : value)
    (poes : list Q) : M unit :=
  emit (EvMapFunc "compute_mean_hazard_maps" sites [] poes).

Definition compute_quantile_hazard_maps (job_id : Z) (sites : list Site)
    (quantiles : list Q) (imls : value) (poes : list Q) : M unit :=
  emit (EvMapFunc "compute_quantile_hazard_maps" sites quantiles poes).

(** *** do_curves, do_means, do_quantiles *)

Definition store_source_model (seed : Z) : M unit := emit (EvStoreSourceModel seed).
Definition store_gmpe_map (seed : Z) : M unit := emit (EvStoreGmpeMap seed).

Definition do_curves (sites : list Site) (realizations : Z)
    (serializer : option (kwargs -> M value)) (the_task : TaskFunc) : M unit :=
  let source_model_generator := rng_seed (SOURCE_MODEL_LT_RANDOM_SEED job_ctxt) in
  let gmpe_generator := rng_seed (GMPE_LT_RANDOM_SEED job_ctxt) in
  pk_set (job_id job_ctxt) "hcls_crealization" 0 >>
  for_fold (xrange 0 realizations)
    (fun realization '(source_model_generator, gmpe_generator) =>
      pk_inc (job_id job_ctxt) "hcls_crealization" >>
      emit (EvLog "Calculating hazard curves for realization %s" [realization]) >>
      let '(bits, source_model_generator) := getrandbits source_model_generator 32 in
      store_source_model bits >>
      let '(bits, source_model_generator) := getrandbits source_model_generator 32 in
      store_gmpe_map bits >>
      let tf_args : kwargs :=
        <["job_id" := VInt (job_id job_ctxt)]> (<["realization" := VInt realization]> ∅) in
      let ath_args : kwargs :=
        <["sites" := VList (VSite <$> sites)]> (<["realization" := VInt realization]> ∅) in
      distribute the_task "sites" ((fun s => VList [VSite s]) <$> sites)
        (Some tf_args) serializer (Some ath_args) false >>
      ret (source_model_generator, gmpe_generator))
    (source_model_generator, gmpe_generator) >>
  ret tt.

Definition do_means (sites : list Site) (realizations : Z)
    (curve_serializer : option (kwargs -> M value)) (curve_task : TaskFunc)
    (map_func : option (Z -> list Site -> value -> list Q -> M unit))
    (map_serializer : option (list Site -> list Q -> M unit)) : M unit :=
  if negb (COMPUTE_MEAN_HAZARD_CURVE job_ctxt) then ret tt
  else
    emit (EvLog "Computing mean hazard curves" []) >>
    let tf_args : kwargs :=
      <["job_id" := VInt (job_id job_ctxt)]> (<["realizations" := VInt realizations]> ∅) in
    let ath_args : kwargs := {[ "sites" := VList (VSite <$> sites) ]} in
    distribute curve_task "sites" ((fun s => VList [VSite s]) <$> sites)
      (Some tf_args) curve_serializer (Some ath_args) false >>
    match poes_hazard_maps job_ctxt with
    | [] => ret tt
    | _ :: _ =>
        match map_func, map_serializer with
        | None, _ =>
            raise (AssertionError "No calculation function for mean hazard maps set")
        | Some _, None =>
            raise (AssertionError "No serializer for the mean hazard maps set")
        | Some map_func, Some map_serializer =>
            emit (EvLog "Computing/serializing mean hazard maps" []) >>
            map_func (job_id job_ctxt) sites (imls job_ctxt) (poes_hazard_maps job_ctxt) >>
            emit (EvLog ">> mean maps!" []) >>
            map_serializer sites (poes_hazard_maps job_ctxt)
        end
    end.

Definition do_quantiles (sites : list Site) (realizations : Z) (quantiles : list Q)
    (curve_serializer : option (kwargs -> M value)) (curve_task : TaskFunc)
    (map_func : option (Z -> list Site -> list Q -> value -> list Q -> M unit))
    (map_serializer : option (list Site -> list Q -> Q -> M unit)) : M unit :=
  match quantiles with
  | [] => ret tt
  | _ :: _ =>
      emit (EvLog "Computing quantile hazard curves" []) >>
      let tf_args : kwargs :=
        <["job_id" := VInt (job_id job_ctxt)]>
        (<["realizations" := VInt realizations]>
        (<["quantiles" := VList (VFloat <$> quantiles)]> ∅)) in
      let ath_args : kwargs :=
        <["sites" := VList (VSite <$> sites)]>
        (<["quantiles" := VList (VFloat <$> quantiles)]> ∅) in
      distribute curve_task "sites" ((fun s => VList [VSite s]) <$> sites)
        (Some tf_args) curve_serializer (Some ath_args) false >>
      match poes_hazard_maps job_ctxt with
      | [] => ret tt
      | _ :: _ =>
          match map_func, map_serializer with
          | None, _ =>
              raise (AssertionError "No calculation function for quantile maps set.")
          | Some _, None =>
              raise (AssertionError "No serializer for the quantile maps set.")
          | Some map_func, Some map_serializer =>
              emit (EvLog "Computing quantile hazard maps" []) >>
              map_func (job_id job_ctxt) sites quantiles (imls job_ctxt)
                (poes_hazard_maps job_ctxt) >>
              emit (EvLog "Serializing quantile maps for %s values" [len quantiles]) >>
              for_ quantiles (fun quantile =>
                emit (EvLog ">> quantile maps!" []) >>
                map_serializer sites (poes_hazard_maps job_ctxt) quantile)
          end
      end
  end.

(** *** execute *)

(** The body of [for start in blocks], on the slice [data] of the block. *)
Definition execute_block (fuel : nat) (data : list Site) (realizations : Z)
    (kvs_keys_purged : option (list Key)) : M (option (list Key)) :=
  emit (EvLog "> curves!" []) >>
  do_curves data realizations (Some (ath_hazard_curve_of_realization fuel))
    compute_hazard_curve >>
  emit (EvLog "> means!" []) >>
  do_means data realizations (Some (ath_mean_hazard_curves fuel))
    compute_mean_curves (Some compute_mean_hazard_maps)
    (Some serialize_mean_hazard_map) >>
  emit (EvLog "> quantiles!" []) >>
  let quantiles := quantile_levels job_ctxt in
  do_quantiles data realizations quantiles (Some (ath_quantile_hazard_curves fuel))
    compute_quantile_curves (Some compute_quantile_hazard_maps)
    (Some serialize_quantile_hazard_map) >>
  release_data_from_kvs (job_id job_ctxt) data realizations quantiles
    (poes_hazard_maps job_ctxt) kvs_keys_purged.

(** [execute] returns nothing; the model returns [kvs_keys_purged] as the
    blocks have extended it. *)
Definition execute (fuel : nat) (kvs_keys_purged : option (list Key))
    : M (option (list Key)) :=
  let sites := sites_to_compute job_ctxt in
  let realizations := NUMBER_OF_LOGIC_TREE_SAMPLES job_ctxt in
  emit (EvLog "Going to run classical PSHA hazard for %s realizations and %s sites"
          [realizations; len sites]) >>
  pk_set (job_id job_ctxt) "hcls_sites" (len sites) >>
  pk_set (job_id job_ctxt) "hcls_realizations" realizations >>
  let block_size := hazard_block_size job_ctxt in
  pk_set (job_id job_ctxt) "block_size" block_size >>
  let* blocks := range 0 (len sites) block_size in
  pk_set (job_id job_ctxt) "blocks" (len blocks) >>
  pk_set (job_id job_ctxt) "cblock" 0 >>
  for_fold blocks (fun start kvs_keys_purged =>
    pk_inc (job_id job_ctxt) "cblock" >>
    let end_ := start + block_size in
    let data := slice sites start end_ in
    execute_block fuel data realizations kvs_keys_purged) kvs_keys_purged.

(** * Properties *)

#[local] Set Warnings "-clear-no-such-hyp".

Ltac splits := repeat match goal with |- _ /\ _ => split end.

(** ** distribute *)

(** The keyword arguments of the subtask of one item. *)
Definition subtask_kwargs (name : string) (tf_args : option kwargs) (item : value)
    : kwargs :=
  <[name := item]> (default ∅ tf_args).

(** What [distribute] has logged once the task set is applied. *)
Definition submitted (task_func : TaskFunc) (name : string) (data : list value)
    (tf_args : option kwargs) (w : World) : World :=
  {| w_log := w_log w ++
       [EvLog "-data_length: %s" [len data];
        EvLog "-#subtasks: %s" [len data];
        EvApplyAsync (task_name task_func) (subtask_kwargs name tf_args <$> data)];
     w_kvs := w_kvs w; w_pk := w_pk w |}.

Definition joined (results : list value) (w : World) : World :=
  {| w_log := w_log w ++ [EvJoinNative results]; w_kvs := w_kvs w; w_pk := w_pk w |}.

Lemma subtasks_eq (name : string) (tf_args : option kwargs) (data : list value) :
  (if truthy tf_args
   then (fun item => <[name := item]> (default ∅ tf_args)) <$> data
   else (fun item => ({[name := item]} : kwargs)) <$> data)
  = subtask_kwargs name tf_args <$> data.
Proof.
  unfold subtask_kwargs, truthy. destruct tf_args as [m|]; simpl.
  - case_bool_decide as Hm; simpl; [|reflexivity]. subst m. reflexivity.
  - reflexivity.
Qed.

Lemma app_log_assoc (l : list Event) a b c :
  ((l ++ [a]) ++ [b]) ++ [c] = l ++ [a; b; c].
Proof. now rewrite <- !app_assoc. Qed.

(** The branch of [distribute] for a task whose results are collected. *)
Definition collect (task_func : TaskFunc) (result : list kwargs)
    (flatten_results : bool) : M value :=
  let* results := join_native task_func result in
  _check_exception results >>
  let* results :=
    match results with
    | sample :: _ =>
        if flatten_results && is_list_tuple_set sample
        then chain results
        else ret results
    | [] => ret results
    end in
  ret (VList results).

(** [distribute] up to the point where the two modes part. *)
Lemma distribute_unfold task_func name data tf_args ath ath_args flatten_results w :
  distribute task_func name data tf_args ath ath_args flatten_results w =
  let w1 := submitted task_func name data tf_args w in
  if ignore_result task_func then
    match ath with
    | Some ath => if truthy ath_args then ath (default ∅ ath_args) w1 else ath ∅ w1
    | None => (Ok VNone, w1)
    end
  else collect task_func (subtask_kwargs name tf_args <$> data) flatten_results w1.
Proof.
  unfold distribute. rewrite subtasks_eq.
  unfold bind at 1. simpl. unfold bind at 1. simpl.
  unfold apply_async. unfold bind at 1. unfold bind at 1. simpl.
  rewrite app_log_assoc. unfold len. rewrite length_fmap.
  destruct (ignore_result task_func); [|reflexivity].
  destruct ath as [f|]; [|reflexivity]. destruct (truthy ath_args); reflexivity.
Qed.

(** [isinstance(result, Exception)] *)
Definition is_exception (v : value) : bool :=
  match v with
  | VExc _ => true
  | _ => false
  end.

Lemma _check_exception_none results w :
  forallb (fun v => negb (is_exception v)) results = true ->
  _check_exception results w = (Ok tt, w).
Proof.
  induction results as [|v results IH]; simpl; [reflexivity|].
  intros [Hv Hr]%andb_prop. destruct v; try discriminate; auto.
Qed.

Lemma _check_exception_first pre e post w :
  forallb (fun v => negb (is_exception v)) pre = true ->
  _check_exception (pre ++ VExc e :: post) w = (Raise e, w).
Proof.
  induction pre as [|v pre IH]; simpl; [reflexivity|].
  intros [Hv Hr]%andb_prop. destruct v; try discriminate; auto.
Qed.

Lemma chain_iterable results ls w :
  mapM iter_value results = Some ls ->
  chain results w = (Ok (concat ls), w).
Proof.
  revert ls. induction results as [|r results IH]; simpl; intros ls E.
  - injection E as <-. reflexivity.
  - destruct (iter_value r) as [l|]; [|discriminate]. simpl in E.
    destruct (mapM iter_value results) as [ls'|]; [|discriminate].
    injection E as <-. unfold bind. rewrite (IH ls' eq_refl). reflexivity.
Qed.


Lemma chain_world results w : snd (chain results w) = w.
Proof.
  revert w. induction results as [|r results IH]; intros w; simpl; [reflexivity|].
  destruct (iter_value r); [|reflexivity].
  unfold bind. specialize (IH w).
  destruct (chain results w) as [[rest| |] w']; simpl in *; congruence.
Qed.

Lemma first_exception results :
  forallb (fun v => negb (is_exception v)) results = false ->
  exists pre e post,
    results = pre ++ VExc e :: post /\
    forallb (fun v => negb (is_exception v)) pre = true.
Proof.
  induction results as [|v results IH]; simpl; [discriminate|].
  destruct (is_exception v) eqn:Ev; simpl.
  - intros _. destruct v; try discriminate. exists [], e, results. auto.
  - intros (pre & e & post & -> & Hpre)%IH.
    exists (v :: pre), e, post. simpl. rewrite Ev. auto.
Qed.

Lemma collect_world task_func result flatten_results w :
  snd (collect task_func result flatten_results w)
  = joined (task_run task_func <$> result) w.
Proof.
  unfold collect, join_native. unfold bind at 1. unfold bind at 1. simpl.
  fold (joined (task_run task_func <$> result) w).
  set (results := task_run task_func <$> result).
  set (w2 := joined results w).
  destruct (forallb (fun v => negb (is_exception v)) results) eqn:E.
  - unfold bind at 1. rewrite (_check_exception_none _ _ E).
    unfold bind at 1.
    destruct results as [|sample results']; [reflexivity|].
    destruct (flatten_results && is_list_tuple_set sample); [|reflexivity].
    pose proof (chain_world (sample :: results') w2) as Hc.
    destruct (chain (sample :: results') w2) as [[l| |] w3]; simpl in *; congruence.
  - destruct (first_exception _ E) as (pre & e & post & -> & Hpre).
    unfold bind at 1. now rewrite (_check_exception_first _ _ _ _ Hpre).
Qed.

Lemma collect_raise task_func result flatten_results w pre e post :
  task_run task_func <$> result = pre ++ VExc e :: post ->
  forallb (fun v => negb (is_exception v)) pre = true ->
  fst (collect task_func result flatten_results w) = Raise e.
Proof.
  intros E Hpre. unfold collect, join_native.
  unfold bind at 1. unfold bind at 1. simpl. rewrite E.
  unfold bind at 1. now rewrite (_check_exception_first _ _ _ _ Hpre).
Qed.

Lemma collect_no_exception task_func result flatten_results w :
  let results := task_run task_func <$> result in
  forallb (fun v => negb (is_exception v)) results = true ->
  collect task_func result flatten_results w =
    if flatten_results && is_list_tuple_set (hd VNone results)
    then bind (chain results) (fun results => ret (VList results)) (joined results w)
    else (Ok (VList results), joined results w).
Proof.
  intros results E. unfold collect, join_native.
  unfold bind at 1. unfold bind at 1. simpl. fold results.
  unfold bind at 1. rewrite (_check_exception_none _ _ E).
  fold (joined results w).
  destruct results as [|sample results']; simpl hd.
  - now rewrite andb_false_r.
  - cbv beta iota.
    destruct (flatten_results && is_list_tuple_set sample); reflexivity.
Qed.

Lemma collect_results task_func result flatten_results w :
  let results := task_run task_func <$> result in
  forallb (fun v => negb (is_exception v)) results = true ->
  (flatten_results && is_list_tuple_set (hd VNone results) = false ->
   fst (collect task_func result flatten_results w) = Ok (VList results)) /\
  (flatten_results && is_list_tuple_set (hd VNone results) = true ->
   forall ls, mapM iter_value results = Some ls ->
   fst (collect task_func result flatten_results w) = Ok (VList (concat ls))).
Proof.
  intros results E.
  rewrite (collect_no_exception task_func result flatten_results w E).
  fold results. split; intros ->; [reflexivity|].
  intros ls Hls. unfold bind. now rewrite (chain_iterable _ _ _ Hls).
Qed.

(** C1 (amended): [distribute] has no check for an empty [data].  With no
    items it applies a task set of zero subtasks (so no subtask reaches the
    work queue) and goes on as for any other input: for a task whose results
    are ignored it returns what the task handler [ath] returns, or [None]
    without one; for a task whose results are collected it joins the empty
    task set and returns the empty list.  [distribute] itself raises
    nothing. *)
Theorem distribute_empty_data task_func name tf_args ath ath_args flatten_results w :
  let w1 := submitted task_func name [] tf_args w in
  w_log w1 = w_log w ++
    [EvLog "-data_length: %s" [0]; EvLog "-#subtasks: %s" [0];
     EvApplyAsync (task_name task_func) []] /\
  distribute task_func name [] tf_args ath ath_args flatten_results w =
    if ignore_result task_func then
      match ath with
      | Some ath => ath (if truthy ath_args then default ∅ ath_args else ∅) w1
      | None => (Ok VNone, w1)
      end
    else (Ok (VList []), joined [] w1).
Proof.
  split; [reflexivity|].
  rewrite distribute_unfold. simpl.
  destruct (ignore_result task_func); [|reflexivity].
  destruct ath as [f|]; [|reflexivity]. now destruct (truthy ath_args).
Qed.

(** C8: for a non-empty [data] and a task whose results are collected
    ([ignore_result] false), [distribute] submits one subtask per item, joins
    them all, and returns the results of the subtasks in the order of the
    items (with [flatten_results], their elements, in that order); if a result
    is an exception, the call raises it (the first one in item order) and
    returns nothing. *)
Theorem distribute_collect_in_order task_func name data tf_args ath ath_args
    flatten_results w :
  data <> [] ->
  ignore_result task_func = false ->
  let results :=
    (fun item => task_run task_func (subtask_kwargs name tf_args item)) <$> data in
  let run := distribute task_func name data tf_args ath ath_args flatten_results w in
  snd run = joined results (submitted task_func name data tf_args w) /\
  (forallb (fun v => negb (is_exception v)) results = true ->
     (flatten_results && is_list_tuple_set (hd VNone results) = false ->
      fst run = Ok (VList results)) /\
     (flatten_results && is_list_tuple_set (hd VNone results) = true ->
      forall ls, mapM iter_value results = Some ls ->
      fst run = Ok (VList (concat ls)))) /\
  (forall pre e post,
     results = pre ++ VExc e :: post ->
     forallb (fun v => negb (is_exception v)) pre = true ->
     fst run = Raise e) /\
  (forallb (fun v => negb (is_exception v)) results = false ->
   exists e, VExc e ∈ results /\ fst run = Raise e).
Proof.
  intros _ Hmode results run.
  assert (Hres : task_run task_func <$> (subtask_kwargs name tf_args <$> data) = results).
  { unfold results. now rewrite <- list_fmap_compose. }
  assert (Hrun : run = collect task_func (subtask_kwargs name tf_args <$> data)
                         flatten_results (submitted task_func name data tf_args w)).
  { unfold run. rewrite distribute_unfold. simpl. now rewrite Hmode. }
  assert (Hraise : forall pre e post,
     results = pre ++ VExc e :: post ->
     forallb (fun v => negb (is_exception v)) pre = true ->
     fst run = Raise e).
  { intros pre e post E Hpre. rewrite Hrun.
    apply (collect_raise _ _ _ _ pre e post); [now rewrite Hres | exact Hpre]. }
  repeat split.
  - rewrite Hrun, collect_world. now rewrite Hres.
  - rewrite Hrun. rewrite <- Hres in *. now apply collect_results.
  - rewrite Hrun. rewrite <- Hres in *. now apply collect_results.
  - exact Hraise.
  - intros (pre & e & post & E & Hpre)%first_exception.
    exists e. split; [|eauto]. rewrite E. apply elem_of_app. right. left.
Qed.


(** ** serialize_hazard_curve: one scan of the sites *)

Definition is_get (ev : Event) : bool :=
  match ev with
  | EvKvsGet _ _ => true
  | _ => false
  end.

(** The scan of the sites always completes.  It reads the cache only, and
    what it appends to [hc_data] are sites of the scan that were not accounted
    for before, each once. *)
Lemma scan_sites key_template hc_attrib_update (l : list Site) :
  forall sc w, exists sc' w' added gets,
    for_fold l (scan_site key_template hc_attrib_update) sc w = (Ok sc', w') /\
    w_log w' = w_log w ++ gets /\
    forallb is_get gets = true /\
    sc_hc_data sc' = sc_hc_data sc ++ added /\
    sc_results_found sc' = sc_results_found sc + len added /\
    (forall s, s ∈ sc_accounted_for sc' <-> s ∈ added.*1 \/ s ∈ sc_accounted_for sc) /\
    NoDup added.*1 /\
    (forall s, s ∈ added.*1 -> s ∈ l /\ s ∉ sc_accounted_for sc).
Proof.
  induction l as [|site l IH]; intros sc w.
  - exists sc, w, [], []. simpl. unfold ret, len. simpl.
    rewrite !app_nil_r, Z.add_0_r. splits; auto.
    + intros s. split; [now right|]. intros [Hs|Hs]; [inversion Hs | exact Hs].
    + constructor.
    + intros s Hs. inversion Hs.
  - simpl. unfold bind at 1. unfold scan_site at 1.
    destruct (decide (site ∈ sc_accounted_for sc)) as [Hin|Hnin].
    + unfold ret at 1.
      destruct (IH sc w) as (sc' & w' & added & gets & E & Hlog & Hg & Hd & Hn & Ha & Hnd & Hs).
      exists sc', w', added, gets. splits; auto.
      intros s Hx. split; [right|]; now apply Hs.
    + unfold bind at 1. unfold get_value_json_decoded at 1.
      cbv beta zeta.
      set (kvs := workers (w_log w) (w_kvs w)).
      set (key := fmt key_template (hash site)).
      set (w1 := {| w_log := w_log w ++ [EvKvsGet key (kvs !! key)];
                    w_kvs := kvs; w_pk := w_pk w |}).
      destruct (kvs !! key) as [v|] eqn:Ev.
      * unfold ret at 1.
        match goal with |- context [for_fold l _ ?s w1] => set (sc1 := s) end.
        destruct (IH sc1 w1) as (sc' & w' & added & gets & E & Hlog & Hg & Hd & Hn & Ha & Hnd & Hs).
        subst sc1. simpl in Hd, Hn, Ha, Hs, Hlog.
        match type of Hd with _ = (_ ++ [?p]) ++ _ =>
          exists sc', w', (p :: added), (EvKvsGet key (Some v) :: gets)
        end.
        simpl. splits; auto.
        -- rewrite Hlog. now rewrite <- app_assoc.
        -- rewrite Hd. now rewrite <- app_assoc.
        -- rewrite Hn. unfold len. simpl length. lia.
        -- intros s. rewrite Ha. clear. set_solver.
        -- constructor; [|exact Hnd].
           intros Hx. apply Hs in Hx as [_ Hx]. clear - Hx. set_solver.
        -- intros s Hx. apply elem_of_cons in Hx as [->|Hx].
           ++ split; [left | exact Hnin].
           ++ apply Hs in Hx as [Hx1 Hx2].
              split; [now right | clear - Hx2; set_solver].
      * unfold ret at 1.
        destruct (IH sc w1) as (sc' & w' & added & gets & E & Hlog & Hg & Hd & Hn & Ha & Hnd & Hs).
        exists sc', w', added, (EvKvsGet key None :: gets). splits; auto.
        -- rewrite Hlog. simpl. now rewrite <- app_assoc.
        -- intros s Hx. split; [right|]; now apply Hs.
Qed.


(** ** serialize_hazard_curve: one iteration of the polling loop *)

(** The pause after an iteration that found results. *)
Definition decay (pause : Q) : Q :=
  let pause := (pause * (8 # 10))%Q in
  if Qlt_le_dec pause min_pause then min_pause else pause.

(** What an iteration that was not aborted has logged: the check of the
    failure counters, the sleep, the cache reads, and the serialization of the
    batch when there is one. *)
Definition iteration_events (nrml_path : string) (pause : Q) (gets : list Event)
    (x : XSC) (batch : list (Site * kwargs)) : list Event :=
  [EvFailureCounters (job_id job_ctxt) []; EvSleep pause] ++ gets ++
  match batch with
  | [] => []
  | _ :: _ => [EvSerializerContext x; EvSerialize nrml_path batch]
  end.

Lemma poll_body_abort nrml_path key_template hc_attrib_update sites st w :
  failure_counters (w_log w) <> [] ->
  poll_body nrml_path key_template hc_attrib_update sites st w =
    (Raise (RuntimeError (failure_counters (w_log w))),
     {| w_log := w_log w ++
          [EvFailureCounters (job_id job_ctxt) (failure_counters (w_log w))];
        w_kvs := w_kvs w; w_pk := w_pk w |}).
Proof.
  intros Hf. unfold poll_body, stats_failure_counters. unfold bind at 1.
  cbv beta zeta. now rewrite bool_decide_eq_false_2.
Qed.

Lemma poll_body_iteration nrml_path key_template hc_attrib_update sites st w :
  failure_counters (w_log w) = [] ->
  exists st' w' gets x batch,
    poll_body nrml_path key_template hc_attrib_update sites st w = (Ok st', w') /\
    w_log w' = w_log w ++ iteration_events nrml_path (pause st) gets x batch /\
    forallb is_get gets = true /\
    (forall s, s ∈ accounted_for st' <-> s ∈ batch.*1 \/ s ∈ accounted_for st) /\
    NoDup batch.*1 /\
    (forall s, s ∈ batch.*1 -> s ∈ sites /\ s ∉ accounted_for st) /\
    (pause st', pgen st') =
      match batch with
      | [] => next (pgen st)
      | _ :: _ => (decay (pause st), pgen st)
      end.
Proof.
  intros Hf. unfold poll_body, stats_failure_counters. unfold bind at 1.
  cbv beta zeta. rewrite Hf. rewrite bool_decide_eq_true_2 by reflexivity.
  unfold bind at 1. unfold emit at 1. cbv beta iota. unfold bind at 1.
  match goal with |- context [for_fold _ _ ?s ?w1] =>
    destruct (scan_sites key_template hc_attrib_update (elements sites) s w1)
      as (sc' & w' & added & gets & E & Hlog & Hg & Hd & Hn & Ha & Hnd & Hs)
  end.
  rewrite E. simpl in Hlog, Hd, Hn, Ha, Hs.
  assert (Hsites : forall s, s ∈ added.*1 -> s ∈ sites /\ s ∉ accounted_for st).
  { intros s Hx. apply Hs in Hx as [Hx1 Hx2]. split; [|exact Hx2].
    now apply elem_of_elements in Hx1. }
  rewrite Hd, Hn. destruct added as [|entry added].
  - simpl. destruct (next (pgen st)) as [p g] eqn:En.
    eexists _, w', gets, (xsc st), []. splits; eauto.
    rewrite Hlog. unfold iteration_events. simpl.
    now rewrite <- !app_assoc, app_nil_r.
  - assert (Hz : (0 + len (entry :: added) =? 0) = false).
    { apply Z.eqb_neq. unfold len. simpl length. lia. }
    rewrite Hz. unfold bind at 1. unfold emit at 1. cbv beta iota.
    unfold bind at 1. unfold emit at 1. cbv beta iota. unfold ret.
    eexists _, _, gets, _, (entry :: added). splits; eauto.
    cbn [w_log]. rewrite Hlog. unfold iteration_events. simpl.
    now rewrite <- !app_assoc.
Qed.


(** ** serialize_hazard_curve: the runs of the polling loop *)

(** A run of the [while] loop from the loop variables [st]: how it ends, and
    what it logs.  It ends when every site is accounted for, when the fuel of
    the model is used up, or at the first check that finds a failure. *)
Inductive polling (nrml_path : string) (sites : gset Site)
    : Poll -> Res Poll -> list Event -> Prop :=
| polling_done st :
    accounted_for st = sites ->
    polling nrml_path sites st (Ok st) []
| polling_out_of_fuel st :
    accounted_for st <> sites ->
    polling nrml_path sites st OutOfFuel []
| polling_abort st failures :
    accounted_for st <> sites ->
    failures <> [] ->
    polling nrml_path sites st (Raise (RuntimeError failures))
      [EvFailureCounters (job_id job_ctxt) failures]
| polling_iteration st st' gets x batch r evs :
    accounted_for st <> sites ->
    forallb is_get gets = true ->
    (forall s, s ∈ accounted_for st' <-> s ∈ batch.*1 \/ s ∈ accounted_for st) ->
    NoDup batch.*1 ->
    (forall s, s ∈ batch.*1 -> s ∈ sites /\ s ∉ accounted_for st) ->
    (pause st', pgen st') =
      match batch with
      | [] => next (pgen st)
      | _ :: _ => (decay (pause st), pgen st)
      end ->
    polling nrml_path sites st' r evs ->
    polling nrml_path sites st r
      (iteration_events nrml_path (pause st) gets x batch ++ evs).

Lemma poll_loop_polling nrml_path key_template hc_attrib_update sites fuel :
  forall st w, exists r w' evs,
    poll_loop fuel nrml_path key_template hc_attrib_update sites st w = (r, w') /\
    w_log w' = w_log w ++ evs /\
    polling nrml_path sites st r evs.
Proof.
  induction fuel as [|fuel IH]; intros st w; simpl;
    destruct (decide (accounted_for st = sites)) as [Hd|Hd].
  - exists (Ok st), w, []. rewrite app_nil_r. splits; auto. now constructor.
  - exists OutOfFuel, w, []. rewrite app_nil_r. splits; auto. now constructor.
  - exists (Ok st), w, []. rewrite app_nil_r. splits; auto. now constructor.
  - destruct (decide (failure_counters (w_log w) = [])) as [Hf|Hf].
    + destruct (poll_body_iteration nrml_path key_template hc_attrib_update sites st w Hf)
        as (st' & w1 & gets & x & batch & E & Hlog & Hg & Ha & Hnd & Hs & Hp).
      destruct (IH st' w1) as (r & w' & evs & E' & Hlog' & Hrun).
      exists r, w', (iteration_events nrml_path (pause st) gets x batch ++ evs).
      splits.
      * unfold bind. now rewrite E.
      * rewrite Hlog', Hlog. now rewrite <- app_assoc.
      * now apply polling_iteration with (st' := st').
    + eexists _, _, _. splits.
      * unfold bind. now rewrite (poll_body_abort _ _ _ _ _ _ Hf).
      * reflexivity.
      * now constructor.
Qed.


(** What [serialize_hazard_curve] logs before it enters the loop. *)
Definition prelude_events (nrml_path : string) (blocks cblock : option Z) : list Event :=
  [EvPkGet (job_id job_ctxt) "blocks" blocks;
   EvPkGet (job_id job_ctxt) "cblock" cblock;
   EvCreateWriter nrml_path].

(** How [serialize_hazard_curve] ends, given how its loop ends. *)
Definition returned (nrml_path : string) (r : Res Poll) : Res string :=
  match r with
  | Ok _ => Ok nrml_path
  | Raise e => Raise e
  | OutOfFuel => OutOfFuel
  end.

Lemma serialize_hazard_curve_polling fuel nrml_file key_template hc_attrib_update
    (sites : list Site) w :
  let nrml_path := build_nrml_path nrml_file in
  exists blocks cblock x r w' evs,
    serialize_hazard_curve fuel nrml_file key_template hc_attrib_update sites w
      = (returned nrml_path r, w') /\
    w_log w' = w_log w ++ prelude_events nrml_path blocks cblock ++ evs /\
    polling nrml_path (list_to_set sites) (poll_init x) r evs.
Proof.
  intros nrml_path. unfold serialize_hazard_curve.
  unfold bind at 1. unfold pk_get at 1. cbv beta zeta.
  unfold bind at 1. unfold pk_get at 1. cbv beta zeta.
  unfold bind at 1. unfold emit at 1. cbv beta iota.
  fold nrml_path. cbn [w_log w_kvs w_pk]. unfold bind at 1.
  match goal with |- context [poll_loop _ _ _ _ ?s ?st ?w1] =>
    destruct (poll_loop_polling nrml_path key_template hc_attrib_update s fuel st w1)
      as (r & w' & evs & E & Hlog & Hrun)
  end.
  eexists _, _, _, r, w', evs. splits.
  - rewrite E. destruct r; reflexivity.
  - rewrite Hlog. cbn [w_log]. unfold prelude_events.
    now rewrite <- !app_assoc.
  - exact Hrun.
Qed.

(** ** Batches *)

(** The sites of the batches handed to the curve writer, batch by batch. *)
Definition serialized_batches (evs : list Event) : list (list Site) :=
  omap (fun ev => match ev with
                  | EvSerialize _ data => Some data.*1
                  | _ => None
                  end) evs.

Lemma serialized_batches_app evs1 evs2 :
  serialized_batches (evs1 ++ evs2) = serialized_batches evs1 ++ serialized_batches evs2.
Proof. apply omap_app. Qed.

Lemma serialized_batches_gets gets :
  forallb is_get gets = true -> serialized_batches gets = [].
Proof.
  induction gets as [|ev gets IH]; [reflexivity|]. simpl.
  intros [Hev Hg]%andb_prop. destruct ev; try discriminate. simpl. auto.
Qed.

Lemma serialized_batches_iteration nrml_path pause gets x batch :
  forallb is_get gets = true ->
  serialized_batches (iteration_events nrml_path pause gets x batch)
  = match batch with [] => [] | _ :: _ => [batch.*1] end.
Proof.
  intros Hg. unfold iteration_events.
  rewrite !serialized_batches_app, (serialized_batches_gets _ Hg).
  destruct batch; reflexivity.
Qed.

(** Along a run of the loop, the batches are made of sites that were expected
    and not accounted for when the run began, no site is in them twice, and a
    run that ends normally has put every remaining site in a batch. *)
Lemma polling_batches nrml_path sites st r evs :
  polling nrml_path sites st r evs ->
  NoDup (concat (serialized_batches evs)) /\
  (forall s, s ∈ concat (serialized_batches evs) -> s ∈ sites /\ s ∉ accounted_for st) /\
  (forall st', r = Ok st' ->
     forall s, s ∈ sites -> s ∈ concat (serialized_batches evs) \/ s ∈ accounted_for st) /\
  Forall (fun batch => batch <> []) (serialized_batches evs).
Proof.
  induction 1 as [st Hd|st Hd|st fs Hd Hf
                 |st st' gets x batch r evs Hd Hg Ha Hnd Hs Hp Hrun IH].
  - simpl. splits; [constructor| |intros st' _ s Hx; right; now rewrite Hd|constructor].
    intros s Hx. inversion Hx.
  - simpl. splits; [constructor| |discriminate|constructor].
    intros s Hx. inversion Hx.
  - simpl. splits; [constructor| |discriminate|constructor].
    intros s Hx. inversion Hx.
  - destruct IH as (IHnd & IHs & IHok & IHne).
    rewrite serialized_batches_app, (serialized_batches_iteration _ _ _ _ _ Hg).
    assert (Hb : concat (match batch with [] => [] | _ :: _ => [batch.*1] end) = batch.*1).
    { destruct batch; simpl; [reflexivity | now rewrite app_nil_r]. }
    rewrite concat_app, Hb. splits.
    + apply NoDup_app. splits; [exact Hnd| |exact IHnd].
      intros s Hx Hy. apply IHs in Hy as [_ Hy]. apply Hy, Ha. now left.
    + intros s [Hx|Hx]%elem_of_app; [now apply Hs|].
      apply IHs in Hx as [Hx1 Hx2]. split; [exact Hx1|].
      intros Hy. apply Hx2, Ha. now right.
    + intros stf -> s Hx. destruct (IHok stf eq_refl s Hx) as [Hy|Hy].
      * left. apply elem_of_app. now right.
      * apply Ha in Hy as [Hy|Hy]; [left; apply elem_of_app; now left | now right].
    + apply Forall_app. split; [|exact IHne].
      destruct batch; constructor; [discriminate | constructor].
Qed.

Lemma NoDup_concat_disjoint {A} (ls : list (list A)) :
  NoDup (concat ls) ->
  forall i j l1 l2, i <> j -> ls !! i = Some l1 -> ls !! j = Some l2 ->
  forall x, x ∈ l1 -> x ∉ l2.
Proof.
  induction ls as [|l ls IH]; intros Hnd i j l1 l2 Hij H1 H2 x Hx1 Hx2.
  - discriminate.
  - simpl in Hnd. apply NoDup_app in Hnd as (_ & Hdis & Hnd).
    destruct i as [|i], j as [|j]; simpl in H1, H2.
    + congruence.
    + injection H1 as ->. apply (Hdis x Hx1).
      apply list_elem_of_lookup_2 in H2. apply list_elem_of_In, in_concat.
      exists l2. split; now apply list_elem_of_In.
    + injection H2 as ->. apply (Hdis x Hx2).
      apply list_elem_of_lookup_2 in H1. apply list_elem_of_In, in_concat.
      exists l1. split; now apply list_elem_of_In.
    + apply (IH Hnd i j l1 l2 ltac:(congruence) H1 H2 x Hx1 Hx2).
Qed.

(** C5: within one invocation of [serialize_hazard_curve] no site is in two
    serialized batches or twice in one (the batches are pairwise disjoint),
    every serialized site is an expected one, and when the invocation returns
    every expected site has been serialized: the batches together are the set
    of the expected sites, each site once. *)
Theorem serialize_hazard_curve_batches fuel nrml_file key_template hc_attrib_update
    (sites : list Site) w :
  let run := serialize_hazard_curve fuel nrml_file key_template hc_attrib_update sites w in
  exists evs,
    w_log (snd run) = w_log w ++ evs /\
    let batches := serialized_batches evs in
    NoDup (concat batches) /\
    (forall i j b1 b2, i <> j -> batches !! i = Some b1 -> batches !! j = Some b2 ->
       forall s, s ∈ b1 -> s ∉ b2) /\
    (forall s, s ∈ concat batches -> s ∈ sites) /\
    (forall nrml_path, fst run = Ok nrml_path ->
       forall s, s ∈ sites -> s ∈ concat batches).
Proof.
  intros run.
  destruct (serialize_hazard_curve_polling fuel nrml_file key_template
              hc_attrib_update sites w)
    as (blocks & cblock & x & r & w' & evs & E & Hlog & Hrun).
  apply polling_batches in Hrun as (Hnd & Hs & Hok & _).
  exists (prelude_events (build_nrml_path nrml_file) blocks cblock ++ evs).
  subst run. rewrite E. cbn [fst snd]. split; [exact Hlog|].
  rewrite serialized_batches_app. cbn [prelude_events serialized_batches omap app].
  fold (serialized_batches evs). cbv zeta. splits.
  - exact Hnd.
  - now apply NoDup_concat_disjoint.
  - intros s Hx. apply Hs in Hx as [Hx _]. now apply elem_of_list_to_set in Hx.
  - intros nrml_path Hr s Hx. destruct r as [stf| |]; try discriminate.
    destruct (Hok stf eq_refl s) as [Hy|Hy]; [now apply elem_of_list_to_set|exact Hy|].
    unfold poll_init in Hy. simpl in Hy. now apply elem_of_empty in Hy.
Qed.


(** ** Failures *)

(** The events of one iteration that ran to its end: a check of the failure
    counters that found nothing, the sleep, cache reads, and the
    serialization of what was found. *)
Definition iteration_shape (nrml_path : string) (evs : list Event) : Prop :=
  exists pause gets x batch,
    forallb is_get gets = true /\
    evs = iteration_events nrml_path pause gets x batch.

Lemma polling_shape nrml_path sites st r evs :
  polling nrml_path sites st r evs ->
  exists iterations final,
    evs = concat iterations ++ final /\
    Forall (iteration_shape nrml_path) iterations /\
    (final = [] /\ (forall e, r <> Raise e) \/
     exists failures,
       failures <> [] /\
       final = [EvFailureCounters (job_id job_ctxt) failures] /\
       r = Raise (RuntimeError failures)).
Proof.
  induction 1 as [st Hd|st Hd|st fs Hd Hf
                 |st st' gets x batch r evs Hd Hg Ha Hnd Hs Hp Hrun IH].
  - exists [], []. splits; [reflexivity|constructor|]. left. split; [reflexivity|discriminate].
  - exists [], []. splits; [reflexivity|constructor|]. left. split; [reflexivity|discriminate].
  - exists [], [EvFailureCounters (job_id job_ctxt) fs].
    splits; [reflexivity|constructor|]. right. now exists fs.
  - destruct IH as (iterations & final & -> & Hsh & Hfinal).
    exists (iteration_events nrml_path (pause st) gets x batch :: iterations), final.
    splits.
    + cbn [concat]. now rewrite app_assoc.
    + constructor; [|exact Hsh]. now exists (pause st), gets, x, batch.
    + exact Hfinal.
Qed.

(** C3 (amended): every iteration of the polling loop of
    [serialize_hazard_curve] starts by consulting the failure counters of the
    job, before its sleep and its cache reads.  When that check finds a
    failure recorded, the loop raises [RuntimeError] at once, without a cache
    read; so the cache is read only in iterations whose check found no
    failure, and a check that finds one is the last thing the invocation does.
    (A failure recorded after the check of an iteration is found by the check
    of the next one.) *)
Theorem serialize_hazard_curve_aborts_on_failure fuel nrml_file key_template
    hc_attrib_update (sites : list Site) w :
  let nrml_path := build_nrml_path nrml_file in
  let run :=
    serialize_hazard_curve fuel nrml_file key_template hc_attrib_update sites w in
  (forall fuel' st w',
     accounted_for st <> list_to_set sites ->
     failure_counters (w_log w') <> [] ->
     poll_loop (S fuel') nrml_path key_template hc_attrib_update (list_to_set sites) st w'
     = (Raise (RuntimeError (failure_counters (w_log w'))),
        {| w_log := w_log w' ++
             [EvFailureCounters (job_id job_ctxt) (failure_counters (w_log w'))];
           w_kvs := w_kvs w'; w_pk := w_pk w' |})) /\
  exists blocks cblock iterations final,
    w_log (snd run) =
      w_log w ++ prelude_events nrml_path blocks cblock ++ concat iterations ++ final /\
    Forall (iteration_shape nrml_path) iterations /\
    (final = [] /\ (forall e, fst run <> Raise e) \/
     exists failures,
       failures <> [] /\
       final = [EvFailureCounters (job_id job_ctxt) failures] /\
       fst run = Raise (RuntimeError failures)).
Proof.
  intros nrml_path run. split.
  - intros fuel' st w' Hd Hf. simpl.
    destruct (decide (accounted_for st = list_to_set sites)) as [|_]; [contradiction|].
    unfold bind. now rewrite (poll_body_abort _ _ _ _ _ _ Hf).
  - destruct (serialize_hazard_curve_polling fuel nrml_file key_template
                hc_attrib_update sites w)
      as (blocks & cblock & x & r & w' & evs & E & Hlog & Hrun).
    apply polling_shape in Hrun as (iterations & final & -> & Hsh & Hfinal).
    exists blocks, cblock, iterations, final.
    subst run. rewrite E. cbn [fst snd]. splits; [exact Hlog|exact Hsh|].
    destruct Hfinal as [[-> Hr]|(fs & Hf & -> & ->)].
    + left. split; [reflexivity|]. intros e. destruct r; simpl; try discriminate.
      intros [=]. now apply (Hr e0).
    + right. now exists fs.
Qed.


(** ** Backoff *)

(** The two ways an iteration changes [pause] and the generator: with no new
    site the generator is advanced and gives the pause; otherwise the pause
    decays and the generator is left alone. *)
Lemma poll_body_step nrml_path key_template hc_attrib_update sites st w st' w' :
  poll_body nrml_path key_template hc_attrib_update sites st w = (Ok st', w') ->
  (accounted_for st' = accounted_for st /\ (pause st', pgen st') = next (pgen st)) \/
  (accounted_for st' <> accounted_for st /\
   (pause st', pgen st') = (decay (pause st), pgen st)).
Proof.
  intros E. destruct (decide (failure_counters (w_log w) = [])) as [Hf|Hf].
  - destruct (poll_body_iteration nrml_path key_template hc_attrib_update sites st w Hf)
      as (st1 & w1 & gets & x & batch & E1 & _ & _ & Ha & _ & Hs & Hp).
    rewrite E in E1. injection E1 as <- <-.
    destruct batch as [|[s attrib] batch].
    + left. split; [|exact Hp]. apply set_eq. intros s. rewrite Ha.
      split; [intros [Hx|Hx]; [inversion Hx|exact Hx] | now right].
    + right. split; [|exact Hp]. intros Heq.
      destruct (Hs s) as [_ Hn]; [left|]. apply Hn. rewrite <- Heq.
      apply Ha. left. left.
  - rewrite (poll_body_abort _ _ _ _ _ _ Hf) in E. discriminate.
Qed.

(** The loop variables that [serialize_hazard_curve] can reach, with the
    number of iterations so far in which no site newly completed. *)
Inductive reachable (nrml_path : string) (key_template : Template)
    (hc_attrib_update : kwargs) (sites : gset Site) (x : XSC) : nat -> Poll -> Prop :=
| reachable_init :
    reachable nrml_path key_template hc_attrib_update sites x 0 (poll_init x)
| reachable_idle k st w st' w' :
    reachable nrml_path key_template hc_attrib_update sites x k st ->
    poll_body nrml_path key_template hc_attrib_update sites st w = (Ok st', w') ->
    accounted_for st' = accounted_for st ->
    reachable nrml_path key_template hc_attrib_update sites x (S k) st'
| reachable_progress k st w st' w' :
    reachable nrml_path key_template hc_attrib_update sites x k st ->
    poll_body nrml_path key_template hc_attrib_update sites st w = (Ok st', w') ->
    accounted_for st' <> accounted_for st ->
    reachable nrml_path key_template hc_attrib_update sites x k st'.

Lemma pow2_S (k : nat) : (2 ^ Z.of_nat (S k) == 2 * 2 ^ Z.of_nat k)%Q.
Proof.
  rewrite Nat2Z.inj_succ, <- Z.add_1_l.
  rewrite Qpower_plus by discriminate. reflexivity.
Qed.

Lemma pow2_small (k : nat) : (k <= 8)%nat -> (2 ^ Z.of_nat k <= 256)%Q.
Proof.
  intros Hk. do 9 (destruct k as [|k]; [vm_compute; discriminate|]). lia.
Qed.

Lemma pow2_large (k : nat) : (9 <= k)%nat -> (512 <= 2 ^ Z.of_nat k)%Q.
Proof.
  induction 1 as [|k Hk IH].
  - vm_compute. discriminate.
  - rewrite pow2_S. lra.
Qed.

(** The value the generator yields after [k] resumptions in the loop. *)
Definition escalated (k : nat) : Q :=
  Qmin (min_pause * 2 ^ Z.of_nat k) (512 # 10).

Lemma escalated_next (k : nat) (v : Q) :
  (v == escalated k)%Q ->
  ((if Qlt_le_dec v 45 then v * 2 else v) == escalated (S k))%Q.
Proof.
  unfold escalated, min_pause. intros Hv. rewrite pow2_S.
  destruct (le_lt_dec k 8) as [Hk|Hk].
  - pose proof (pow2_small k Hk) as Hp.
    rewrite Q.min_l in Hv by lra.
    destruct (Qlt_le_dec v 45) as [Hlt|Hge]; [|lra].
    rewrite Q.min_l by lra. lra.
  - pose proof (pow2_large k Hk) as Hp.
    rewrite Q.min_r in Hv by lra.
    destruct (Qlt_le_dec v 45) as [Hlt|Hge]; [lra|].
    rewrite Q.min_r by lra. lra.
Qed.

Lemma escalated_bounds (k : nat) : (min_pause <= escalated k <= 512 # 10)%Q.
Proof.
  unfold escalated, min_pause. split; [|apply Q.le_min_r].
  apply Q.min_glb; [|lra].
  assert (1 <= 2 ^ Z.of_nat k)%Q; [|lra].
  induction k as [|k IH]; [vm_compute; discriminate|]. rewrite pow2_S. lra.
Qed.

Lemma decay_spec (p : Q) :
  (decay p == Qmax min_pause (p * (8 # 10)))%Q /\
  (min_pause <= decay p)%Q /\
  (min_pause <= p -> decay p <= p)%Q /\
  (min_pause < p -> decay p < p)%Q.
Proof.
  unfold decay, min_pause.
  destruct (Qlt_le_dec (p * (8 # 10)) (1 # 10)) as [Hlt|Hge].
  - rewrite Q.max_l by lra. splits; intros; lra.
  - rewrite Q.max_r by lra. splits; intros; lra.
Qed.

(** What holds of every reachable state: the generator has been started and
    stands at the value of its [k]-th escalation, and the pause lies between
    [min_pause] and that value. *)
Lemma reachable_invariant nrml_path key_template hc_attrib_update sites x k st :
  reachable nrml_path key_template hc_attrib_update sites x k st ->
  gen_started (pgen st) = true /\
  (gen_value (pgen st) == escalated k)%Q /\
  (min_pause <= pause st)%Q /\
  (pause st <= gen_value (pgen st))%Q.
Proof.
  induction 1 as [|k st w st' w' Hr IH E Hacc|k st w st' w' Hr IH E Hacc].
  - simpl. splits; try reflexivity; apply Qle_refl.
  - destruct IH as (Hs & Hv & Hlo & Hhi).
    apply poll_body_step in E as [[_ Hp]|[Hne _]]; [|contradiction].
    unfold next in Hp. rewrite Hs in Hp. injection Hp as Hp1 Hp2.
    rewrite Hp2, Hp1. cbn [gen_started gen_value].
    pose proof (escalated_next k _ Hv) as Hn.
    splits; [reflexivity|exact Hn| |apply Qle_refl].
    rewrite Hn. apply escalated_bounds.
  - destruct IH as (Hs & Hv & Hlo & Hhi).
    apply poll_body_step in E as [[He _]|[_ Hp]]; [contradiction|].
    injection Hp as Hp1 Hp2. rewrite Hp2, Hp1.
    destruct (decay_spec (pause st)) as (_ & Hd1 & Hd2 & _).
    splits; [exact Hs|exact Hv|exact Hd1|]. specialize (Hd2 Hlo). lra.
Qed.


(** C4 (amended): the pause starts at [min_pause = 0.1] and stays between
    [min_pause] and 90.  An iteration in which no site newly completes sets
    the pause to the next value of the generator, which is twice the
    generator's previous value while that value is below 45 and the same value
    afterwards (it is not computed from the current pause); the new pause
    is not below the old one and does not exceed 90.  An iteration with at
    least one newly completed site multiplies the pause by 0.8 and floors it at
    [min_pause], so that it strictly decreases whenever it was above
    [min_pause]. *)
Theorem pause_backoff nrml_path key_template hc_attrib_update sites x k st :
  reachable nrml_path key_template hc_attrib_update sites x k st ->
  (pause (poll_init x) == min_pause)%Q /\
  (min_pause <= pause st <= 90)%Q /\
  forall w st' w',
    poll_body nrml_path key_template hc_attrib_update sites st w = (Ok st', w') ->
    (accounted_for st' = accounted_for st ->
       (pause st' == if Qlt_le_dec (gen_value (pgen st)) 45
                     then gen_value (pgen st) * 2 else gen_value (pgen st))%Q /\
       (gen_value (pgen st') == pause st')%Q /\
       (pause st <= pause st' <= 90)%Q) /\
    (accounted_for st' <> accounted_for st ->
       (pause st' == Qmax min_pause (pause st * (8 # 10)))%Q /\
       (min_pause < pause st -> pause st' < pause st)%Q).
Proof.
  intros Hr. pose proof (reachable_invariant _ _ _ _ _ _ _ Hr) as (Hs & Hv & Hlo & Hhi).
  pose proof (escalated_bounds k) as [_ Hk].
  splits; [reflexivity|exact Hlo|lra|].
  intros w st' w' E. split; intros Hacc.
  - pose proof (reachable_idle _ _ _ _ _ _ _ _ _ _ Hr E Hacc) as Hr'.
    pose proof (reachable_invariant _ _ _ _ _ _ _ Hr') as (_ & Hv' & _ & _).
    pose proof (escalated_bounds (S k)) as [_ Hk'].
    apply poll_body_step in E as [[_ Hp]|[Hne _]]; [|contradiction].
    unfold next in Hp. rewrite Hs in Hp. injection Hp as Hp1 Hp2.
    rewrite Hp2 in Hv'. cbn [gen_value] in Hv'.
    rewrite Hp2, Hp1. cbn [gen_value].
    splits; [reflexivity|reflexivity| |rewrite Hv'; lra].
    unfold min_pause in Hlo.
    destruct (Qlt_le_dec (gen_value (pgen st)) 45); lra.
  - apply poll_body_step in E as [[He _]|[_ Hp]]; [contradiction|].
    injection Hp as Hp1 Hp2. rewrite Hp1.
    destruct (decay_spec (pause st)) as (Hd & _ & _ & Hd3). split; assumption.
Qed.

(** C9: escalation is independent of decay.  After [k] iterations without a
    newly completed site the generator stands at [min(0.1 * 2^k, 51.2)],
    whatever decays happened in between; the next such iteration sets the
    pause to [min(0.1 * 2^(k+1), 51.2)], and an iteration with completions
    leaves the generator as it is. *)
Theorem escalation_independent_of_decay nrml_path key_template hc_attrib_update
    sites x k st :
  reachable nrml_path key_template hc_attrib_update sites x k st ->
  (gen_value (pgen st) == Qmin (min_pause * 2 ^ Z.of_nat k) (512 # 10))%Q /\
  forall w st' w',
    poll_body nrml_path key_template hc_attrib_update sites st w = (Ok st', w') ->
    (accounted_for st' = accounted_for st ->
       (pause st' == Qmin (min_pause * 2 ^ Z.of_nat (S k)) (512 # 10))%Q /\
       reachable nrml_path key_template hc_attrib_update sites x (S k) st') /\
    (accounted_for st' <> accounted_for st ->
       pgen st' = pgen st /\
       reachable nrml_path key_template hc_attrib_update sites x k st').
Proof.
  intros Hr. pose proof (reachable_invariant _ _ _ _ _ _ _ Hr) as (Hs & Hv & _ & _).
  split; [exact Hv|].
  intros w st' w' E. split; intros Hacc.
  - pose proof (reachable_idle _ _ _ _ _ _ _ _ _ _ Hr E Hacc) as Hr'.
    split; [|exact Hr'].
    pose proof (reachable_invariant _ _ _ _ _ _ _ Hr') as (_ & Hv' & _ & _).
    apply poll_body_step in E as [[_ Hp]|[Hne _]]; [|contradiction].
    unfold next in Hp. rewrite Hs in Hp. injection Hp as Hp1 Hp2.
    rewrite Hp2 in Hv'. cbn [gen_value] in Hv'. rewrite Hp1. exact Hv'.
  - split; [|exact (reachable_progress _ _ _ _ _ _ _ _ _ _ Hr E Hacc)].
    apply poll_body_step in E as [[He _]|[_ Hp]]; [contradiction|].
    now injection Hp.
Qed.


(** ** release_data_from_kvs *)

(** The keys of one template, one per site. *)
Definition site_keys (template : Template) (sites : list Site) : list Key :=
  (fun site => fmt template (hash site)) <$> sites.

(** The keys handed to the successive calls of [delete], call by call. *)
Definition purge_batches (job_id : Z) (sites : list Site) (realizations : Z)
    (quantiles poes : list Q) : list (list Key) :=
  ((fun realization =>
      site_keys (hazard_curve_poes_key_template job_id realization) sites)
     <$> xrange 0 realizations) ++
  [site_keys (mean_hazard_curve_key_template job_id) sites] ++
  ((fun quantile =>
      site_keys (quantile_hazard_curve_key_template job_id (VFloat quantile)) sites ++
      concat ((fun poe =>
                 site_keys (quantile_hazard_map_key_template job_id poe quantile) sites)
                <$> poes))
     <$> quantiles) ++
  ((fun poe => site_keys (mean_hazard_map_key_template job_id poe) sites) <$> poes).

(** The world after the calls of [delete] for these batches. *)
Definition purged_world (batches : list (list Key)) (w : World) : World :=
  {| w_log := w_log w ++ (EvKvsDelete <$> batches);
     w_kvs := foldl (fun kvs keys => foldr delete kvs keys) (w_kvs w) batches;
     w_pk := w_pk w |}.

Lemma purged_world_nil w : purged_world [] w = w.
Proof. destruct w. unfold purged_world. simpl. now rewrite app_nil_r. Qed.

Lemma purged_world_app batches1 batches2 w :
  purged_world batches2 (purged_world batches1 w) = purged_world (batches1 ++ batches2) w.
Proof.
  unfold purged_world. simpl. rewrite fmap_app, foldl_app, app_assoc. reflexivity.
Qed.

Lemma extend_app purged keys1 keys2 :
  extend (extend purged keys1) keys2 = extend purged (keys1 ++ keys2).
Proof. destruct purged; simpl; [now rewrite app_assoc|reflexivity]. Qed.

Lemma extend_nil purged : extend purged [] = purged.
Proof. destruct purged; simpl; [now rewrite app_nil_r|reflexivity]. Qed.

Lemma for_fold_delete {A} (keys_of : A -> list Key) (l : list A) :
  forall purged w,
    for_fold l (fun a purged =>
                  kvs_delete (keys_of a) >> ret (extend purged (keys_of a))) purged w
    = (Ok (extend purged (concat (keys_of <$> l))), purged_world (keys_of <$> l) w).
Proof.
  induction l as [|a l IH]; intros purged w; simpl.
  - now rewrite extend_nil, purged_world_nil.
  - unfold bind at 1. unfold bind at 1. unfold kvs_delete at 1. unfold ret at 1.
    rewrite IH, extend_app. f_equal.
    unfold purged_world. simpl. now rewrite <- app_assoc.
Qed.

Lemma foldl_app_concat {A B} (f : A -> list B) (l : list A) (init : list B) :
  foldl (fun keys a => keys ++ f a) init l = init ++ concat (f <$> l).
Proof.
  revert init. induction l as [|a l IH]; intros init; simpl.
  - now rewrite app_nil_r.
  - now rewrite IH, app_assoc.
Qed.

Lemma for_fold_ext {A S} (body body' : A -> S -> M S) (l : list A) :
  (forall a st w, body a st w = body' a st w) ->
  forall st w, for_fold l body st w = for_fold l body' st w.
Proof.
  intros Hb. induction l as [|a l IH]; intros st w; simpl; [reflexivity|].
  unfold bind. rewrite Hb. destruct (body' a st w) as [[st'| |] w']; auto.
Qed.

Lemma release_data_from_kvs_run job_id sites realizations quantiles poes purged w :
  release_data_from_kvs job_id sites realizations quantiles poes purged w =
    let batches := purge_batches job_id sites realizations quantiles poes in
    (Ok (extend purged (concat batches)), purged_world batches w).
Proof.
  unfold release_data_from_kvs, purge_batches. cbv zeta.
  unfold bind at 1.
  rewrite (for_fold_delete
    (fun realization =>
       site_keys (hazard_curve_poes_key_template job_id realization) sites)).
  unfold bind at 1. unfold kvs_delete at 1. unfold bind at 1.
  rewrite (for_fold_ext _
    (fun quantile purged =>
       kvs_delete
         (site_keys (quantile_hazard_curve_key_template job_id (VFloat quantile)) sites ++
          concat ((fun poe =>
                     site_keys (quantile_hazard_map_key_template job_id poe quantile) sites)
                    <$> poes)) >>
       ret (extend purged
         (site_keys (quantile_hazard_curve_key_template job_id (VFloat quantile)) sites ++
          concat ((fun poe =>
                     site_keys (quantile_hazard_map_key_template job_id poe quantile) sites)
                    <$> poes))))).
  2:{ intros quantile st w0.
      rewrite (foldl_app_concat
        (fun poe =>
           (fun site => fmt (quantile_hazard_map_key_template job_id poe quantile) (hash site))
             <$> sites)).
      reflexivity. }
  rewrite (for_fold_delete
    (fun quantile =>
       site_keys (quantile_hazard_curve_key_template job_id (VFloat quantile)) sites ++
       concat ((fun poe =>
                  site_keys (quantile_hazard_map_key_template job_id poe quantile) sites)
                 <$> poes))).
  rewrite (for_fold_delete
    (fun poe => site_keys (mean_hazard_map_key_template job_id poe) sites)).
  rewrite !extend_app. f_equal.
  - f_equal. f_equal. rewrite !concat_app. simpl. now rewrite app_nil_r.
  - rewrite purged_world_app.
    match goal with |- purged_world _ ?w1 = _ =>
      change w1 with
        (purged_world [site_keys (mean_hazard_curve_key_template job_id) sites]
           (purged_world
              ((fun realization =>
                  site_keys (hazard_curve_poes_key_template job_id realization) sites)
                 <$> xrange 0 realizations) w))
    end.
    now rewrite !purged_world_app.
Qed.


Lemma elem_of_xrange (stop r : Z) : r ∈ xrange 0 stop <-> 0 <= r < stop.
Proof.
  unfold xrange. rewrite list_elem_of_fmap. split.
  - intros (i & -> & Hi). apply elem_of_seq in Hi. lia.
  - intros Hr. exists (Z.to_nat r). split; [lia|]. apply elem_of_seq. lia.
Qed.

Lemma lookup_foldr_delete (kvs : gmap Key value) (keys : list Key) (key : Key) :
  foldr delete kvs keys !! key = if decide (key ∈ keys) then None else kvs !! key.
Proof.
  induction keys as [|k keys IH]; simpl.
  - destruct (decide (key ∈ [])) as [Hx|_]; [inversion Hx|reflexivity].
  - destruct (decide (key = k)) as [->|Hne].
    + rewrite lookup_delete_eq. destruct (decide (k ∈ k :: keys)) as [_|Hx]; [reflexivity|].
      exfalso. apply Hx. left.
    + rewrite lookup_delete_ne by congruence. rewrite IH.
      destruct (decide (key ∈ keys)) as [Hx|Hx];
        destruct (decide (key ∈ k :: keys)) as [Hy|Hy]; try reflexivity.
      * exfalso. apply Hy. now right.
      * apply elem_of_cons in Hy as [Hy|Hy]; contradiction.
Qed.

Lemma lookup_purged (batches : list (list Key)) (kvs : gmap Key value) (key : Key) :
  foldl (fun kvs keys => foldr delete kvs keys) kvs batches !! key
  = if decide (key ∈ concat batches) then None else kvs !! key.
Proof.
  revert kvs. induction batches as [|keys batches IH]; intros kvs; simpl.
  - destruct (decide (key ∈ [])) as [Hx|_]; [inversion Hx|reflexivity].
  - rewrite IH, lookup_foldr_delete.
    destruct (decide (key ∈ concat batches)) as [Hx|Hx];
      destruct (decide (key ∈ keys)) as [Hy|Hy];
      destruct (decide (key ∈ keys ++ concat batches)) as [Hz|Hz];
      try reflexivity; exfalso;
      rewrite elem_of_app in Hz; tauto.
Qed.

(** The cache keys of a block: the curve of every realization, the mean
    curve, the curve of every quantile, the mean map of every PoE and the
    quantile map of every PoE and quantile, each for every site. *)
Definition purge_key (job_id : Z) (sites : list Site) (realizations : Z)
    (quantiles poes : list Q) (key : Key) : Prop :=
  (exists realization site,
     0 <= realization < realizations /\ site ∈ sites /\
     key = fmt (hazard_curve_poes_key_template job_id realization) (hash site)) \/
  (exists site,
     site ∈ sites /\
     key = fmt (mean_hazard_curve_key_template job_id) (hash site)) \/
  (exists quantile site,
     quantile ∈ quantiles /\ site ∈ sites /\
     key = fmt (quantile_hazard_curve_key_template job_id (VFloat quantile)) (hash site)) \/
  (exists poe site,
     poe ∈ poes /\ site ∈ sites /\
     key = fmt (mean_hazard_map_key_template job_id poe) (hash site)) \/
  (exists poe quantile site,
     poe ∈ poes /\ quantile ∈ quantiles /\ site ∈ sites /\
     key = fmt (quantile_hazard_map_key_template job_id poe quantile) (hash site)).

Lemma elem_of_site_keys template sites key :
  key ∈ site_keys template sites <-> exists site, site ∈ sites /\ key = fmt template (hash site).
Proof.
  unfold site_keys. rewrite list_elem_of_fmap. split; intros (site & H1 & H2); eauto.
Qed.

Lemma elem_of_concat_fmap {A B} (f : A -> list B) (l : list A) (y : B) :
  y ∈ concat (f <$> l) <-> exists x, x ∈ l /\ y ∈ f x.
Proof.
  induction l as [|a l IH]; simpl.
  - split; [intros Hy; inversion Hy | intros (x & Hx & _); inversion Hx].
  - rewrite elem_of_app, IH. split.
    + intros [Hy|(x & Hx & Hy)]; [exists a; split; [left|exact Hy]|].
      exists x. split; [now right|exact Hy].
    + intros (x & Hx & Hy). apply elem_of_cons in Hx as [->|Hx]; [now left|].
      right. now exists x.
Qed.

Lemma elem_of_purge_batches job_id sites realizations quantiles poes key :
  key ∈ concat (purge_batches job_id sites realizations quantiles poes)
  <-> purge_key job_id sites realizations quantiles poes key.
Proof.
  unfold purge_batches, purge_key.
  rewrite !concat_app, !elem_of_app. cbn [concat]. rewrite app_nil_r.
  rewrite !elem_of_concat_fmap, elem_of_site_keys.
  split.
  - intros [(r & Hr & Hk)|[Hk|[(q & Hq & Hk)|(p & Hp & Hk)]]].
    + apply elem_of_xrange in Hr. apply elem_of_site_keys in Hk as (site & Hs & ->).
      left. now exists r, site.
    + right. left. exact Hk.
    + apply elem_of_app in Hk as [Hk|Hk].
      * apply elem_of_site_keys in Hk as (site & Hs & ->).
        right. right. left. now exists q, site.
      * apply elem_of_concat_fmap in Hk as (p & Hp & Hk).
        apply elem_of_site_keys in Hk as (site & Hs & ->).
        right. right. right. right. now exists p, q, site.
    + apply elem_of_site_keys in Hk as (site & Hs & ->).
      right. right. right. left. now exists p, site.
  - intros [(r & site & Hr & Hs & ->)|[Hk|[(q & site & Hq & Hs & ->)
           |[(p & site & Hp & Hs & ->)|(p & q & site & Hp & Hq & Hs & ->)]]]].
    + left. exists r. split; [now apply elem_of_xrange|].
      apply elem_of_site_keys. now exists site.
    + right. left. exact Hk.
    + right. right. left. exists q. split; [exact Hq|].
      apply elem_of_app. left. apply elem_of_site_keys. now exists site.
    + right. right. right. exists p. split; [exact Hp|].
      apply elem_of_site_keys. now exists site.
    + right. right. left. exists q. split; [exact Hq|].
      apply elem_of_app. right. apply elem_of_concat_fmap.
      exists p. split; [exact Hp|]. apply elem_of_site_keys. now exists site.
Qed.

(** C6: for every job, list of sites, number of realizations, list of
    quantiles and list of PoEs, [release_data_from_kvs] returns normally and
    the keys it deletes are exactly those of the realization curves, the mean
    curve, the quantile curves, the mean maps and the quantile maps of the
    sites.  When it returns every one of these keys is absent from the cache,
    and no other key has been touched. *)
Theorem release_data_from_kvs_purges job_id sites realizations quantiles poes purged w :
  let run := release_data_from_kvs job_id sites realizations quantiles poes purged w in
  exists batches,
    fst run = Ok (extend purged (concat batches)) /\
    w_log (snd run) = w_log w ++ (EvKvsDelete <$> batches) /\
    (forall key, key ∈ concat batches <->
                 purge_key job_id sites realizations quantiles poes key) /\
    (forall key, purge_key job_id sites realizations quantiles poes key ->
                 w_kvs (snd run) !! key = None) /\
    (forall key, ~ purge_key job_id sites realizations quantiles poes key ->
                 w_kvs (snd run) !! key = w_kvs w !! key).
Proof.
  intros run. subst run. rewrite release_data_from_kvs_run. cbv zeta.
  exists (purge_batches job_id sites realizations quantiles poes).
  cbn [fst snd purged_world w_log w_kvs]. splits; try reflexivity.
  - apply elem_of_purge_batches.
  - intros key Hk%elem_of_purge_batches. rewrite lookup_purged.
    destruct (decide _); [reflexivity|contradiction].
  - intros key Hk. rewrite lookup_purged.
    destruct (decide _) as [Hx|]; [|reflexivity].
    apply elem_of_purge_batches in Hx. contradiction.
Qed.


(** ** Which events a computation can log *)

(** [only P m]: whatever [m] does, it leaves the log it found in place and
    appends events that satisfy [P]. *)
Definition only (P : Event -> bool) {A} (m : M A) : Prop :=
  forall w, exists evs, w_log (snd (m w)) = w_log w ++ evs /\ forallb P evs = true.

Lemma only_ret P {A} (a : A) : only P (ret a).
Proof. intros w. exists []. simpl. now rewrite app_nil_r. Qed.

Lemma only_raise P {A} (e : exn) : only P (raise (A := A) e).
Proof. intros w. exists []. simpl. now rewrite app_nil_r. Qed.

Lemma only_out_of_fuel P {A} : only P (out_of_fuel (A := A)).
Proof. intros w. exists []. simpl. now rewrite app_nil_r. Qed.

Lemma only_bind P {A B} (m : M A) (k : A -> M B) :
  only P m -> (forall a, only P (k a)) -> only P (bind m k).
Proof.
  intros Hm Hk w. destruct (Hm w) as (evs & Hlog & Hp). unfold bind.
  destruct (m w) as [[a|e|] w1]; simpl in Hlog; [|now exists evs..].
  destruct (Hk a w1) as (evs' & Hlog' & Hp').
  exists (evs ++ evs'). rewrite Hlog', Hlog, <- app_assoc. split; [reflexivity|].
  rewrite forallb_app. now rewrite Hp, Hp'.
Qed.

Lemma only_weaken (P P' : Event -> bool) {A} (m : M A) :
  (forall ev, P ev = true -> P' ev = true) -> only P m -> only P' m.
Proof.
  intros Hpq Hm w. destruct (Hm w) as (evs & Hlog & Hp).
  exists evs. split; [exact Hlog|].
  apply forallb_forall. intros ev Hev. apply Hpq.
  rewrite forallb_forall in Hp. now apply Hp.
Qed.

Lemma only_one P {A} (m : M A) :
  (forall w, exists ev, w_log (snd (m w)) = w_log w ++ [ev] /\ P ev = true) ->
  only P m.
Proof.
  intros Hm w. destruct (Hm w) as (ev & Hlog & Hp).
  exists [ev]. split; [exact Hlog|]. simpl. now rewrite Hp.
Qed.

Lemma only_for_fold P {A S} (l : list A) (body : A -> S -> M S) :
  (forall a st, only P (body a st)) -> forall st, only P (for_fold l body st).
Proof.
  intros Hb. induction l as [|a l IH]; intros st; simpl.
  - apply only_ret.
  - apply only_bind; [apply Hb | intros st'; apply IH].
Qed.

Lemma only_for_ P {A} (l : list A) (body : A -> M unit) :
  (forall a, only P (body a)) -> only P (for_ l body).
Proof.
  intros Hb. induction l as [|a l IH]; simpl.
  - apply only_ret.
  - apply only_bind; [apply Hb | intros _; apply IH].
Qed.

(** The phases of a block, as the log shows them: the three debug lines of
    [execute] and the deletions of the purge. *)
Inductive Phase :=
| Curves
| Means
| Quantiles
| Purge (keys : list Key).

Definition phase_marker (msg : string) : option Phase :=
  if String.eqb msg "> curves!" then Some Curves
  else if String.eqb msg "> means!" then Some Means
  else if String.eqb msg "> quantiles!" then Some Quantiles
  else None.

Definition phase_of (ev : Event) : option Phase :=
  match ev with
  | EvLog msg _ => phase_marker msg
  | EvKvsDelete keys => Some (Purge keys)
  | _ => None
  end.

Definition phases (evs : list Event) : list Phase := omap phase_of evs.

(** The events of everything but the phase markers, the purge and the storing
    of the seeds. *)
Definition plain_event (ev : Event) : bool :=
  match ev with
  | EvKvsDelete _ | EvStoreSourceModel _ | EvStoreGmpeMap _ => false
  | EvLog msg _ => match phase_marker msg with None => true | Some _ => false end
  | _ => true
  end.

Ltac only_event := apply only_one; intros ?w; eexists; split; [reflexivity|reflexivity].

Ltac only_step :=
  first
    [ apply only_ret
    | apply only_raise
    | apply only_out_of_fuel
    | apply only_bind; [|intros ?]
    | apply only_for_fold; intros ? ?
    | apply only_for_; intros ?
    | only_event ].

Lemma only_check_exception P results : only P (_check_exception results).
Proof.
  induction results as [|v results IH]; simpl; [apply only_ret|].
  destruct v; try exact IH. apply only_raise.
Qed.

Lemma only_chain P results : only P (chain results).
Proof.
  induction results as [|v results IH]; simpl; [apply only_ret|].
  destruct (iter_value v); [|apply only_raise].
  apply only_bind; [exact IH|intros rest; apply only_ret].
Qed.

Lemma only_distribute task_func name data tf_args ath ath_args flatten_results :
  (forall f kw, ath = Some f -> only plain_event (f kw)) ->
  only plain_event
    (distribute task_func name data tf_args ath ath_args flatten_results).
Proof.
  intros Hath. unfold distribute, apply_async, join_native.
  repeat only_step.
  destruct (ignore_result task_func).
  - destruct ath as [f|]; [|apply only_ret].
    destruct (truthy ath_args); now apply Hath.
  - repeat only_step; [apply only_check_exception|].
    match goal with |- only _ (match ?l with _ => _ end) => destruct l as [|sample ?] end;
      [apply only_ret|].
    destruct (flatten_results && is_list_tuple_set sample);
      [apply only_chain|apply only_ret].
Qed.

Lemma only_scan_site key_template hc_attrib_update site sc :
  only plain_event (scan_site key_template hc_attrib_update site sc).
Proof.
  unfold scan_site. destruct (decide _); [apply only_ret|].
  repeat only_step. match goal with a : option value |- _ => destruct a end;
    apply only_ret.
Qed.

Lemma only_poll_body nrml_path key_template hc_attrib_update sites st :
  only plain_event (poll_body nrml_path key_template hc_attrib_update sites st).
Proof.
  unfold poll_body. only_step; [only_event|].
  destruct (bool_decide _); [|apply only_raise].
  only_step; [only_event|]. only_step; [apply only_for_fold, only_scan_site|].
  destruct (_ =? 0).
  - destruct (next (pgen st)). apply only_ret.
  - repeat only_step.
Qed.

Lemma only_poll_loop nrml_path key_template hc_attrib_update sites fuel :
  forall st,
    only plain_event (poll_loop fuel nrml_path key_template hc_attrib_update sites st).
Proof.
  induction fuel as [|fuel IH]; intros st; simpl; destruct (decide _);
    try apply only_ret; [apply only_out_of_fuel|].
  apply only_bind; [apply only_poll_body|exact IH].
Qed.

Lemma only_serialize_hazard_curve fuel nrml_file key_template hc_attrib_update sites :
  only plain_event
    (serialize_hazard_curve fuel nrml_file key_template hc_attrib_update sites).
Proof.
  unfold serialize_hazard_curve. repeat only_step. apply only_poll_loop.
Qed.


Lemma only_serialize_hazard_curve_of_realization fuel sites realization :
  only plain_event (serialize_hazard_curve_of_realization fuel sites realization).
Proof.
  unfold serialize_hazard_curve_of_realization.
  only_step; [apply only_serialize_hazard_curve|apply only_ret].
Qed.

Lemma only_serialize_mean_hazard_curves fuel sites :
  only plain_event (serialize_mean_hazard_curves fuel sites).
Proof.
  unfold serialize_mean_hazard_curves.
  only_step; [apply only_serialize_hazard_curve|apply only_ret].
Qed.

Lemma only_serialize_quantile_hazard_curves fuel sites quantiles :
  only plain_event (serialize_quantile_hazard_curves fuel sites quantiles).
Proof.
  unfold serialize_quantile_hazard_curves. apply only_for_. intros quantile.
  only_step; [apply only_serialize_hazard_curve|apply only_ret].
Qed.

Lemma only_serialize_hazard_map_at_poe sites poe key_template hm_attrib_update nrml_file :
  only plain_event
    (serialize_hazard_map_at_poe sites poe key_template hm_attrib_update nrml_file).
Proof. unfold serialize_hazard_map_at_poe. repeat only_step. Qed.

Lemma only_ath_hazard_curve_of_realization fuel kw :
  only plain_event (ath_hazard_curve_of_realization fuel kw).
Proof.
  unfold ath_hazard_curve_of_realization.
  destruct (arg_sites kw); [|apply only_raise].
  destruct (kw !! "realization") as [[]|]; try apply only_raise.
  only_step; [apply only_serialize_hazard_curve_of_realization|apply only_ret].
Qed.

Lemma only_ath_mean_hazard_curves fuel kw :
  only plain_event (ath_mean_hazard_curves fuel kw).
Proof.
  unfold ath_mean_hazard_curves.
  destruct (arg_sites kw); [|apply only_raise].
  only_step; [apply only_serialize_mean_hazard_curves|apply only_ret].
Qed.

Lemma only_ath_quantile_hazard_curves fuel kw :
  only plain_event (ath_quantile_hazard_curves fuel kw).
Proof.
  unfold ath_quantile_hazard_curves.
  destruct (arg_sites kw); [|apply only_raise].
  destruct (arg_quantiles kw); [|apply only_raise].
  only_step; [apply only_serialize_quantile_hazard_curves|apply only_ret].
Qed.

Lemma only_do_means fuel sites realizations :
  only plain_event
    (do_means sites realizations (Some (ath_mean_hazard_curves fuel))
       compute_mean_curves (Some compute_mean_hazard_maps)
       (Some serialize_mean_hazard_map)).
Proof.
  unfold do_means. destruct (negb _); [apply only_ret|].
  only_step; [only_event|]. only_step.
  - apply only_distribute. intros f kw [= <-]. apply only_ath_mean_hazard_curves.
  - destruct (poes_hazard_maps job_ctxt); [apply only_ret|].
    unfold compute_mean_hazard_maps. repeat only_step.
Qed.

Lemma only_do_quantiles fuel sites realizations quantiles :
  only plain_event
    (do_quantiles sites realizations quantiles (Some (ath_quantile_hazard_curves fuel))
       compute_quantile_curves (Some compute_quantile_hazard_maps)
       (Some serialize_quantile_hazard_map)).
Proof.
  unfold do_quantiles. destruct quantiles as [|q quantiles]; [apply only_ret|].
  only_step; [only_event|]. only_step.
  - apply only_distribute. intros f kw [= <-]. apply only_ath_quantile_hazard_curves.
  - destruct (poes_hazard_maps job_ctxt); [apply only_ret|].
    unfold compute_quantile_hazard_maps. repeat only_step.
Qed.

(** An event that shows no phase. *)
Definition no_phase (ev : Event) : bool :=
  match phase_of ev with
  | None => true
  | Some _ => false
  end.

Lemma plain_no_phase ev : plain_event ev = true -> no_phase ev = true.
Proof.
  unfold no_phase. destruct ev; simpl; try reflexivity; try discriminate.
  now destruct (phase_marker msg).
Qed.

Lemma only_do_curves fuel sites realizations :
  only no_phase
    (do_curves sites realizations (Some (ath_hazard_curve_of_realization fuel))
       compute_hazard_curve).
Proof.
  unfold do_curves. only_step; [only_event|].
  only_step; [|apply only_ret].
  apply only_for_fold. intros realization [g gg].
  only_step; [only_event|]. only_step; [only_event|].
  destruct (getrandbits g 32) as [bits g1].
  unfold store_source_model, store_gmpe_map. only_step; [only_event|].
  destruct (getrandbits g1 32) as [bits' g2]. only_step; [only_event|].
  only_step; [|apply only_ret].
  apply (only_weaken plain_event); [exact plain_no_phase|].
  apply only_distribute. intros f kw [= <-]. apply only_ath_hazard_curve_of_realization.
Qed.


(** ** do_curves: the seeds *)

(** The seeds [do_curves] stores, realization by realization: two successive
    32-bit draws from the generator [g]. *)
Fixpoint realization_seeds (g : Rng) (n : nat) : list (Z * Z) :=
  match n with
  | O => []
  | S n' =>
      let '(source_model_seed, g) := getrandbits g 32 in
      let '(gmpe_seed, g) := getrandbits g 32 in
      (source_model_seed, gmpe_seed) :: realization_seeds g n'
  end.

(** The seeds handed to [store_source_model], and those handed to
    [store_gmpe_map], in order. *)
Definition source_model_seeds (evs : list Event) : list Z :=
  omap (fun ev => match ev with EvStoreSourceModel seed => Some seed | _ => None end) evs.

Definition gmpe_seeds (evs : list Event) : list Z :=
  omap (fun ev => match ev with EvStoreGmpeMap seed => Some seed | _ => None end) evs.

Lemma seeds_of_plain evs :
  forallb plain_event evs = true ->
  source_model_seeds evs = [] /\ gmpe_seeds evs = [].
Proof.
  induction evs as [|ev evs IH]; [now split|]. simpl.
  intros [Hev Hevs]%andb_prop. destruct (IH Hevs) as [H1 H2].
  unfold source_model_seeds, gmpe_seeds in *. simpl.
  destruct ev; try discriminate; simpl; now rewrite ?H1, ?H2.
Qed.

Lemma do_curves_seeds sites realizations serializer the_task w :
  (forall f kw, serializer = Some f -> only plain_event (f kw)) ->
  let seeds :=
    realization_seeds (rng_seed (SOURCE_MODEL_LT_RANDOM_SEED job_ctxt))
      (Z.to_nat realizations) in
  exists r w' evs,
    do_curves sites realizations serializer the_task w = (r, w') /\
    w_log w' = w_log w ++ evs /\
    source_model_seeds evs `prefix_of` seeds.*1 /\
    gmpe_seeds evs `prefix_of` seeds.*2 /\
    (r = Ok tt -> source_model_seeds evs = seeds.*1 /\ gmpe_seeds evs = seeds.*2).
Proof.
  intros Hser seeds. unfold do_curves.
  unfold bind at 1. unfold pk_set at 1. cbv beta iota.
  match goal with |- context [for_fold _ ?b _] => remember b as body eqn:Hbody end.
  unfold bind at 1.
  assert (Hloop : forall l g gg w0,
    exists r w' evs,
      for_fold l body (g, gg) w0 = (r, w') /\
      w_log w' = w_log w0 ++ evs /\
      source_model_seeds evs `prefix_of` (realization_seeds g (length l)).*1 /\
      gmpe_seeds evs `prefix_of` (realization_seeds g (length l)).*2 /\
      (forall st, r = Ok st ->
       source_model_seeds evs = (realization_seeds g (length l)).*1 /\
       gmpe_seeds evs = (realization_seeds g (length l)).*2)).
  { induction l as [|realization l IH]; intros g gg w0.
    - exists (Ok (g, gg)), w0, []. simpl. rewrite app_nil_r. splits; auto.
    - simpl for_fold. simpl length. simpl realization_seeds.
      unfold bind at 1.
      pose proof (f_equal (fun b => b realization (g, gg) w0) Hbody) as Hb.
      cbv beta iota in Hb. rewrite Hb. clear Hb.
      unfold bind at 1. unfold pk_inc at 1. cbv beta iota.
      unfold bind at 1. unfold emit at 1. cbv beta iota.
      destruct (getrandbits g 32) as [b1 g1].
      unfold bind at 1. unfold store_source_model, emit at 1. cbv beta iota.
      destruct (getrandbits g1 32) as [b2 g2].
      unfold bind at 1. unfold store_gmpe_map, emit at 1. cbv beta iota.
      unfold bind at 1.
      match goal with |- context [distribute ?a ?b ?c ?d ?e ?f ?g ?w1] =>
        destruct (only_distribute a b c d e f g Hser w1) as (evd & Hd & Hp);
        destruct (distribute a b c d e f g w1) as [[v|e0|] w2] eqn:Ed
      end; cbn [fst snd w_log] in Hd |- *;
      destruct (seeds_of_plain _ Hp) as [Hs1 Hs2].
      + unfold ret at 1. cbv beta iota.
        destruct (IH g2 gg w2) as (r & w' & evs & E & Hlog & Hp1 & Hp2 & Hok).
        exists r, w',
          ([EvPkInc (job_id job_ctxt) "hcls_crealization";
            EvLog "Calculating hazard curves for realization %s" [realization];
            EvStoreSourceModel b1; EvStoreGmpeMap b2] ++ evd ++ evs).
        splits.
        * exact E.
        * rewrite Hlog, Hd. now rewrite <- !app_assoc.
        * unfold source_model_seeds in *. rewrite !omap_app, Hs1. simpl.
          now apply prefix_cons.
        * unfold gmpe_seeds in *. rewrite !omap_app, Hs2. simpl.
          now apply prefix_cons.
        * intros st Hst. destruct (Hok st Hst) as [H1 H2].
          unfold source_model_seeds, gmpe_seeds in *.
          rewrite !omap_app, Hs1, Hs2. simpl. now rewrite H1, H2.
      + eexists _, _,
          ([EvPkInc (job_id job_ctxt) "hcls_crealization";
            EvLog "Calculating hazard curves for realization %s" [realization];
            EvStoreSourceModel b1; EvStoreGmpeMap b2] ++ evd).
        splits.
        * reflexivity.
        * rewrite Hd. now rewrite <- !app_assoc.
        * unfold source_model_seeds in *. rewrite !omap_app, Hs1. simpl.
          apply prefix_cons, prefix_nil.
        * unfold gmpe_seeds in *. rewrite !omap_app, Hs2. simpl.
          apply prefix_cons, prefix_nil.
        * discriminate.
      + eexists _, _,
          ([EvPkInc (job_id job_ctxt) "hcls_crealization";
            EvLog "Calculating hazard curves for realization %s" [realization];
            EvStoreSourceModel b1; EvStoreGmpeMap b2] ++ evd).
        splits.
        * reflexivity.
        * rewrite Hd. now rewrite <- !app_assoc.
        * unfold source_model_seeds in *. rewrite !omap_app, Hs1. simpl.
          apply prefix_cons, prefix_nil.
        * unfold gmpe_seeds in *. rewrite !omap_app, Hs2. simpl.
          apply prefix_cons, prefix_nil.
        * discriminate. }
  match goal with |- context [for_fold ?l body (?g, ?gg) ?w0] =>
    destruct (Hloop l g gg w0) as (r & w' & evs & E & Hlog & Hp1 & Hp2 & Hok);
    assert (Hlen : length l = Z.to_nat realizations)
      by (unfold xrange; rewrite length_fmap, length_seq; f_equal; lia);
    rewrite Hlen in *; rewrite E
  end.
  cbn [w_log] in Hlog.
  destruct r as [st|e0|]; eexists _, _, (EvPkSet (job_id job_ctxt) "hcls_crealization" 0 :: evs);
    (splits; [reflexivity | rewrite Hlog; now rewrite <- app_assoc
             | exact Hp1 | exact Hp2 | ]).
  - intros _. exact (Hok st eq_refl).
  - discriminate.
  - discriminate.
Qed.


(** What was logged between the world [w] and the later world [w']. *)
Definition new_events (w w' : World) : list Event :=
  drop (length (w_log w)) (w_log w').

Lemma new_events_app w w' evs : w_log w' = w_log w ++ evs -> new_events w w' = evs.
Proof. intros E. unfold new_events. rewrite E. apply drop_app_length. Qed.

Lemma prefix_lookup_agree {A} (l1 l2 l : list A) i x y :
  l1 `prefix_of` l -> l2 `prefix_of` l ->
  l1 !! i = Some x -> l2 !! i = Some y -> x = y.
Proof.
  intros H1 H2 Hx Hy.
  apply (prefix_lookup_Some _ _ _ _ Hx) in H1.
  apply (prefix_lookup_Some _ _ _ _ Hy) in H2. congruence.
Qed.

(** C10: [do_curves] seeds its generators anew from the seeds of the job at
    every call, so the seeds it stores are the same at every call: for any
    block and any state of the world the source-model seeds and the
    ground-motion-model seeds it stores are the leading ones of one list that
    is computed from the seed of the job alone, all of them when the call
    returns; hence two calls, for any two blocks, store the same pair of seeds
    for the same realization. *)
Theorem do_curves_seeds_same_in_every_block fuel realizations :
  let seeds :=
    realization_seeds (rng_seed (SOURCE_MODEL_LT_RANDOM_SEED job_ctxt))
      (Z.to_nat realizations) in
  let run data w :=
    do_curves data realizations (Some (ath_hazard_curve_of_realization fuel))
      compute_hazard_curve w in
  let stored data w := new_events w (snd (run data w)) in
  (forall data w,
     source_model_seeds (stored data w) `prefix_of` seeds.*1 /\
     gmpe_seeds (stored data w) `prefix_of` seeds.*2 /\
     (fst (run data w) = Ok tt ->
      source_model_seeds (stored data w) = seeds.*1 /\
      gmpe_seeds (stored data w) = seeds.*2)) /\
  (forall data1 w1 data2 w2 (r : nat) s1 s2,
     source_model_seeds (stored data1 w1) !! r = Some s1 ->
     source_model_seeds (stored data2 w2) !! r = Some s2 ->
     s1 = s2) /\
  (forall data1 w1 data2 w2 (r : nat) s1 s2,
     gmpe_seeds (stored data1 w1) !! r = Some s1 ->
     gmpe_seeds (stored data2 w2) !! r = Some s2 ->
     s1 = s2).
Proof.
  intros seeds run stored.
  assert (Hrun : forall data w,
     source_model_seeds (stored data w) `prefix_of` seeds.*1 /\
     gmpe_seeds (stored data w) `prefix_of` seeds.*2 /\
     (fst (run data w) = Ok tt ->
      source_model_seeds (stored data w) = seeds.*1 /\
      gmpe_seeds (stored data w) = seeds.*2)).
  { intros data w. subst stored run. cbv beta.
    destruct (do_curves_seeds data realizations
                (Some (ath_hazard_curve_of_realization fuel)) compute_hazard_curve w)
      as (r & w' & evs & E & Hlog & Hp1 & Hp2 & Hok).
    { intros f kw [= <-]. apply only_ath_hazard_curve_of_realization. }
    rewrite E. cbn [fst snd]. rewrite (new_events_app _ _ _ Hlog). auto. }
  splits; [exact Hrun| |].
  - intros data1 w1 data2 w2 r s1 s2 H1 H2.
    destruct (Hrun data1 w1) as (P1 & _ & _), (Hrun data2 w2) as (P2 & _ & _).
    exact (prefix_lookup_agree _ _ _ _ _ _ P1 P2 H1 H2).
  - intros data1 w1 data2 w2 r s1 s2 H1 H2.
    destruct (Hrun data1 w1) as (_ & P1 & _), (Hrun data2 w2) as (_ & P2 & _).
    exact (prefix_lookup_agree _ _ _ _ _ _ P1 P2 H1 H2).
Qed.


(** ** execute: the blocks *)

(** The starts of the blocks ([range(0, len(sites), block_size)] for a
    positive block size) and the slices of the site list they stand for. *)
Definition block_starts (n block_size : Z) : list Z :=
  (fun i => 0 + Z.of_nat i * block_size)
    <$> seq 0 (Z.to_nat ((n - 0 + block_size - 1) / block_size)).

Definition block_slices (sites : list Site) (block_size : Z) : list (list Site) :=
  (fun start => slice sites start (start + block_size))
    <$> block_starts (len sites) block_size.

Lemma range_positive_step (stop step : Z) :
  0 < step -> range 0 stop step = ret (block_starts stop step).
Proof.
  intros Hs. unfold range, block_starts.
  destruct (step =? 0) eqn:E0; [apply Z.eqb_eq in E0; lia|].
  destruct (0 <? step) eqn:E1; [reflexivity|]. apply Z.ltb_ge in E1. lia.
Qed.

Lemma slice_take_drop {A} (l : list A) (start stop : Z) :
  0 <= start <= stop ->
  slice l start stop = take (Z.to_nat (stop - start)) (drop (Z.to_nat start) l).
Proof.
  intros Hs. unfold slice, slice_index, len.
  destruct (start <? 0) eqn:E1; [apply Z.ltb_lt in E1; lia|].
  destruct (stop <? 0) eqn:E2; [apply Z.ltb_lt in E2; lia|].
  destruct (Z_le_gt_dec stop (Z.of_nat (length l))) as [Hle|Hgt].
  - rewrite !Z.min_l by lia. reflexivity.
  - rewrite (Z.min_r stop) by lia.
    destruct (Z_le_gt_dec start (Z.of_nat (length l))) as [Hle'|Hgt'].
    + rewrite Z.min_l by lia.
      rewrite !take_ge; [reflexivity| |]; rewrite length_drop; lia.
    + rewrite Z.min_r by lia.
      rewrite !drop_ge by lia. now rewrite !take_nil.
Qed.

Lemma concat_blocks {A} (l : list A) (b n : nat) :
  concat ((fun i => take b (drop (i * b) l)) <$> seq 0 n) = take (n * b) l.
Proof.
  induction n as [|n IH]; [reflexivity|].
  rewrite seq_S, fmap_app, concat_app, IH. simpl. rewrite app_nil_r.
  rewrite take_take_drop. f_equal. lia.
Qed.

Lemma block_count (n b : Z) :
  0 < b -> 0 <= n ->
  let q := (n - 0 + b - 1) / b in
  0 <= q /\ n <= q * b /\ (q - 1) * b < n \/ q = 0 /\ n = 0.
Proof.
  intros Hb Hn q. subst q. replace (n - 0 + b - 1) with (n + b - 1) by lia.
  pose proof (Z.div_mod (n + b - 1) b ltac:(lia)) as Hdm.
  pose proof (Z.mod_pos_bound (n + b - 1) b Hb) as Hm.
  left. splits; nia.
Qed.

Lemma block_slices_lookup (sites : list Site) (block_size : Z) (i : nat) data :
  0 < block_size ->
  block_slices sites block_size !! i = Some data ->
  data = take (Z.to_nat block_size) (drop (i * Z.to_nat block_size) sites) /\
  (i < Z.to_nat ((len sites - 0 + block_size - 1) / block_size))%nat.
Proof.
  intros Hb. unfold block_slices, block_starts.
  rewrite !list_lookup_fmap.
  destruct (decide (i < Z.to_nat ((len sites - 0 + block_size - 1) / block_size))%nat)
    as [Hi|Hi].
  - rewrite lookup_seq_lt by exact Hi. simpl. intros [= <-]. split; [|exact Hi].
    rewrite slice_take_drop by lia. f_equal; [f_equal; lia|f_equal; lia].
  - rewrite lookup_seq_ge by lia. discriminate.
Qed.

(** The slices are the site list cut, in order, into pieces of [block_size]
    sites; only the last piece may be shorter, and none is empty. *)
Lemma block_slices_partition (sites : list Site) (block_size : Z) :
  0 < block_size ->
  concat (block_slices sites block_size) = sites /\
  forall (i : nat) data,
    block_slices sites block_size !! i = Some data ->
    data = take (Z.to_nat block_size) (drop (i * Z.to_nat block_size) sites) /\
    data <> [] /\
    (length data <= Z.to_nat block_size)%nat /\
    (S i < length (block_slices sites block_size) ->
     length data = Z.to_nat block_size)%nat.
Proof.
  intros Hb.
  pose proof (block_count (len sites) block_size Hb ltac:(unfold len; lia)) as Hq.
  cbv zeta in Hq.
  set (q := (len sites - 0 + block_size - 1) / block_size) in *.
  assert (Hlen : length (block_slices sites block_size) = Z.to_nat q).
  { unfold block_slices, block_starts. now rewrite !length_fmap, length_seq. }
  split.
  - assert (E : block_slices sites block_size
                = (fun i => take (Z.to_nat block_size)
                              (drop (i * Z.to_nat block_size) sites))
                    <$> seq 0 (Z.to_nat q)).
    { apply list_eq. intros i. rewrite list_lookup_fmap.
      destruct (block_slices sites block_size !! i) as [data|] eqn:Ei.
      - apply block_slices_lookup in Ei as [-> Hi]; [|exact Hb].
        fold q in Hi. now rewrite lookup_seq_lt.
      - apply lookup_ge_None in Ei. rewrite Hlen in Ei.
        now rewrite lookup_seq_ge. }
    rewrite E, concat_blocks. apply take_ge. unfold len in *. nia.
  - intros i data Ei. apply block_slices_lookup in Ei as [-> Hi]; [|exact Hb].
    fold q in Hi. split; [reflexivity|].
    assert (Hlt : (i * Z.to_nat block_size < length sites)%nat).
    { unfold len in *. nia. }
    splits.
    + intros Hnil. apply (f_equal length) in Hnil.
      rewrite length_take, length_drop in Hnil. simpl in Hnil. lia.
    + rewrite length_take. lia.
    + rewrite Hlen. intros Hi'. rewrite length_take, length_drop.
      unfold len in *. nia.
Qed.


(** ** execute: the phases *)

Lemma forallb_weaken {A} (P P' : A -> bool) (l : list A) :
  (forall x, P x = true -> P' x = true) -> forallb P l = true -> forallb P' l = true.
Proof.
  intros Hpq. rewrite !forallb_forall. intros Hp x Hx. now apply Hpq, Hp.
Qed.

Lemma phases_app evs1 evs2 : phases (evs1 ++ evs2) = phases evs1 ++ phases evs2.
Proof. apply omap_app. Qed.

Lemma phases_silent evs : forallb no_phase evs = true -> phases evs = [].
Proof.
  induction evs as [|ev evs IH]; [reflexivity|]. simpl.
  intros [Hev Hevs]%andb_prop. specialize (IH Hevs).
  unfold phases in *. cbn [omap list_omap]. rewrite IH.
  unfold no_phase in Hev. now destruct (phase_of ev).
Qed.

Lemma phases_deletes (batches : list (list Key)) :
  phases (EvKvsDelete <$> batches) = Purge <$> batches.
Proof.
  induction batches as [|keys batches IH]; [reflexivity|].
  change (phases (EvKvsDelete <$> keys :: batches))
    with (Purge keys :: phases (EvKvsDelete <$> batches)).
  now rewrite IH.
Qed.

(** What the log shows of a block that is processed to its end. *)
Definition block_schedule (data : list Site) (realizations : Z) : list Phase :=
  [Curves; Means; Quantiles] ++
  (Purge <$> purge_batches (job_id job_ctxt) data realizations
               (quantile_levels job_ctxt) (poes_hazard_maps job_ctxt)).

(** A block runs its phases in the order curves, means, quantiles, purge.
    When a phase does not return, the block ends there and nothing of it is
    purged. *)
Lemma execute_block_phases fuel data realizations purged w :
  exists r w' evs,
    execute_block fuel data realizations purged w = (r, w') /\
    w_log w' = w_log w ++ evs /\
    ((exists purged', r = Ok purged') /\
     phases evs = block_schedule data realizations \/
     (forall purged', r <> Ok purged') /\
     exists n, (1 <= n <= 3)%nat /\ phases evs = take n [Curves; Means; Quantiles]).
Proof.
  unfold execute_block.
  unfold bind at 1. unfold emit at 1. cbv beta iota.
  unfold bind at 1.
  match goal with |- context [do_curves ?a ?b ?c ?d ?w1] =>
    destruct (only_do_curves fuel a b w1) as (evc & Hc & Hpc);
    destruct (do_curves a b c d w1) as [[[]|e|] w2]
  end; cbn [fst snd w_log] in Hc; apply phases_silent in Hpc.
  2,3: eexists _, _, ([EvLog "> curves!" []] ++ evc);
       (splits; [reflexivity|rewrite Hc; now rewrite <- app_assoc|]);
       right; (split; [discriminate|]); exists 1%nat;
       (split; [lia|]); rewrite phases_app, Hpc; reflexivity.
  unfold bind at 1. unfold emit at 1. cbv beta iota.
  unfold bind at 1.
  match goal with |- context [do_means ?a ?b ?c ?d ?e ?f ?w1] =>
    destruct (only_do_means fuel a b w1) as (evm & Hm & Hpm);
    destruct (do_means a b c d e f w1) as [[[]|e0|] w3]
  end; cbn [fst snd w_log] in Hm;
    apply (forallb_weaken _ _ _ plain_no_phase), phases_silent in Hpm.
  2,3: eexists _, _, ([EvLog "> curves!" []] ++ evc ++ [EvLog "> means!" []] ++ evm);
       (splits; [reflexivity|rewrite Hm, Hc; now rewrite <- !app_assoc|]);
       right; (split; [discriminate|]); exists 2%nat;
       (split; [lia|]); rewrite !phases_app, Hpc, Hpm; reflexivity.
  unfold bind at 1. unfold emit at 1. cbv beta iota.
  unfold bind at 1.
  match goal with |- context [do_quantiles ?a ?b ?q ?c ?d ?e ?f ?w1] =>
    destruct (only_do_quantiles fuel a b q w1) as (evq & Hq & Hpq);
    destruct (do_quantiles a b q c d e f w1) as [[[]|e0|] w4]
  end; cbn [fst snd w_log] in Hq;
    apply (forallb_weaken _ _ _ plain_no_phase), phases_silent in Hpq.
  2,3: eexists _, _, ([EvLog "> curves!" []] ++ evc ++ [EvLog "> means!" []] ++ evm
                        ++ [EvLog "> quantiles!" []] ++ evq);
       (splits; [reflexivity|rewrite Hq, Hm, Hc; now rewrite <- !app_assoc|]);
       right; (split; [discriminate|]); exists 3%nat;
       (split; [lia|]); rewrite !phases_app, Hpc, Hpm, Hpq; reflexivity.
  rewrite release_data_from_kvs_run. cbv zeta.
  eexists _, _, ([EvLog "> curves!" []] ++ evc ++ [EvLog "> means!" []] ++ evm
                   ++ [EvLog "> quantiles!" []] ++ evq
                   ++ (EvKvsDelete <$> purge_batches (job_id job_ctxt) data realizations
                         (quantile_levels job_ctxt) (poes_hazard_maps job_ctxt))).
  splits; [reflexivity| |].
  - cbn [purged_world w_log]. rewrite Hq, Hm, Hc. now rewrite <- !app_assoc.
  - left. split; [eauto|].
    rewrite !phases_app, Hpc, Hpm, Hpq, phases_deletes. reflexivity.
Qed.


(** The body of the loop over the blocks, on the slice of a block. *)
Definition block_body (fuel : nat) (realizations : Z) (data : list Site)
    (kvs_keys_purged : option (list Key)) : M (option (list Key)) :=
  pk_inc (job_id job_ctxt) "cblock" >>
  execute_block fuel data realizations kvs_keys_purged.

(** What [execute] does before the first block. *)
Definition execute_prologue : M unit :=
  let sites := sites_to_compute job_ctxt in
  let realizations := NUMBER_OF_LOGIC_TREE_SAMPLES job_ctxt in
  let block_size := hazard_block_size job_ctxt in
  emit (EvLog "Going to run classical PSHA hazard for %s realizations and %s sites"
          [realizations; len sites]) >>
  pk_set (job_id job_ctxt) "hcls_sites" (len sites) >>
  pk_set (job_id job_ctxt) "hcls_realizations" realizations >>
  pk_set (job_id job_ctxt) "block_size" block_size >>
  pk_set (job_id job_ctxt) "blocks" (len (block_starts (len sites) block_size)) >>
  pk_set (job_id job_ctxt) "cblock" 0.

Lemma for_fold_fmap {A B S} (f : A -> B) (body : B -> S -> M S) (l : list A) :
  forall st w, for_fold (f <$> l) body st w = for_fold l (fun a => body (f a)) st w.
Proof.
  induction l as [|a l IH]; intros st w; simpl; [reflexivity|].
  unfold bind. destruct (body (f a) st w) as [[st'| |] w']; auto.
Qed.

Lemma execute_decompose fuel purged w :
  0 < hazard_block_size job_ctxt ->
  execute fuel purged w =
    bind execute_prologue (fun _ =>
      for_fold (block_slices (sites_to_compute job_ctxt) (hazard_block_size job_ctxt))
        (block_body fuel (NUMBER_OF_LOGIC_TREE_SAMPLES job_ctxt)) purged) w.
Proof.
  intros Hb. unfold execute, execute_prologue.
  rewrite (range_positive_step _ _ Hb).
  unfold block_slices. unfold bind, emit, pk_set, ret. cbv beta iota.
  rewrite for_fold_fmap. reflexivity.
Qed.

Lemma only_execute_prologue : only plain_event execute_prologue.
Proof. unfold execute_prologue. repeat only_step. Qed.

Lemma blocks_phases fuel realizations (slices : list (list Site)) :
  forall purged w, exists r w' evs,
    for_fold slices (block_body fuel realizations) purged w = (r, w') /\
    w_log w' = w_log w ++ evs /\
    ((exists purged', r = Ok purged') /\
     phases evs = concat ((fun data => block_schedule data realizations) <$> slices) \/
     (forall purged', r <> Ok purged') /\
     exists i n,
       (i < length slices)%nat /\ (1 <= n <= 3)%nat /\
       phases evs =
         concat ((fun data => block_schedule data realizations) <$> take i slices)
         ++ take n [Curves; Means; Quantiles]).
Proof.
  induction slices as [|data slices IH]; intros purged w.
  - exists (Ok purged), w, []. simpl. rewrite app_nil_r. splits; auto.
    left. split; [eauto|reflexivity].
  - simpl for_fold. unfold bind at 1. unfold block_body at 1.
    unfold bind at 1. unfold pk_inc at 1. cbv beta iota.
    match goal with |- context [execute_block _ _ _ _ ?w1] =>
      destruct (execute_block_phases fuel data realizations purged w1)
        as (r & w2 & evs & E & Hlog & Hph)
    end.
    rewrite E. cbn [w_log] in Hlog.
    destruct Hph as [[[purged' ->] Hph]|[Hr (n & Hn & Hph)]].
    + destruct (IH purged' w2) as (r' & w3 & evs' & E' & Hlog' & Hph').
      exists r', w3, ([EvPkInc (job_id job_ctxt) "cblock"] ++ evs ++ evs').
      splits; [exact E'|rewrite Hlog', Hlog; now rewrite <- !app_assoc|].
      rewrite !phases_app, Hph. change (phases [EvPkInc (job_id job_ctxt) "cblock"])
        with (@nil Phase). rewrite app_nil_l.
      destruct Hph' as [[Hok ->]|[Hr' (i & n & Hi & Hn & ->)]].
      * left. split; [exact Hok|reflexivity].
      * right. split; [exact Hr'|]. exists (S i), n.
        split; [simpl; lia|]. split; [exact Hn|]. simpl. now rewrite <- app_assoc.
    + exists r, w2, ([EvPkInc (job_id job_ctxt) "cblock"] ++ evs).
      splits.
      * destruct r as [purged'| |]; [now destruct (Hr purged')|reflexivity..].
      * rewrite Hlog. now rewrite <- app_assoc.
      * right. split; [exact Hr|]. exists 0%nat, n.
        split; [simpl; lia|]. split; [exact Hn|].
        rewrite phases_app, Hph. reflexivity.
Qed.

(** C7: with a positive block size, [execute] cuts the site list of the job
    into contiguous blocks [start, start + block_size) in list order (only the
    last may be shorter, none is empty) and processes them one after the other,
    each by the same loop body on its slice.  The log shows, block after
    block, the phases in the order curves, means, quantiles, purge; when a
    phase raises (or the polling does not end), [execute] ends with it inside
    that block, after the blocks before it were processed in full, and nothing
    of that block is purged. *)
Theorem execute_blocks_in_order fuel purged w :
  0 < hazard_block_size job_ctxt ->
  let sites := sites_to_compute job_ctxt in
  let block_size := hazard_block_size job_ctxt in
  let realizations := NUMBER_OF_LOGIC_TREE_SAMPLES job_ctxt in
  let slices := block_slices sites block_size in
  let schedule := fun data => block_schedule data realizations in
  let run := execute fuel purged w in
  (concat slices = sites /\
   forall (i : nat) data,
     slices !! i = Some data ->
     data = take (Z.to_nat block_size) (drop (i * Z.to_nat block_size) sites) /\
     data <> [] /\
     (length data <= Z.to_nat block_size)%nat /\
     (S i < length slices -> length data = Z.to_nat block_size)%nat) /\
  run = bind execute_prologue
          (fun _ => for_fold slices (block_body fuel realizations) purged) w /\
  exists evs,
    w_log (snd run) = w_log w ++ evs /\
    ((exists purged', fst run = Ok purged') /\
     phases evs = concat (schedule <$> slices) \/
     (forall purged', fst run <> Ok purged') /\
     exists i n,
       (i < length slices)%nat /\ (1 <= n <= 3)%nat /\
       phases evs =
         concat (schedule <$> take i slices) ++ take n [Curves; Means; Quantiles]).
Proof.
  intros Hb sites block_size realizations slices schedule run.
  split; [exact (block_slices_partition sites block_size Hb)|].
  assert (Hrun : run = bind execute_prologue
            (fun _ => for_fold slices (block_body fuel realizations) purged) w).
  { exact (execute_decompose fuel purged w Hb). }
  split; [exact Hrun|]. rewrite Hrun. unfold bind.
  destruct (only_execute_prologue w) as (evp & Hp & Hpp).
  destruct (execute_prologue w) as [[[]|e|] w1] eqn:Ep; cbn [fst snd] in Hp.
  - destruct (blocks_phases fuel realizations slices purged w1)
      as (r & w2 & evs & E & Hlog & Hph).
    rewrite E. cbn [fst snd]. exists (evp ++ evs).
    split; [rewrite Hlog, Hp; now rewrite <- app_assoc|].
    rewrite phases_app.
    rewrite (phases_silent evp (forallb_weaken _ _ _ plain_no_phase Hpp)).
    exact Hph.
  - exfalso. unfold execute_prologue, bind, emit, pk_set in Ep. discriminate.
  - exfalso. unfold execute_prologue, bind, emit, pk_set in Ep. discriminate.
Qed.


(** ** serialize_hazard_curve: when the loop ends *)

(** Once the workers have written the curve of every site (say, whenever the
    log has at least [T] entries), a scan finds every site. *)
Lemma scan_finds key_template hc_attrib_update (T : nat) (l : list Site) :
  (forall log kvs s,
     (T <= length log)%nat -> s ∈ l ->
     is_Some (workers log kvs !! fmt key_template (hash s))) ->
  forall sc w sc' w',
    (T <= length (w_log w))%nat ->
    for_fold l (scan_site key_template hc_attrib_update) sc w = (Ok sc', w') ->
    forall s, s ∈ l -> s ∈ sc_accounted_for sc'.
Proof.
  induction l as [|site l IH]; intros Hw sc w sc' w' HT E s Hs; [inversion Hs|].
  assert (Hw' : forall log kvs s,
            (T <= length log)%nat -> s ∈ l ->
            is_Some (workers log kvs !! fmt key_template (hash s))).
  { intros log kvs s0 Hl Hs0. apply Hw; [exact Hl|now right]. }
  simpl in E. unfold bind in E.
  destruct (scan_site key_template hc_attrib_update site sc w) as [[sc1| |] w1] eqn:E1;
    try discriminate.
  destruct (scan_sites key_template hc_attrib_update l sc1 w1)
    as (sc2 & w2 & added & gets & E2 & _ & _ & _ & _ & Ha & _ & _).
  rewrite E2 in E. injection E as <- <-.
  assert (Hlen : (T <= length (w_log w1))%nat /\ site ∈ sc_accounted_for sc1).
  { unfold scan_site in E1.
    destruct (decide (site ∈ sc_accounted_for sc)) as [Hin|Hnin].
    - injection E1 as <- <-. now split.
    - unfold bind, get_value_json_decoded in E1. cbv beta zeta in E1.
      destruct (Hw (w_log w) (w_kvs w) site HT ltac:(left)) as [v Hv].
      rewrite Hv in E1. injection E1 as <- <-. cbn [w_log sc_accounted_for].
      split; [rewrite length_app; lia|]. apply elem_of_union. left.
      now apply elem_of_singleton. }
  destruct Hlen as [HT1 Hsite].
  apply elem_of_cons in Hs as [->|Hs].
  - apply Ha. now right.
  - exact (IH Hw' sc1 w1 sc2 w2 HT1 E2 s Hs).
Qed.

Lemma poll_body_completes nrml_path key_template hc_attrib_update sites (T : nat)
    st w st' w' :
  (forall log, failure_counters log = []) ->
  (forall log kvs s,
     (T <= length log)%nat -> s ∈ sites ->
     is_Some (workers log kvs !! fmt key_template (hash s))) ->
  (T <= length (w_log w))%nat ->
  (forall s, s ∈ accounted_for st -> s ∈ sites) ->
  poll_body nrml_path key_template hc_attrib_update sites st w = (Ok st', w') ->
  accounted_for st' = sites.
Proof.
  intros Hf Hw HT Hsub E.
  unfold poll_body, stats_failure_counters in E. unfold bind at 1 in E.
  cbv beta zeta in E. rewrite Hf in E.
  rewrite bool_decide_eq_true_2 in E by reflexivity.
  unfold bind at 1 in E. unfold emit at 1 in E. cbv beta iota in E.
  unfold bind at 1 in E.
  match type of E with context [for_fold _ _ ?s ?w0] =>
    pose proof (scan_sites key_template hc_attrib_update (elements sites) s w0)
      as (sc' & w1 & added & gets & Es & _ & _ & _ & _ & Ha & _ & Hadd);
    assert (Hall : forall s0, s0 ∈ elements sites -> s0 ∈ sc_accounted_for sc')
  end.
  { eapply scan_finds; [|shelve|exact Es].
    - intros log kvs s0 Hl Hs0. apply Hw; [exact Hl|]. now apply elem_of_elements.
    Unshelve. cbn [w_log]. rewrite !length_app. simpl. lia. }
  rewrite Es in E. simpl in Ha, Hadd.
  assert (Hacc : accounted_for st' = sc_accounted_for sc').
  { destruct (sc_results_found sc' =? 0).
    - destruct (next (pgen st)). injection E as <- _. reflexivity.
    - unfold bind, emit, ret in E. injection E as <- _. reflexivity. }
  rewrite Hacc. apply set_eq. intros s. split.
  - intros [Hx|Hx]%Ha; [|now apply Hsub].
    apply Hadd in Hx as [Hx _]. now apply elem_of_elements in Hx.
  - intros Hs. apply Hall. now apply elem_of_elements.
Qed.

(** If no failure is ever recorded and, from some point on, the curve of
    every expected site is in the cache, the loop returns when it is given
    enough iterations. *)
Lemma poll_loop_returns nrml_path key_template hc_attrib_update sites (T : nat) :
  (forall log, failure_counters log = []) ->
  (forall log kvs s,
     (T <= length log)%nat -> s ∈ sites ->
     is_Some (workers log kvs !! fmt key_template (hash s))) ->
  forall fuel st w,
    (forall s, s ∈ accounted_for st -> s ∈ sites) ->
    (T <= length (w_log w) + fuel)%nat ->
    exists st' w',
      poll_loop (S fuel) nrml_path key_template hc_attrib_update sites st w
      = (Ok st', w').
Proof.
  intros Hf Hw.
  induction fuel as [|fuel IH]; intros st w Hsub Hfuel;
    cbn [poll_loop];
    destruct (decide (accounted_for st = sites)) as [Hd|Hd]; eauto;
    destruct (poll_body_iteration nrml_path key_template hc_attrib_update sites st w
                (Hf _))
      as (st1 & w1 & gets & x & batch & E & Hlog & _ & Ha & _ & Hs & _);
    unfold bind; rewrite E.
  - assert (Hdone : accounted_for st1 = sites).
    { eapply poll_body_completes; eauto. lia. }
    destruct (decide (accounted_for st1 = sites)); [eauto|contradiction].
  - apply IH.
    + intros s Hx. apply Ha in Hx as [Hx|Hx]; [now apply Hs|now apply Hsub].
    + rewrite Hlog, length_app. unfold iteration_events. simpl. lia.
Qed.

(** Under the same conditions [serialize_hazard_curve] returns the path of
    its file. *)
Lemma serialize_hazard_curve_returns fuel nrml_file key_template hc_attrib_update
    (sites : list Site) (T : nat) w :
  (forall log, failure_counters log = []) ->
  (forall log kvs s,
     (T <= length log)%nat -> s ∈ sites ->
     is_Some (workers log kvs !! fmt key_template (hash s))) ->
  (T < fuel)%nat ->
  fst (serialize_hazard_curve fuel nrml_file key_template hc_attrib_update sites w)
  = Ok (build_nrml_path nrml_file).
Proof.
  intros Hf Hw Hfuel. destruct fuel as [|fuel]; [lia|].
  unfold serialize_hazard_curve.
  unfold bind at 1. unfold pk_get at 1. cbv beta zeta.
  unfold bind at 1. unfold pk_get at 1. cbv beta zeta.
  unfold bind at 1. unfold emit at 1. cbv beta iota. unfold bind at 1.
  assert (Hw' : forall log kvs s,
            (T <= length log)%nat -> s ∈ (list_to_set sites : gset Site) ->
            is_Some (workers log kvs !! fmt key_template (hash s))).
  { intros log kvs s Hl Hs. apply Hw; [exact Hl|]. now apply elem_of_list_to_set in Hs. }
  match goal with |- context [poll_loop _ ?p ?k ?u ?s ?st0 ?w1] =>
    destruct (poll_loop_returns p k u s T Hf Hw' fuel st0 w1) as (st' & w' & E)
  end.
  - intros s Hx. unfold poll_init in Hx. simpl in Hx. now apply elem_of_empty in Hx.
  - lia.
  - rewrite E. reflexivity.
Qed.


(** ** pause_generator: the values it yields *)

(** The values of the first [n] calls of [next] on the generator [g]. *)
Fixpoint yields (n : nat) (g : Gen) : list Q :=
  match n with
  | O => []
  | S n' => fst (next g) :: yields n' (snd (next g))
  end.

(** The value after [value] in the [while True] loop of the generator. *)
Definition doubled (value : Q) : Q :=
  if Qlt_le_dec value 45 then (value * 2)%Q else value.

Lemma next_started (g : Gen) :
  gen_started g = true ->
  next g = (doubled (gen_value g),
            {| gen_value := doubled (gen_value g); gen_started := true |}).
Proof. intros Hs. unfold next, doubled. now rewrite Hs. Qed.

Lemma yields_bound (n : nat) :
  forall g, (gen_value g <= 90)%Q -> Forall (fun v => (v <= 90)%Q) (yields n g).
Proof.
  induction n as [|n IH]; intros g Hg; cbn [yields]; [constructor|].
  unfold next. destruct (gen_started g); cbn [fst snd].
  - destruct (Qlt_le_dec (gen_value g) 45) as [Hlt|Hge];
      (constructor; [|apply IH; cbn [gen_value]]); lra.
  - constructor; [exact Hg|apply IH; exact Hg].
Qed.

Lemma yields_started (n : nat) :
  forall g, gen_started g = true ->
    (forall v, yields n g !! 0%nat = Some v -> v = doubled (gen_value g)) /\
    (forall (i : nat) a b,
       yields n g !! i = Some a -> yields n g !! S i = Some b -> b = doubled a).
Proof.
  induction n as [|n IH]; intros g Hs; cbn [yields].
  - split; intros; discriminate.
  - rewrite (next_started g Hs). cbn [fst snd].
    destruct (IH {| gen_value := doubled (gen_value g); gen_started := true |} eq_refl)
      as [Hhd Hstep].
    split.
    + intros v [= <-]. reflexivity.
    + intros [|i] a b Ha Hb; cbn in Ha, Hb.
      * injection Ha as <-. exact (Hhd b Hb).
      * exact (Hstep i a b Ha Hb).
Qed.

(** X1: as its docstring says, the values [pause_generator] yields never
    exceed 90, whatever the number of calls; this holds for every initial
    value that does not exceed 90 itself. *)
Theorem pause_generator_never_exceeds_90 (value : Q) (n : nat) :
  (value <= 90)%Q ->
  Forall (fun v => (v <= 90)%Q) (yields n (pause_generator value)).
Proof. intros Hv. apply yields_bound. exact Hv. Qed.

(** X2: the first call of [next] yields the initial value unchanged; every
    later call yields twice the value yielded before it when that value is
    below 45, and the same value again otherwise. *)
Theorem pause_generator_doubles_below_45 (value : Q) (n : nat) :
  let ys := yields n (pause_generator value) in
  (forall v, ys !! 0%nat = Some v -> v = value) /\
  (forall (i : nat) a b,
     ys !! i = Some a -> ys !! S i = Some b ->
     b = if Qlt_le_dec a 45 then (a * 2)%Q else a).
Proof.
  cbv zeta. destruct n as [|n]; cbn [yields].
  - split; intros; discriminate.
  - change (next (pause_generator value))
      with (value, {| gen_value := value; gen_started := true |}).
    cbn [fst snd].
    destruct (yields_started n {| gen_value := value; gen_started := true |} eq_refl)
      as [Hhd Hstep].
    split.
    + intros v [= <-]. reflexivity.
    + intros [|i] a b Ha Hb; cbn in Ha, Hb.
      * injection Ha as <-. exact (Hhd b Hb).
      * exact (Hstep i a b Ha Hb).
Qed.

(** ** distribute: tasks whose results are ignored; results that do not
    flatten *)

(** X3: for a task whose results are ignored, [distribute] neither joins the
    subtasks nor looks at what they hand back: what it does and returns is the
    same whatever the subtasks compute (an exception included) and whatever
    [flatten_results] is. *)
Theorem distribute_ignores_subtask_results task_func task_func' name data tf_args
    ath ath_args flatten_results flatten_results' w :
  ignore_result task_func = true ->
  ignore_result task_func' = true ->
  task_name task_func = task_name task_func' ->
  distribute task_func name data tf_args ath ath_args flatten_results w
  = distribute task_func' name data tf_args ath ath_args flatten_results' w.
Proof.
  intros H1 H2 Hn. rewrite !distribute_unfold. cbv zeta.
  rewrite H1, H2. unfold submitted. now rewrite Hn.
Qed.

(** X4: a task handler may only be specified for a task whose results are
    ignored, as the docstring says: for a task whose results are collected
    [distribute] never calls [ath], and what it does and returns is the same
    as without a handler. *)
Theorem distribute_collect_never_calls_ath task_func name data tf_args ath ath_args
    flatten_results w :
  ignore_result task_func = false ->
  distribute task_func name data tf_args ath ath_args flatten_results w
  = distribute task_func name data tf_args None None flatten_results w.
Proof. intros Hmode. rewrite !distribute_unfold. cbv zeta. now rewrite Hmode. Qed.

Lemma chain_not_iterable results w :
  (exists r, r ∈ results /\ iter_value r = None) ->
  chain results w = (Raise (TypeError "object is not iterable"), w).
Proof.
  induction results as [|r results IH]; intros (r0 & Hin & Hr0).
  - inversion Hin.
  - cbn [chain]. destruct (iter_value r) as [l|] eqn:Er; [|reflexivity].
    apply elem_of_cons in Hin as [->|Hin]; [congruence|].
    unfold bind. rewrite IH by eauto. reflexivity.
Qed.

(** X5: with [flatten_results] set, the results are chained as soon as the
    first of them is a list, a tuple or a set; if then any result cannot be
    iterated over ([None], a number), the call raises [TypeError] instead of
    returning the results. *)
Theorem distribute_flatten_not_iterable task_func name data tf_args ath ath_args w :
  ignore_result task_func = false ->
  let results :=
    (fun item => task_run task_func (subtask_kwargs name tf_args item)) <$> data in
  forallb (fun v => negb (is_exception v)) results = true ->
  is_list_tuple_set (hd VNone results) = true ->
  (exists r, r ∈ results /\ iter_value r = None) ->
  distribute task_func name data tf_args ath ath_args true w
  = (Raise (TypeError "object is not iterable"),
     joined results (submitted task_func name data tf_args w)).
Proof.
  intros Hmode results Hexc Hsample Hbad.
  assert (Hres : task_run task_func <$> (subtask_kwargs name tf_args <$> data) = results).
  { unfold results. now rewrite <- list_fmap_compose. }
  rewrite distribute_unfold. cbv zeta. rewrite Hmode.
  rewrite collect_no_exception by (now rewrite Hres).
  rewrite Hres, Hsample. cbn [andb]. unfold bind.
  now rewrite (chain_not_iterable _ _ Hbad).
Qed.

(** ** release_data_from_kvs: purging twice, and how much is purged *)

(** X6: purging is idempotent on the cache: a second call of
    [release_data_from_kvs] with the same arguments, right after the first,
    leaves the cache as the first call left it. *)
Theorem release_data_from_kvs_idempotent job_id sites realizations quantiles poes
    purged purged' w :
  let w1 := snd (release_data_from_kvs job_id sites realizations quantiles poes purged w) in
  let w2 := snd (release_data_from_kvs job_id sites realizations quantiles poes purged' w1) in
  w_kvs w2 = w_kvs w1.
Proof.
  cbv zeta. rewrite !release_data_from_kvs_run. cbv zeta.
  cbn [snd purged_world w_kvs]. apply map_eq. intros key.
  rewrite !lookup_purged. now destruct (decide _).
Qed.

Lemma length_concat_fmap {A B} (f : A -> list B) (l : list A) (c : nat) :
  (forall a, length (f a) = c) -> length (concat (f <$> l)) = (length l * c)%nat.
Proof.
  intros Hc. induction l as [|a l IH]; [reflexivity|].
  cbn [fmap list_fmap concat]. rewrite length_app, Hc.
  change (length (concat (f <$> l)) = (length l * c)%nat) in IH.
  rewrite IH. simpl. lia.
Qed.

(** X7: [release_data_from_kvs] calls [delete] once per realization, once
    for the mean curves, once per quantile and once per PoE; a test that
    passes an empty list as [kvs_keys_purged] gets back one key per site for
    every realization, for the mean curve, for every quantile, for every
    quantile and PoE, and for every PoE. *)
Theorem release_data_from_kvs_counts job_id sites realizations quantiles poes w :
  let run :=
    release_data_from_kvs job_id sites realizations quantiles poes (Some []) w in
  exists keys batches,
    fst run = Ok (Some keys) /\
    w_log (snd run) = w_log w ++ (EvKvsDelete <$> batches) /\
    keys = concat batches /\
    length batches
      = (Z.to_nat realizations + 1 + length quantiles + length poes)%nat /\
    length keys
      = (length sites *
         (Z.to_nat realizations + 1 + length quantiles * (1 + length poes)
          + length poes))%nat.
Proof.
  cbv zeta. rewrite release_data_from_kvs_run. cbv zeta.
  exists (concat (purge_batches job_id sites realizations quantiles poes)),
         (purge_batches job_id sites realizations quantiles poes).
  cbn [fst snd purged_world w_log extend app].
  assert (Hk : forall template, length (site_keys template sites) = length sites).
  { intros template. unfold site_keys. now rewrite length_fmap. }
  splits; try reflexivity.
  - unfold purge_batches, xrange.
    rewrite !length_app, !length_fmap, length_seq. simpl. lia.
  - unfold purge_batches. rewrite !concat_app, !length_app.
    cbn [concat]. rewrite app_nil_r, Hk.
    rewrite (length_concat_fmap _ (xrange 0 realizations) (length sites))
      by (intros; apply Hk).
    rewrite (length_concat_fmap _ poes (length sites)) by (intros; apply Hk).
    rewrite (length_concat_fmap _ quantiles (length sites * (1 + length poes))).
    2:{ intros q. rewrite length_app, Hk.
        rewrite (length_concat_fmap _ poes (length sites)) by (intros; apply Hk).
        lia. }
    unfold xrange. rewrite length_fmap, length_seq. lia.
Qed.

(** ** execute: no block, no block size *)

Lemma range_no_block (stop step : Z) :
  0 <= stop -> step <> 0 -> (stop = 0 \/ step < 0) -> range 0 stop step = ret [].
Proof.
  intros Hstop Hstep Hcase. unfold range.
  destruct (step =? 0) eqn:E0; [apply Z.eqb_eq in E0; contradiction|].
  destruct (0 <? step) eqn:E1.
  - apply Z.ltb_lt in E1. destruct Hcase as [->|Hneg]; [|lia].
    replace (0 - 0 + step - 1) with (step - 1) by lia.
    rewrite Z.div_small by lia. reflexivity.
  - apply Z.ltb_ge in E1.
    assert (Hq : (0 - stop - step - 1) / - step < 1).
    { apply Z.div_lt_upper_bound; lia. }
    replace (Z.to_nat ((0 - stop - step - 1) / - step)) with 0%nat by lia.
    reflexivity.
Qed.

(** X8: when the job has no site to compute, or when the block size is
    negative, [execute] processes no block at all: it logs its first line,
    sets the counters (with [blocks] and [cblock] at 0) and returns;
    nothing is distributed, read, serialized or purged, and the cache is left
    as it was. *)
Theorem execute_without_blocks fuel purged w :
  hazard_block_size job_ctxt <> 0 ->
  sites_to_compute job_ctxt = [] \/ hazard_block_size job_ctxt < 0 ->
  let run := execute fuel purged w in
  fst run = Ok purged /\
  w_kvs (snd run) = w_kvs w /\
  w_log (snd run) = w_log w ++
    [EvLog "Going to run classical PSHA hazard for %s realizations and %s sites"
       [NUMBER_OF_LOGIC_TREE_SAMPLES job_ctxt; len (sites_to_compute job_ctxt)];
     EvPkSet (job_id job_ctxt) "hcls_sites" (len (sites_to_compute job_ctxt));
     EvPkSet (job_id job_ctxt) "hcls_realizations"
       (NUMBER_OF_LOGIC_TREE_SAMPLES job_ctxt);
     EvPkSet (job_id job_ctxt) "block_size" (hazard_block_size job_ctxt);
     EvPkSet (job_id job_ctxt) "blocks" 0;
     EvPkSet (job_id job_ctxt) "cblock" 0].
Proof.
  intros Hnz Hcase. cbv zeta. unfold execute.
  rewrite range_no_block; [|unfold len; lia|exact Hnz|].
  2:{ destruct Hcase as [->|Hneg]; [now left|now right]. }
  unfold bind, emit, pk_set, ret. cbn [for_fold fst snd w_log w_kvs].
  unfold ret. cbn [fst snd w_log w_kvs]. splits; try reflexivity.
  now rewrite <- !app_assoc.
Qed.

(** X9: with a block size of zero [execute] raises the [ValueError] of
    [range] before the first block: the counters [hcls_sites],
    [hcls_realizations] and [block_size] are set, [blocks] and [cblock] are
    not, and nothing is distributed or purged. *)
Theorem execute_zero_block_size fuel purged w :
  hazard_block_size job_ctxt = 0 ->
  let run := execute fuel purged w in
  fst run = Raise (ValueError "range() step argument must not be zero") /\
  w_kvs (snd run) = w_kvs w /\
  w_log (snd run) = w_log w ++
    [EvLog "Going to run classical PSHA hazard for %s realizations and %s sites"
       [NUMBER_OF_LOGIC_TREE_SAMPLES job_ctxt; len (sites_to_compute job_ctxt)];
     EvPkSet (job_id job_ctxt) "hcls_sites" (len (sites_to_compute job_ctxt));
     EvPkSet (job_id job_ctxt) "hcls_realizations"
       (NUMBER_OF_LOGIC_TREE_SAMPLES job_ctxt);
     EvPkSet (job_id job_ctxt) "block_size" 0].
Proof.
  intros Hz. cbv zeta. unfold execute. rewrite Hz.
  unfold range. cbn [Z.eqb].
  unfold bind, emit, pk_set, raise. cbn [fst snd w_log w_kvs].
  splits; try reflexivity. now rewrite <- !app_assoc.
Qed.


(** ** The serializers only read *)

(** The events of a serializer: log lines that mark no phase, reads of the
    progress counters, the creation of the writer, the check of the failure
    counters, the sleep, reads of the cache at the keys [allowed], and the
    hand-over of the data to the writer.  Nothing else: no task is
    submitted, no counter is set, no key of the cache is deleted. *)
Definition serializer_event (allowed : Key -> bool) (ev : Event) : bool :=
  match ev with
  | EvLog msg _ => match phase_marker msg with None => true | Some _ => false end
  | EvPkGet _ _ _ | EvCreateWriter _ | EvFailureCounters _ _ | EvSleep _
  | EvSerializerContext _ | EvSerialize _ _ => true
  | EvKvsGet key _ => allowed key
  | _ => false
  end.

Lemma only_for_fold_in P {A S} (l : list A) (body : A -> S -> M S) :
  (forall a, a ∈ l -> forall st, only P (body a st)) ->
  forall st, only P (for_fold l body st).
Proof.
  induction l as [|a l IH]; intros Hb st; simpl.
  - apply only_ret.
  - apply only_bind; [apply Hb; left|].
    intros st'. apply IH. intros a' Ha'. apply Hb. now right.
Qed.

Lemma only_for_in P {A} (l : list A) (body : A -> M unit) :
  (forall a, a ∈ l -> only P (body a)) -> only P (for_ l body).
Proof.
  induction l as [|a l IH]; intros Hb; simpl.
  - apply only_ret.
  - apply only_bind; [apply Hb; left|].
    intros _. apply IH. intros a' Ha'. apply Hb. now right.
Qed.

Lemma only_get allowed key :
  allowed key = true -> only (serializer_event allowed) (get_value_json_decoded key).
Proof.
  intros Hk. apply only_one. intros w. eexists. split; [reflexivity|exact Hk].
Qed.

Lemma serializer_scan_site allowed key_template hc_attrib_update site sc :
  allowed (fmt key_template (hash site)) = true ->
  only (serializer_event allowed) (scan_site key_template hc_attrib_update site sc).
Proof.
  intros Hk. unfold scan_site. destruct (decide _); [apply only_ret|].
  apply only_bind; [now apply only_get|]. intros [v|]; apply only_ret.
Qed.

Lemma serializer_poll_body allowed nrml_path key_template hc_attrib_update sites st :
  (forall s, s ∈ sites -> allowed (fmt key_template (hash s)) = true) ->
  only (serializer_event allowed)
    (poll_body nrml_path key_template hc_attrib_update sites st).
Proof.
  intros Hk. unfold poll_body. only_step; [only_event|].
  destruct (bool_decide _); [|apply only_raise].
  only_step; [only_event|]. only_step.
  - apply only_for_fold_in. intros s Hs sc. apply serializer_scan_site, Hk.
    now apply elem_of_elements in Hs.
  - destruct (_ =? 0).
    + destruct (next (pgen st)). apply only_ret.
    + repeat only_step.
Qed.

Lemma serializer_poll_loop allowed nrml_path key_template hc_attrib_update sites fuel :
  (forall s, s ∈ sites -> allowed (fmt key_template (hash s)) = true) ->
  forall st,
    only (serializer_event allowed)
      (poll_loop fuel nrml_path key_template hc_attrib_update sites st).
Proof.
  intros Hk. induction fuel as [|fuel IH]; intros st; simpl; destruct (decide _);
    try apply only_ret; [apply only_out_of_fuel|].
  apply only_bind; [now apply serializer_poll_body|exact IH].
Qed.

Lemma serializer_serialize_hazard_curve allowed fuel nrml_file key_template
    hc_attrib_update (sites : list Site) :
  (forall s, s ∈ sites -> allowed (fmt key_template (hash s)) = true) ->
  only (serializer_event allowed)
    (serialize_hazard_curve fuel nrml_file key_template hc_attrib_update sites).
Proof.
  intros Hk. unfold serialize_hazard_curve. repeat only_step.
  apply serializer_poll_loop. intros s Hs. apply Hk.
  now apply elem_of_list_to_set in Hs.
Qed.

Lemma serializer_serialize_hazard_map_at_poe allowed (sites : list Site) poe
    key_template hm_attrib_update nrml_file :
  (forall s, s ∈ sites -> allowed (fmt key_template (hash s)) = true) ->
  only (serializer_event allowed)
    (serialize_hazard_map_at_poe sites poe key_template hm_attrib_update nrml_file).
Proof.
  intros Hk. unfold serialize_hazard_map_at_poe.
  only_step; [only_event|]. only_step; [only_event|]. only_step.
  - apply only_for_fold_in. intros s Hs hm_data.
    only_step; [now apply only_get, Hk|]. apply only_ret.
  - repeat only_step.
Qed.

Lemma allowed_site_keys key_template (sites : list Site) s :
  s ∈ sites ->
  bool_decide (fmt key_template (hash s) ∈ site_keys key_template sites) = true.
Proof.
  intros Hs. apply bool_decide_eq_true_2. apply elem_of_site_keys. now exists s.
Qed.

(** X10: however it ends (it returns, raises, or never finds its sites),
    [serialize_hazard_curve] does nothing but read and write out: it reads
    the progress counters, creates its writer, checks the failure counters,
    sleeps, reads the cache and hands data to the writer.  The only keys of
    the cache it reads are those of its key template for the sites it was
    given; it submits no task, sets no counter and deletes nothing. *)
Theorem serialize_hazard_curve_only_reads fuel nrml_file key_template hc_attrib_update
    (sites : list Site) :
  only (serializer_event (fun key => bool_decide (key ∈ site_keys key_template sites)))
    (serialize_hazard_curve fuel nrml_file key_template hc_attrib_update sites).
Proof.
  apply serializer_serialize_hazard_curve. intros s Hs. now apply allowed_site_keys.
Qed.

(** ** serialize_hazard_curve: what is read is what is written *)

(** The successful reads of the cache, with the values read. *)
Definition found (evs : list Event) : list (Key * value) :=
  omap (fun ev => match ev with
                  | EvKvsGet key (Some v) => Some (key, v)
                  | _ => None
                  end) evs.

(** The entries handed to the writer, over all its calls, in order. *)
Definition serialized_data (evs : list Event) : list (Site * kwargs) :=
  concat (omap (fun ev => match ev with
                          | EvSerialize _ data => Some data
                          | _ => None
                          end) evs).

(** The serialization contexts set, in order. *)
Definition contexts (evs : list Event) : list XSC :=
  omap (fun ev => match ev with
                  | EvSerializerContext x => Some x
                  | _ => None
                  end) evs.

(** The attributes of the curve of a site whose ordinates [value] were read
    from the cache: those of the job, updated with [hc_attrib_update]. *)
Definition hc_attrib (hc_attrib_update : kwargs) (value : value) : kwargs :=
  hc_attrib_update ∪
  (<["investigationTimeSpan" := INVESTIGATION_TIME job_ctxt]>
  (<["IMLValues" := imls job_ctxt]>
  (<["IMT" := INTENSITY_MEASURE_TYPE job_ctxt]>
  (<["PoEValues" := value]> ∅)))).

(** An entry of the writer's data that stems from a read of the cache. *)
Definition curve_entry (key_template : Template) (hc_attrib_update : kwargs)
    (read : Key * value) (entry : Site * kwargs) : Prop :=
  read.1 = fmt key_template (hash entry.1) /\
  entry.2 = hc_attrib hc_attrib_update read.2.

Lemma found_app evs1 evs2 : found (evs1 ++ evs2) = found evs1 ++ found evs2.
Proof. apply omap_app. Qed.

Lemma serialized_data_app evs1 evs2 :
  serialized_data (evs1 ++ evs2) = serialized_data evs1 ++ serialized_data evs2.
Proof. unfold serialized_data. now rewrite omap_app, concat_app. Qed.

Lemma contexts_app evs1 evs2 : contexts (evs1 ++ evs2) = contexts evs1 ++ contexts evs2.
Proof. apply omap_app. Qed.

Lemma gets_write_nothing gets :
  forallb is_get gets = true -> serialized_data gets = [] /\ contexts gets = [].
Proof.
  induction gets as [|ev gets IH]; [now split|]. simpl.
  intros [Hev Hg]%andb_prop. destruct (IH Hg) as [H1 H2].
  destruct ev; try discriminate. unfold serialized_data, contexts in *.
  simpl. now rewrite H2.
Qed.

Lemma scan_sites_found key_template hc_attrib_update (l : list Site) :
  forall sc w, exists sc' w' added gets,
    for_fold l (scan_site key_template hc_attrib_update) sc w = (Ok sc', w') /\
    w_log w' = w_log w ++ gets /\
    forallb is_get gets = true /\
    sc_hc_data sc' = sc_hc_data sc ++ added /\
    sc_results_found sc' = sc_results_found sc + len added /\
    Forall2 (curve_entry key_template hc_attrib_update) (found gets) added.
Proof.
  induction l as [|site l IH]; intros sc w.
  - exists sc, w, [], []. simpl. unfold ret, len. simpl.
    rewrite !app_nil_r, Z.add_0_r. splits; auto; try constructor.
  - simpl. unfold bind at 1. unfold scan_site at 1.
    destruct (decide (site ∈ sc_accounted_for sc)) as [Hin|Hnin].
    + unfold ret at 1. apply IH.
    + unfold bind at 1. unfold get_value_json_decoded at 1.
      cbv beta zeta.
      set (kvs := workers (w_log w) (w_kvs w)).
      set (key := fmt key_template (hash site)).
      set (w1 := {| w_log := w_log w ++ [EvKvsGet key (kvs !! key)];
                    w_kvs := kvs; w_pk := w_pk w |}).
      destruct (kvs !! key) as [v|] eqn:Ev.
      * unfold ret at 1.
        match goal with |- context [for_fold l _ ?s w1] => set (sc1 := s) end.
        destruct (IH sc1 w1) as (sc' & w' & added & gets & E & Hlog & Hg & Hd & Hn & Hf).
        subst sc1. simpl in Hd, Hn, Hlog.
        exists sc', w', ((site, hc_attrib hc_attrib_update v) :: added),
               (EvKvsGet key (Some v) :: gets).
        splits; auto.
        -- rewrite Hlog. now rewrite <- app_assoc.
        -- rewrite Hd. now rewrite <- app_assoc.
        -- rewrite Hn. unfold len. simpl length. lia.
        -- change (found (EvKvsGet key (Some v) :: gets)) with ((key, v) :: found gets).
           constructor; [|exact Hf]. split; reflexivity.
      * unfold ret at 1.
        destruct (IH sc w1) as (sc' & w' & added & gets & E & Hlog & Hg & Hd & Hn & Hf).
        exists sc', w', added, (EvKvsGet key None :: gets). splits; auto.
        rewrite Hlog. simpl. now rewrite <- app_assoc.
Qed.

(** The context with [len batch] more sites done. *)
Definition advance (x : XSC) (batch : list Site) : XSC :=
  {| xsc_blocks := xsc_blocks x; xsc_cblock := xsc_cblock x; i_total := i_total x;
     i_done := i_done x + len batch; i_next := i_next x |}.

(** The contexts set for the batches, one after the other, from the context
    [x] on: [i_next] is the size of the batch at hand, [i_done] the number of
    sites in the batches before it. *)
Fixpoint progress (x : XSC) (batches : list (list Site)) : list XSC :=
  match batches with
  | [] => []
  | batch :: batches' =>
      {| xsc_blocks := xsc_blocks x; xsc_cblock := xsc_cblock x; i_total := i_total x;
         i_done := i_done x; i_next := len batch |}
      :: progress (advance x batch) batches'
  end.

Lemma progress_app x batches1 batches2 :
  progress x (batches1 ++ batches2)
  = progress x batches1 ++ progress (foldl advance x batches1) batches2.
Proof.
  revert x. induction batches1 as [|b batches1 IH]; intros x; [reflexivity|].
  simpl. now rewrite IH.
Qed.

(** One iteration that is not aborted: what it reads and finds is what it
    hands to the writer, under the context of the sites done so far. *)
Lemma poll_body_found nrml_path key_template hc_attrib_update sites st w :
  failure_counters (w_log w) = [] ->
  exists st' w' evs,
    poll_body nrml_path key_template hc_attrib_update sites st w = (Ok st', w') /\
    w_log w' = w_log w ++ evs /\
    Forall2 (curve_entry key_template hc_attrib_update) (found evs) (serialized_data evs) /\
    contexts evs = progress (xsc st) (serialized_batches evs) /\
    xsc st' = foldl advance (xsc st) (serialized_batches evs).
Proof.
  intros Hf. unfold poll_body, stats_failure_counters. unfold bind at 1.
  cbv beta zeta. rewrite Hf. rewrite bool_decide_eq_true_2 by reflexivity.
  unfold bind at 1. unfold emit at 1. cbv beta iota. unfold bind at 1.
  match goal with |- context [for_fold _ _ ?s ?w1] =>
    destruct (scan_sites_found key_template hc_attrib_update (elements sites) s w1)
      as (sc' & w' & added & gets & E & Hlog & Hg & Hd & Hn & Hfound)
  end.
  rewrite E. simpl in Hlog, Hd, Hn.
  destruct (gets_write_nothing gets Hg) as [Hg1 Hg2].
  pose proof (serialized_batches_gets gets Hg) as Hg3.
  rewrite Hd, Hn. destruct added as [|entry added].
  - simpl. destruct (next (pgen st)) as [p g] eqn:En.
    eexists _, w', ([EvFailureCounters (job_id job_ctxt) []; EvSleep (pause st)] ++ gets).
    splits; [reflexivity| | | |].
    + rewrite Hlog. now rewrite <- !app_assoc.
    + rewrite found_app, serialized_data_app, Hg1. exact Hfound.
    + rewrite contexts_app, serialized_batches_app, Hg2, Hg3. reflexivity.
    + rewrite serialized_batches_app, Hg3. reflexivity.
  - assert (Hz : (0 + len (entry :: added) =? 0) = false).
    { apply Z.eqb_neq. unfold len. simpl length. lia. }
    rewrite Hz. unfold bind at 1. unfold emit at 1. cbv beta iota.
    unfold bind at 1. unfold emit at 1. cbv beta iota. unfold ret.
    eexists _, _,
      ([EvFailureCounters (job_id job_ctxt) []; EvSleep (pause st)] ++ gets ++
       [EvSerializerContext
          {| xsc_blocks := xsc_blocks (xsc st); xsc_cblock := xsc_cblock (xsc st);
             i_total := i_total (xsc st); i_done := i_done (xsc st);
             i_next := len (entry :: added) |};
        EvSerialize nrml_path (entry :: added)]).
    splits; [reflexivity| | | |].
    + cbn [w_log]. rewrite Hlog. now rewrite <- !app_assoc.
    + rewrite !found_app, !serialized_data_app, Hg1.
      cbn [found serialized_data omap list_omap concat app].
      rewrite !app_nil_r. exact Hfound.
    + rewrite !contexts_app, !serialized_batches_app, Hg2, Hg3.
      cbn [contexts serialized_batches omap list_omap app progress].
      unfold len. now rewrite length_fmap.
    + rewrite !serialized_batches_app, Hg3.
      cbn [serialized_batches omap list_omap app foldl xsc]. unfold advance, len.
      now rewrite length_fmap.
Qed.

Lemma poll_loop_found nrml_path key_template hc_attrib_update sites fuel :
  forall st w, exists r w' evs,
    poll_loop fuel nrml_path key_template hc_attrib_update sites st w = (r, w') /\
    w_log w' = w_log w ++ evs /\
    Forall2 (curve_entry key_template hc_attrib_update) (found evs) (serialized_data evs) /\
    contexts evs = progress (xsc st) (serialized_batches evs).
Proof.
  induction fuel as [|fuel IH]; intros st w; simpl;
    destruct (decide (accounted_for st = sites)) as [Hd|Hd].
  - exists (Ok st), w, []. rewrite app_nil_r. splits; auto; try constructor.
  - exists OutOfFuel, w, []. rewrite app_nil_r. splits; auto; try constructor.
  - exists (Ok st), w, []. rewrite app_nil_r. splits; auto; try constructor.
  - destruct (decide (failure_counters (w_log w) = [])) as [Hf|Hf].
    + destruct (poll_body_found nrml_path key_template hc_attrib_update sites st w Hf)
        as (st' & w1 & evs1 & E & Hlog & Hfound & Hctx & Hx).
      destruct (IH st' w1) as (r & w' & evs & E' & Hlog' & Hfound' & Hctx').
      exists r, w', (evs1 ++ evs). splits.
      * unfold bind. now rewrite E.
      * rewrite Hlog', Hlog. now rewrite <- app_assoc.
      * rewrite found_app, serialized_data_app. now apply Forall2_app.
      * rewrite contexts_app, serialized_batches_app, progress_app.
        now rewrite Hctx, Hctx', Hx.
    + eexists _, _, _. splits.
      * unfold bind. now rewrite (poll_body_abort _ _ _ _ _ _ Hf).
      * reflexivity.
      * constructor.
      * reflexivity.
Qed.

Lemma serialize_hazard_curve_found fuel nrml_file key_template hc_attrib_update
    (sites : list Site) w :
  exists r w' evs,
    serialize_hazard_curve fuel nrml_file key_template hc_attrib_update sites w
      = (r, w') /\
    w_log w' = w_log w ++ evs /\
    Forall2 (curve_entry key_template hc_attrib_update) (found evs) (serialized_data evs) /\
    contexts evs =
      progress {| xsc_blocks := w_pk w !! (job_id job_ctxt, "blocks");
                  xsc_cblock := w_pk w !! (job_id job_ctxt, "cblock");
                  i_total := len sites; i_done := 0; i_next := 0 |}
        (serialized_batches evs).
Proof.
  unfold serialize_hazard_curve.
  unfold bind at 1. unfold pk_get at 1. cbv beta zeta.
  unfold bind at 1. unfold pk_get at 1. cbv beta zeta.
  unfold bind at 1. unfold emit at 1. cbv beta iota.
  cbn [w_log w_kvs w_pk]. unfold bind at 1.
  match goal with |- context [poll_loop _ ?p _ _ ?s ?st ?w1] =>
    destruct (poll_loop_found p key_template hc_attrib_update s fuel st w1)
      as (r & w' & evs & E & Hlog & Hfound & Hctx)
  end.
  rewrite E. cbn [w_log] in Hlog.
  exists (returned (build_nrml_path nrml_file) r), w',
    ([EvPkGet (job_id job_ctxt) "blocks" (w_pk w !! (job_id job_ctxt, "blocks"));
      EvPkGet (job_id job_ctxt) "cblock" (w_pk w !! (job_id job_ctxt, "cblock"));
      EvCreateWriter (build_nrml_path nrml_file)] ++ evs).
  splits.
  - destruct r; reflexivity.
  - rewrite Hlog. now rewrite <- !app_assoc.
  - rewrite found_app, serialized_data_app. exact Hfound.
  - rewrite contexts_app, serialized_batches_app. exact Hctx.
Qed.

(** X11: in every run of [serialize_hazard_curve], what is handed to the
    writer is what was found in the cache, entry by entry and in the same
    order: every read that finds a value makes one entry, for the site whose
    key was read, with the value read as [PoEValues] among the attributes of
    the job (before [hc_attrib_update] is applied); nothing else is written,
    and no value found is dropped or read a second time. *)
Theorem serialize_hazard_curve_writes_what_it_reads fuel nrml_file key_template
    hc_attrib_update (sites : list Site) w :
  let run :=
    serialize_hazard_curve fuel nrml_file key_template hc_attrib_update sites w in
  exists evs,
    w_log (snd run) = w_log w ++ evs /\
    Forall2 (curve_entry key_template hc_attrib_update) (found evs) (serialized_data evs) /\
    NoDup (serialized_data evs).*1.
Proof.
  cbv zeta.
  destruct (serialize_hazard_curve_found fuel nrml_file key_template hc_attrib_update
              sites w) as (r & w' & evs & E & Hlog & Hfound & _).
  destruct (serialize_hazard_curve_polling fuel nrml_file key_template
              hc_attrib_update sites w)
    as (blocks & cblock & x & r0 & w0 & evs0 & E0 & Hlog0 & Hrun).
  rewrite E in E0. injection E0 as _ <-.
  rewrite E. cbn [snd]. exists evs. splits; [exact Hlog|exact Hfound|].
  apply polling_batches in Hrun as (Hnd & _).
  assert (Hevs : evs = prelude_events (build_nrml_path nrml_file) blocks cblock ++ evs0).
  { rewrite Hlog in Hlog0. now apply app_inv_head in Hlog0. }
  assert (Hb : forall l, (serialized_data l).*1 = concat (serialized_batches l)).
  { clear. induction l as [|ev l IH]; [reflexivity|].
    destruct ev; try exact IH.
    unfold serialized_data, serialized_batches in *. cbn [omap list_omap concat].
    now rewrite fmap_app, IH. }
  rewrite Hb, Hevs, serialized_batches_app. exact Hnd.
Qed.

Lemma progress_lookup (batches : list (list Site)) :
  forall x0 : XSC,
    length (progress x0 batches) = length batches /\
    forall (n : nat) x batch,
      progress x0 batches !! n = Some x -> batches !! n = Some batch ->
      xsc_blocks x = xsc_blocks x0 /\ xsc_cblock x = xsc_cblock x0 /\
      i_total x = i_total x0 /\ i_next x = len batch /\
      i_done x = i_done x0 + len (concat (take n batches)).
Proof.
  induction batches as [|b batches IH]; intros x0.
  - split; [reflexivity|]. intros n x batch Hx. discriminate.
  - destruct (IH (advance x0 b)) as [Hlen Hstep].
    split; [simpl; now rewrite Hlen|].
    intros [|n] x batch Hx Hb; cbn in Hx, Hb.
    + injection Hx as <-. injection Hb as <-. cbn. splits; try reflexivity.
      unfold len. simpl. lia.
    + destruct (Hstep n x batch Hx Hb) as (H1 & H2 & H3 & H4 & H5).
      cbn [advance xsc_blocks xsc_cblock i_total i_done] in *.
      splits; try assumption. rewrite H5. cbn [take concat].
      unfold len. rewrite length_app. lia.
Qed.

(** X12: before each batch is handed to the writer, [serialize_hazard_curve]
    sets the serialization context: [blocks] and [cblock] are what the
    progress counters held when it was called, [i_total] is the length of the
    site list it was given, [i_next] the size of the batch at hand and
    [i_done] the number of sites in the batches written before it. *)
Theorem serialize_hazard_curve_progress fuel nrml_file key_template hc_attrib_update
    (sites : list Site) w :
  let run :=
    serialize_hazard_curve fuel nrml_file key_template hc_attrib_update sites w in
  exists evs,
    w_log (snd run) = w_log w ++ evs /\
    length (contexts evs) = length (serialized_batches evs) /\
    forall (n : nat) x batch,
      contexts evs !! n = Some x ->
      serialized_batches evs !! n = Some batch ->
      xsc_blocks x = w_pk w !! (job_id job_ctxt, "blocks") /\
      xsc_cblock x = w_pk w !! (job_id job_ctxt, "cblock") /\
      i_total x = len sites /\
      i_next x = len batch /\
      i_done x = len (concat (take n (serialized_batches evs))).
Proof.
  cbv zeta.
  destruct (serialize_hazard_curve_found fuel nrml_file key_template hc_attrib_update
              sites w) as (r & w' & evs & E & Hlog & _ & Hctx).
  rewrite E. cbn [snd]. exists evs. split; [exact Hlog|].
  rewrite Hctx.
  match goal with |- context [progress ?x0 _] =>
    destruct (progress_lookup (serialized_batches evs) x0) as [Hlen Hstep]
  end.
  split; [exact Hlen|].
  intros n x batch Hx Hb. exact (Hstep n x batch Hx Hb).
Qed.


(** ** The map serializers *)

(** The attributes of the map node of a site whose value [iml] was read from
    the cache ([None] when the key is absent). *)
Definition hm_attrib (poe : Q) (hm_attrib_update : kwargs) (iml : option value)
    : kwargs :=
  hm_attrib_update ∪
  (<["investigationTimeSpan" := INVESTIGATION_TIME job_ctxt]>
  (<["IMT" := INTENSITY_MEASURE_TYPE job_ctxt]>
  (<["vs30" := REFERENCE_VS30_VALUE job_ctxt]>
  (<["IML" := default VNone iml]>
  (<["poE" := VFloat poe]> ∅))))).

(** The paths of the writers created, in order. *)
Definition writers (evs : list Event) : list string :=
  omap (fun ev => match ev with
                  | EvCreateWriter nrml_path => Some nrml_path
                  | _ => None
                  end) evs.

Lemma hazard_map_reads key_template poe hm_attrib_update (sites : list Site) :
  forall hm_data w, exists reads w',
    for_fold sites (fun site hm_data =>
      let* iml := get_value_json_decoded (fmt key_template (hash site)) in
      ret (hm_data ++ [(site, hm_attrib poe hm_attrib_update iml)])) hm_data w
    = (Ok (hm_data ++
           zip_with (fun site iml => (site, hm_attrib poe hm_attrib_update iml))
             sites reads), w') /\
    length reads = length sites /\
    w_log w' = w_log w ++
      zip_with (fun site iml => EvKvsGet (fmt key_template (hash site)) iml) sites reads /\
    w_pk w' = w_pk w.
Proof.
  induction sites as [|site sites IH]; intros hm_data w.
  - exists [], w. cbn. unfold ret. rewrite !app_nil_r. auto.
  - cbn [for_fold]. unfold bind at 1. unfold bind at 1.
    unfold get_value_json_decoded at 1. cbv beta zeta. unfold ret at 1.
    match goal with |- context [for_fold sites _ ?d ?w1] =>
      destruct (IH d w1) as (reads & w' & E & Hlen & Hlog & Hpk)
    end.
    cbn [w_log w_pk] in Hlog, Hpk.
    exists (workers (w_log w) (w_kvs w) !! fmt key_template (hash site) :: reads), w'.
    splits.
    + rewrite E. cbn [zip_with]. now rewrite <- app_assoc.
    + simpl. now rewrite Hlen.
    + rewrite Hlog. cbn [zip_with]. now rewrite <- app_assoc.
    + exact Hpk.
Qed.

Lemma serialize_hazard_map_at_poe_run (sites : list Site) poe key_template
    hm_attrib_update nrml_file w :
  exists (reads : list (option value)) w',
    serialize_hazard_map_at_poe sites poe key_template hm_attrib_update nrml_file w
      = (Ok (build_nrml_path nrml_file), w') /\
    length reads = length sites /\
    w_log w' = w_log w ++
      [EvLog "Generating NRML hazard map file for PoE %s, %s nodes in hazard map: %s"
         [len sites];
       EvCreateWriter (build_nrml_path nrml_file)] ++
      zip_with (fun site iml => EvKvsGet (fmt key_template (hash site)) iml) sites reads ++
      [EvLog ">> path: %s" [];
       EvPkGet (job_id job_ctxt) "blocks" (w_pk w !! (job_id job_ctxt, "blocks"));
       EvPkGet (job_id job_ctxt) "cblock" (w_pk w !! (job_id job_ctxt, "cblock"));
       EvSerializerContext
         {| xsc_blocks := w_pk w !! (job_id job_ctxt, "blocks");
            xsc_cblock := w_pk w !! (job_id job_ctxt, "cblock");
            i_total := len sites; i_done := 0; i_next := len sites |};
       EvSerialize (build_nrml_path nrml_file)
         (zip_with (fun site iml => (site, hm_attrib poe hm_attrib_update iml))
            sites reads)].
Proof.
  unfold serialize_hazard_map_at_poe.
  unfold bind at 1. unfold emit at 1. cbv beta iota.
  unfold bind at 1. unfold emit at 1. cbv beta iota.
  unfold bind at 1. cbv zeta.
  match goal with |- context [for_fold sites _ ?d ?w1] =>
    destruct (hazard_map_reads key_template poe hm_attrib_update sites d w1)
      as (reads & w' & E & Hlen & Hlog & Hpk)
  end.
  unfold hm_attrib at 1 in E. rewrite E. cbn [w_log w_pk app] in Hlog, Hpk |- *.
  unfold bind, emit, pk_get, ret. cbn [w_log w_pk w_kvs].
  exists reads. eexists. splits; [reflexivity|exact Hlen|].
  cbn [w_log]. rewrite Hlog, !Hpk. unfold len.
  rewrite length_zip_with, Hlen, Nat.min_id.
  now rewrite <- !app_assoc.
Qed.

(** X13: [serialize_hazard_map_at_poe] does not wait for anything and always
    returns the path of its file.  It reads the key of every site of the list
    once, in the order of the list, and hands one entry per site to the
    writer in that order; a site whose key is absent from the cache is
    written with [IML = None].  The context it sets carries the counters
    [blocks] and [cblock] and the length of the site list as [i_total] and
    [i_next]. *)
Theorem serialize_hazard_map_at_poe_writes_every_site (sites : list Site) poe
    key_template hm_attrib_update nrml_file w :
  let run :=
    serialize_hazard_map_at_poe sites poe key_template hm_attrib_update nrml_file w in
  let nrml_path := build_nrml_path nrml_file in
  exists reads : list (option value),
    length reads = length sites /\
    fst run = Ok nrml_path /\
    w_log (snd run) = w_log w ++
      [EvLog "Generating NRML hazard map file for PoE %s, %s nodes in hazard map: %s"
         [len sites];
       EvCreateWriter nrml_path] ++
      zip_with (fun site iml => EvKvsGet (fmt key_template (hash site)) iml) sites reads ++
      [EvLog ">> path: %s" [];
       EvPkGet (job_id job_ctxt) "blocks" (w_pk w !! (job_id job_ctxt, "blocks"));
       EvPkGet (job_id job_ctxt) "cblock" (w_pk w !! (job_id job_ctxt, "cblock"));
       EvSerializerContext
         {| xsc_blocks := w_pk w !! (job_id job_ctxt, "blocks");
            xsc_cblock := w_pk w !! (job_id job_ctxt, "cblock");
            i_total := len sites; i_done := 0; i_next := len sites |};
       EvSerialize nrml_path
         (zip_with (fun site iml => (site, hm_attrib poe hm_attrib_update iml))
            sites reads)].
Proof.
  cbv zeta.
  destruct (serialize_hazard_map_at_poe_run sites poe key_template hm_attrib_update
              nrml_file w) as (reads & w' & E & Hlen & Hlog).
  rewrite E. exists reads. splits; [exact Hlen|reflexivity|exact Hlog].
Qed.

Lemma fst_zip_with {A B C} (f : A -> B -> C) (l : list A) (k : list B) :
  length k = length l -> (zip_with (fun a b => (a, f a b)) l k).*1 = l.
Proof.
  revert k. induction l as [|a l IH]; intros [|b k] Hlen; try discriminate;
    [reflexivity|].
  cbn. f_equal. apply IH. now injection Hlen.
Qed.

Lemma writers_gets (sites : list Site) key_template (reads : list (option value)) :
  writers (zip_with (fun site iml => EvKvsGet (fmt key_template (hash site)) iml)
             sites reads) = [] /\
  serialized_batches
    (zip_with (fun site iml => EvKvsGet (fmt key_template (hash site)) iml)
       sites reads) = [].
Proof.
  revert reads. induction sites as [|site sites IH]; intros [|iml reads];
    try (split; reflexivity).
  destruct (IH reads) as [H1 H2]. split; [exact H1|exact H2].
Qed.

(** One map: one writer, one batch with every site. *)
Lemma hazard_map_file (sites : list Site) poe key_template hm_attrib_update nrml_file w :
  exists w' evs,
    serialize_hazard_map_at_poe sites poe key_template hm_attrib_update nrml_file w
      = (Ok (build_nrml_path nrml_file), w') /\
    w_log w' = w_log w ++ evs /\
    writers evs = [build_nrml_path nrml_file] /\
    serialized_batches evs = [sites].
Proof.
  destruct (serialize_hazard_map_at_poe_run sites poe key_template hm_attrib_update
              nrml_file w) as (reads & w' & E & Hlen & Hlog).
  eexists w', _. splits; [exact E|exact Hlog| |].
  - unfold writers. rewrite !omap_app.
    destruct (writers_gets sites key_template reads) as [Hw _].
    unfold writers in Hw. rewrite Hw. reflexivity.
  - rewrite !serialized_batches_app.
    destruct (writers_gets sites key_template reads) as [_ Hb]. rewrite Hb.
    cbn [serialized_batches omap list_omap app]. now rewrite fst_zip_with.
Qed.

Lemma hazard_map_files (sites : list Site) (A : Type) (items : list A)
    (poe_of : A -> Q) (template_of : A -> Template) (update_of : A -> kwargs)
    (file_of : A -> string) :
  forall w, exists w' evs,
    for_ items (fun a =>
      serialize_hazard_map_at_poe sites (poe_of a) (template_of a) (update_of a)
        (file_of a) >> ret tt) w = (Ok tt, w') /\
    w_log w' = w_log w ++ evs /\
    writers evs = (fun a => build_nrml_path (file_of a)) <$> items /\
    serialized_batches evs = (fun _ => sites) <$> items.
Proof.
  induction items as [|a items IH]; intros w.
  - exists w, []. cbn. unfold ret. now rewrite app_nil_r.
  - cbn [for_]. unfold bind at 1. unfold bind at 1.
    destruct (hazard_map_file sites (poe_of a) (template_of a) (update_of a)
                (file_of a) w) as (w1 & evs1 & E1 & Hlog1 & Hw1 & Hb1).
    rewrite E1. unfold ret at 1.
    destruct (IH w1) as (w' & evs & E & Hlog & Hw & Hb).
    exists w', (evs1 ++ evs). splits.
    + exact E.
    + rewrite Hlog, Hlog1. now rewrite <- app_assoc.
    + unfold writers in *. rewrite omap_app, Hw1, Hw. reflexivity.
    + rewrite serialized_batches_app, Hb1, Hb. reflexivity.
Qed.

(** X14: [serialize_mean_hazard_map] and [serialize_quantile_hazard_map]
    always return, and write one map file per PoE, in the order of the PoEs:
    the file of a PoE is the one named by [mean_hazard_map_filename], or by
    [quantile_hazard_map_filename] for the quantile, whose result (already a
    path) goes through [build_nrml_path] once more; every file gets the whole
    site list, in the order given. *)
Theorem serialize_hazard_maps_one_file_per_poe (sites : list Site) (poes : list Q)
    (quantile : Q) w :
  (exists w' evs,
     serialize_mean_hazard_map sites poes w = (Ok tt, w') /\
     w_log w' = w_log w ++ evs /\
     writers evs = (fun poe => build_nrml_path (mean_hazard_map_filename poe)) <$> poes /\
     serialized_batches evs = (fun _ => sites) <$> poes) /\
  (exists w' evs,
     serialize_quantile_hazard_map sites poes quantile w = (Ok tt, w') /\
     w_log w' = w_log w ++ evs /\
     writers evs =
       (fun poe => build_nrml_path (quantile_hazard_map_filename quantile poe))
         <$> poes /\
     serialized_batches evs = (fun _ => sites) <$> poes).
Proof.
  split.
  - exact (hazard_map_files sites Q poes (fun poe => poe)
             (fun poe => mean_hazard_map_key_template (job_id job_ctxt) poe)
             (fun _ => {[ "statistics" := VStr "mean" ]})
             mean_hazard_map_filename w).
  - exact (hazard_map_files sites Q poes (fun poe => poe)
             (fun poe => quantile_hazard_map_key_template (job_id job_ctxt) poe quantile)
             (fun _ => <["statistics" := VStr "quantile"]>
                         (<["quantileValue" := VFloat quantile]> ∅))
             (quantile_hazard_map_filename quantile) w).
Qed.


(** ** What distribute logs *)

(** [distribute] logs its two debug lines and the task set it applies; what
    follows is logged by the task handler, or is the join of the results. *)
Lemma distribute_trace (P : Event -> bool) task_func name data tf_args ath ath_args
    flatten_results w :
  (forall results, P (EvJoinNative results) = true) ->
  (forall f, ath = Some f ->
     only P (f (if truthy ath_args then default ∅ ath_args else ∅))) ->
  exists r w' evs,
    distribute task_func name data tf_args ath ath_args flatten_results w = (r, w') /\
    w_log w' = w_log w ++
      [EvLog "-data_length: %s" [len data];
       EvLog "-#subtasks: %s" [len data];
       EvApplyAsync (task_name task_func) (subtask_kwargs name tf_args <$> data)] ++ evs /\
    forallb P evs = true.
Proof.
  intros Hjoin Hath. rewrite distribute_unfold. cbv zeta.
  set (w1 := submitted task_func name data tf_args w).
  assert (Hw1 : forall w' evs, w_log w' = w_log w1 ++ evs ->
            w_log w' = w_log w ++
              [EvLog "-data_length: %s" [len data];
               EvLog "-#subtasks: %s" [len data];
               EvApplyAsync (task_name task_func) (subtask_kwargs name tf_args <$> data)]
              ++ evs).
  { intros w' evs ->. unfold w1, submitted. cbn [w_log]. now rewrite <- app_assoc. }
  destruct (ignore_result task_func).
  - destruct ath as [f|].
    + destruct (Hath f eq_refl w1) as (evs & Hlog & Hp).
      destruct (truthy ath_args);
        match goal with |- context [f ?kw w1] =>
          destruct (f kw w1) as [r w'] eqn:E; exists r, w', evs;
          cbn [snd] in Hlog; auto
        end.
    + exists (Ok VNone), w1, []. splits; [reflexivity| |reflexivity].
      apply Hw1. now rewrite app_nil_r.
  - match goal with |- context [collect ?t ?res ?fl w1] =>
      pose proof (collect_world t res fl w1) as Hc;
      destruct (collect t res fl w1) as [r w'] eqn:E
    end.
    cbn [snd] in Hc. subst w'.
    eexists r, _, [EvJoinNative _]. splits; [reflexivity| |].
    + apply Hw1. reflexivity.
    + cbn. now rewrite Hjoin.
Qed.

(** ** do_curves: the subtasks *)

(** The task sets applied, in order: the name of the task and the keyword
    arguments of its subtasks. *)
Definition submissions (evs : list Event) : list (string * list kwargs) :=
  omap (fun ev => match ev with
                  | EvApplyAsync task subtasks => Some (task, subtasks)
                  | _ => None
                  end) evs.




(** The keyword arguments of the subtasks of one realization: one subtask
    per site, with the site alone in its list of sites. *)
Definition curve_subtasks (sites : list Site) (realization : Z) : list kwargs :=
  (fun site =>
     <["sites" := VList [VSite site]]>
       (<["job_id" := VInt (job_id job_ctxt)]>
          (<["realization" := VInt realization]> ∅)))
    <$> sites.


Lemma serializer_ath_hazard_curve_of_realization allowed fuel kw :
  (forall sites realization s,
     arg_sites kw = Some sites -> kw !! "realization" = Some (VInt realization) ->
     s ∈ sites ->
     allowed (fmt (hazard_curve_poes_key_template (job_id job_ctxt) realization)
                (hash s)) = true) ->
  only (serializer_event allowed) (ath_hazard_curve_of_realization fuel kw).
Proof.
  intros Hk. unfold ath_hazard_curve_of_realization.
  destruct (arg_sites kw) as [sites|]; [|apply only_raise].
  destruct (kw !! "realization") as [[]|]; try apply only_raise.
  only_step; [|apply only_ret].
  unfold serialize_hazard_curve_of_realization. only_step; [|apply only_ret].
  apply serializer_serialize_hazard_curve. intros s Hs. now apply (Hk sites).
Qed.



(** ** execute: the keys it reports as purged *)

Lemma execute_block_purged fuel data realizations purged w p w' :
  execute_block fuel data realizations purged w = (Ok p, w') ->
  p = extend purged
        (concat (purge_batches (job_id job_ctxt) data realizations
                   (quantile_levels job_ctxt) (poes_hazard_maps job_ctxt))).
Proof.
  unfold execute_block. unfold bind at 1. unfold emit at 1. cbv beta iota.
  unfold bind at 1.
  match goal with |- context [do_curves ?a ?b ?c ?d ?w1] =>
    destruct (do_curves a b c d w1) as [[[]|e|] w2]
  end; try discriminate.
  unfold bind at 1. unfold emit at 1. cbv beta iota. unfold bind at 1.
  match goal with |- context [do_means ?a ?b ?c ?d ?e ?f ?w1] =>
    destruct (do_means a b c d e f w1) as [[[]|e0|] w3]
  end; try discriminate.
  unfold bind at 1. unfold emit at 1. cbv beta iota. unfold bind at 1.
  match goal with |- context [do_quantiles ?a ?b ?q ?c ?d ?e ?f ?w1] =>
    destruct (do_quantiles a b q c d e f w1) as [[[]|e0|] w4]
  end; try discriminate.
  rewrite release_data_from_kvs_run. cbv zeta. now intros [= <- _].
Qed.

Lemma blocks_purged fuel realizations (slices : list (list Site)) :
  forall purged w p w',
    for_fold slices (block_body fuel realizations) purged w = (Ok p, w') ->
    p = extend purged
          (concat ((fun data =>
                      concat (purge_batches (job_id job_ctxt) data realizations
                                (quantile_levels job_ctxt) (poes_hazard_maps job_ctxt)))
                     <$> slices)).
Proof.
  induction slices as [|data slices IH]; intros purged w p w' E.
  - injection E as <- _. cbn. now rewrite extend_nil.
  - cbn [for_fold] in E. unfold bind at 1 in E. unfold block_body at 1 in E.
    unfold bind at 1 in E. unfold pk_inc at 1 in E. cbv beta iota in E.
    match type of E with context [execute_block ?f ?d ?r ?p0 ?w1] =>
      destruct (execute_block f d r p0 w1) as [[p1|e|] w2] eqn:E1
    end; try discriminate.
    apply execute_block_purged in E1. apply IH in E. subst p p1.
    rewrite extend_app. reflexivity.
Qed.

(** X16: when [execute] returns, the list a test passed in as
    [kvs_keys_purged] has been extended by the keys deleted for the first
    block, then by those of the second, and so on; taken together these are
    exactly the keys of the realization curves, the mean curves, the quantile
    curves, the mean maps and the quantile maps of the sites of the job. *)
Theorem execute_reports_purged_keys fuel (purged : list Key) w p :
  0 < hazard_block_size job_ctxt ->
  fst (execute fuel (Some purged) w) = Ok p ->
  let realizations := NUMBER_OF_LOGIC_TREE_SAMPLES job_ctxt in
  let quantiles := quantile_levels job_ctxt in
  let poes := poes_hazard_maps job_ctxt in
  let keys :=
    concat ((fun data =>
               concat (purge_batches (job_id job_ctxt) data realizations quantiles poes))
              <$> block_slices (sites_to_compute job_ctxt) (hazard_block_size job_ctxt)) in
  p = Some (purged ++ keys) /\
  forall key,
    key ∈ keys <->
    purge_key (job_id job_ctxt) (sites_to_compute job_ctxt) realizations quantiles poes key.
Proof.
  intros Hb E realizations quantiles poes keys.
  destruct (block_slices_partition (sites_to_compute job_ctxt)
              (hazard_block_size job_ctxt) Hb) as [Hcat _].
  split.
  - rewrite (execute_decompose fuel (Some purged) w Hb) in E.
    unfold bind in E.
    destruct (execute_prologue w) as [[[]|e|] w1]; try discriminate.
    destruct (for_fold _ _ _ w1) as [[p1|e|] w2] eqn:E1; try discriminate.
    cbn [fst] in E. injection E as ->.
    apply blocks_purged in E1. exact E1.
  - intros key. subst keys. rewrite elem_of_concat_fmap.
    assert (Hin : forall site,
              site ∈ sites_to_compute job_ctxt <->
              exists data,
                data ∈ block_slices (sites_to_compute job_ctxt)
                         (hazard_block_size job_ctxt) /\ site ∈ data).
    { intros site. rewrite <- Hcat at 1.
      rewrite <- (list_fmap_id (block_slices _ _)) at 1.
      rewrite elem_of_concat_fmap. reflexivity. }
    split.
    + intros (data & Hdata & Hkey). apply elem_of_purge_batches in Hkey.
      assert (Hsub : forall site, site ∈ data -> site ∈ sites_to_compute job_ctxt).
      { intros site Hs. apply Hin. eauto. }
      unfold purge_key in *.
      destruct Hkey as [(r & s & Hr & Hs & ->)|[(s & Hs & ->)|[(q & s & Hq & Hs & ->)
                       |[(pe & s & Hp & Hs & ->)|(pe & q & s & Hp & Hq & Hs & ->)]]]].
      * left. exists r, s. auto.
      * right. left. exists s. auto.
      * right. right. left. exists q, s. auto.
      * right. right. right. left. exists pe, s. auto.
      * right. right. right. right. exists pe, q, s. auto.
    + intros Hkey.
      assert (Hpick : forall site, site ∈ sites_to_compute job_ctxt ->
                (forall data, site ∈ data ->
                   purge_key (job_id job_ctxt) data realizations quantiles poes key) ->
                exists data,
                  data ∈ block_slices (sites_to_compute job_ctxt)
                           (hazard_block_size job_ctxt) /\
                  key ∈ concat (purge_batches (job_id job_ctxt) data realizations
                                  quantiles poes)).
      { intros site Hs Hk. apply Hin in Hs as (data & Hdata & Hs).
        exists data. split; [exact Hdata|]. apply elem_of_purge_batches. now apply Hk. }
      unfold purge_key in *.
      destruct Hkey as [(r & s & Hr & Hs & ->)|[(s & Hs & ->)|[(q & s & Hq & Hs & ->)
                       |[(pe & s & Hp & Hs & ->)|(pe & q & s & Hp & Hq & Hs & ->)]]]];
        apply (Hpick s Hs); intros data Hd.
      * left. exists r, s. auto.
      * right. left. exists s. auto.
      * right. right. left. exists q, s. auto.
      * right. right. right. left. exists pe, s. auto.
      * right. right. right. right. exists pe, q, s. auto.
Qed.


(** ** execute: a failure recorded before the first poll *)

Lemma arg_sites_insert (sites : list Site) (m : kwargs) :
  arg_sites (<["sites" := VList (VSite <$> sites)]> m) = Some sites.
Proof.
  unfold arg_sites. rewrite lookup_insert_eq. f_equal.
  induction sites as [|s sites IH]; [reflexivity|].
  cbn [fmap list_fmap omap list_omap]. now rewrite IH.
Qed.

Lemma truthy_insert (k : string) (v : value) (m : kwargs) :
  truthy (Some (<[k := v]> m)) = true.
Proof.
  unfold truthy. rewrite bool_decide_eq_false_2; [reflexivity|apply insert_non_empty].
Qed.

Lemma xrange_positive (stop : Z) : 0 < stop -> exists l, xrange 0 stop = 0 :: l.
Proof.
  intros Hs. unfold xrange.
  destruct (Z.to_nat (stop - 0)) as [|n] eqn:En; [lia|].
  exists ((fun i => 0 + Z.of_nat i) <$> seq 1 n). reflexivity.
Qed.

(** With a failure on record, the first check of the polling loop ends
    [serialize_hazard_curve]: the cache is not read. *)
Lemma serialize_hazard_curve_fails fuel nrml_file key_template hc_attrib_update
    (sites : list Site) w :
  (forall log, failure_counters log <> []) ->
  sites <> [] ->
  exists failures blocks cblock w',
    failures <> [] /\
    serialize_hazard_curve (S fuel) nrml_file key_template hc_attrib_update sites w
      = (Raise (RuntimeError failures), w') /\
    w_log w' = w_log w ++
      [EvPkGet (job_id job_ctxt) "blocks" blocks;
       EvPkGet (job_id job_ctxt) "cblock" cblock;
       EvCreateWriter (build_nrml_path nrml_file);
       EvFailureCounters (job_id job_ctxt) failures] /\
    w_kvs w' = w_kvs w.
Proof.
  intros Hf Hne. unfold serialize_hazard_curve.
  unfold bind at 1. unfold pk_get at 1. cbv beta zeta.
  unfold bind at 1. unfold pk_get at 1. cbv beta zeta.
  unfold bind at 1. unfold emit at 1. cbv beta iota.
  cbn [w_log w_kvs w_pk]. unfold bind at 1. cbn [poll_loop].
  destruct (decide _) as [Hd|Hd].
  { exfalso. unfold poll_init in Hd. cbn in Hd.
    destruct sites as [|s sites]; [now apply Hne|].
    assert (Hs : s ∈ (list_to_set (s :: sites) : gset Site))
      by (apply elem_of_list_to_set; left).
    rewrite <- Hd in Hs. now apply elem_of_empty in Hs. }
  unfold bind at 1. rewrite poll_body_abort by apply Hf.
  eexists _, _, _, _. splits; [apply Hf|reflexivity| |reflexivity].
  cbn [w_log]. now rewrite <- !app_assoc.
Qed.

Lemma do_curves_fails fuel (sites : list Site) realizations w :
  (forall log, failure_counters log <> []) ->
  sites <> [] ->
  0 < realizations ->
  exists failures seed1 seed2 blocks cblock w',
    failures <> [] /\
    do_curves sites realizations (Some (ath_hazard_curve_of_realization (S fuel)))
      compute_hazard_curve w = (Raise (RuntimeError failures), w') /\
    w_log w' = w_log w ++
      [EvPkSet (job_id job_ctxt) "hcls_crealization" 0;
       EvPkInc (job_id job_ctxt) "hcls_crealization";
       EvLog "Calculating hazard curves for realization %s" [0];
       EvStoreSourceModel seed1;
       EvStoreGmpeMap seed2;
       EvLog "-data_length: %s" [len sites];
       EvLog "-#subtasks: %s" [len sites];
       EvApplyAsync "compute_hazard_curve" (curve_subtasks sites 0);
       EvPkGet (job_id job_ctxt) "blocks" blocks;
       EvPkGet (job_id job_ctxt) "cblock" cblock;
       EvCreateWriter (build_nrml_path (hazard_curve_filename 0));
       EvFailureCounters (job_id job_ctxt) failures] /\
    w_kvs w' = w_kvs w.
Proof.
  intros Hf Hne Hr. unfold do_curves.
  destruct (xrange_positive realizations Hr) as [l ->].
  unfold bind at 1. unfold pk_set at 1. cbv beta iota.
  unfold bind at 1. cbn [for_fold]. unfold bind at 1.
  unfold bind at 1. unfold pk_inc at 1. cbv beta iota.
  unfold bind at 1. unfold emit at 1. cbv beta iota.
  destruct (getrandbits (rng_seed (SOURCE_MODEL_LT_RANDOM_SEED job_ctxt)) 32)
    as [b1 g1].
  unfold bind at 1. unfold store_source_model, emit at 1. cbv beta iota.
  destruct (getrandbits g1 32) as [b2 g2].
  unfold bind at 1. unfold store_gmpe_map, emit at 1. cbv beta iota.
  unfold bind at 1. rewrite distribute_unfold. cbv zeta.
  cbn [compute_hazard_curve ignore_result task_name].
  rewrite truthy_insert. cbn [default from_option id]. cbv beta iota.
  unfold ath_hazard_curve_of_realization.
  rewrite arg_sites_insert.
  rewrite lookup_insert_ne by discriminate. rewrite lookup_insert_eq.
  unfold bind at 1. unfold serialize_hazard_curve_of_realization. unfold bind at 1.
  match goal with |- context [serialize_hazard_curve _ ?f ?k ?u _ ?w1] =>
    destruct (serialize_hazard_curve_fails fuel f k u sites w1 Hf Hne)
      as (failures & blocks & cblock & w' & Hfs & E & Hlog & Hkvs)
  end.
  rewrite E.
  exists failures, b1, b2, blocks, cblock, w'.
  splits; [exact Hfs|reflexivity| |exact Hkvs].
  rewrite Hlog. unfold submitted. cbn [w_log].
  assert (Hsub : subtask_kwargs "sites"
            (Some (<["job_id" := VInt (job_id job_ctxt)]>
                     (<["realization" := VInt 0]> ∅)))
            <$> ((fun s => VList [VSite s]) <$> sites)
          = curve_subtasks sites 0).
  { unfold curve_subtasks. now rewrite <- list_fmap_compose. }
  rewrite Hsub. unfold len. rewrite length_fmap.
  now rewrite <- !app_assoc.
Qed.

Lemma execute_first_check_fails fuel purged w :
  0 < hazard_block_size job_ctxt ->
  sites_to_compute job_ctxt <> [] ->
  0 < NUMBER_OF_LOGIC_TREE_SAMPLES job_ctxt ->
  (forall log, failure_counters log <> []) ->
  let first_block :=
    take (Z.to_nat (hazard_block_size job_ctxt)) (sites_to_compute job_ctxt) in
  exists failures w' evs,
    failures <> [] /\
    execute (S fuel) purged w = (Raise (RuntimeError failures), w') /\
    w_log w' = w_log w ++ evs /\
    w_kvs w' = w_kvs w /\
    last evs = Some (EvFailureCounters (job_id job_ctxt) failures) /\
    phases evs = [Curves] /\
    submissions evs = [("compute_hazard_curve", curve_subtasks first_block 0)] /\
    writers evs = [build_nrml_path (hazard_curve_filename 0)] /\
    forallb (fun ev => negb (is_get ev)) evs = true /\
    serialized_batches evs = [].
Proof.
  intros Hb Hne Hr Hf first_block.
  rewrite (execute_decompose (S fuel) purged w Hb).
  destruct (block_slices_partition (sites_to_compute job_ctxt)
              (hazard_block_size job_ctxt) Hb) as [Hcat Hslice].
  destruct (block_slices (sites_to_compute job_ctxt) (hazard_block_size job_ctxt))
    as [|data slices] eqn:Es.
  { exfalso. apply Hne. now rewrite <- Hcat. }
  destruct (Hslice 0%nat data eq_refl) as (Hdata & Hdne & _).
  change (data = first_block) in Hdata. subst data.
  unfold bind at 1. unfold execute_prologue.
  unfold bind at 1. unfold emit at 1. cbv beta iota.
  unfold bind at 1. unfold pk_set at 1. cbv beta iota.
  unfold bind at 1. unfold pk_set at 1. cbv beta iota.
  unfold bind at 1. unfold pk_set at 1. cbv beta iota.
  unfold bind at 1. unfold pk_set at 1. cbv beta iota.
  unfold pk_set at 1. cbv beta iota.
  cbn [for_fold]. unfold bind at 1. unfold block_body at 1.
  unfold bind at 1. unfold pk_inc at 1. cbv beta iota.
  unfold execute_block. unfold bind at 1. unfold emit at 1. cbv beta iota.
  unfold bind at 1.
  match goal with |- context [do_curves _ _ _ _ ?w1] =>
    destruct (do_curves_fails fuel first_block
                (NUMBER_OF_LOGIC_TREE_SAMPLES job_ctxt) w1 Hf Hdne Hr)
      as (failures & seed1 & seed2 & blocks & cblock & w' & Hfs & E & Hlog & Hkvs)
  end.
  rewrite E. cbn [w_log w_kvs] in Hlog, Hkvs.
  eexists failures, w', _. split; [exact Hfs|]. split; [reflexivity|].
  split; [rewrite Hlog; rewrite <- !app_assoc; reflexivity|].
  split; [exact Hkvs|].
  splits; reflexivity.
Qed.

(** X17: if a failure of the job is on record when [execute] starts (and
    stays on record), the run ends in the first block, at the first check of
    the polling loop of the first realization: [execute] raises
    [RuntimeError] with the failures.  By then the task set of the first
    realization of the first block has been applied and the writer of its
    file created, and nothing else: the cache has not been read or changed,
    nothing is serialized, no later phase is entered and nothing is purged. *)
Theorem execute_aborts_on_recorded_failure fuel purged w :
  0 < hazard_block_size job_ctxt ->
  sites_to_compute job_ctxt <> [] ->
  0 < NUMBER_OF_LOGIC_TREE_SAMPLES job_ctxt ->
  (forall log, failure_counters log <> []) ->
  let run := execute (S fuel) purged w in
  let first_block :=
    take (Z.to_nat (hazard_block_size job_ctxt)) (sites_to_compute job_ctxt) in
  exists failures evs,
    failures <> [] /\
    fst run = Raise (RuntimeError failures) /\
    w_log (snd run) = w_log w ++ evs /\
    w_kvs (snd run) = w_kvs w /\
    last evs = Some (EvFailureCounters (job_id job_ctxt) failures) /\
    phases evs = [Curves] /\
    submissions evs = [("compute_hazard_curve", curve_subtasks first_block 0)] /\
    writers evs = [build_nrml_path (hazard_curve_filename 0)] /\
    forallb (fun ev => negb (is_get ev)) evs = true /\
    serialized_batches evs = [].
Proof.
  intros Hb Hne Hr Hf run first_block. subst run.
  destruct (execute_first_check_fails fuel purged w Hb Hne Hr Hf)
    as (failures & w' & evs & Hfs & E & H).
  rewrite E. exists failures, evs. split; [exact Hfs|]. split; [reflexivity|exact H].
Qed.


(** ** What a block reads from the cache *)

(** Every read of the cache is at a key [allowed]. *)
Definition reads_within (allowed : Key -> bool) (ev : Event) : bool :=
  match ev with
  | EvKvsGet key _ => allowed key
  | _ => true
  end.

Lemma serializer_reads_within allowed ev :
  serializer_event allowed ev = true -> reads_within allowed ev = true.
Proof. destruct ev; simpl; auto. Qed.

Lemma only_distribute_at (P : Event -> bool) task_func name data tf_args ath ath_args
    flatten_results :
  (forall ev, is_get ev = false -> P ev = true) ->
  (forall f, ath = Some f ->
     only P (f (if truthy ath_args then default ∅ ath_args else ∅))) ->
  only P (distribute task_func name data tf_args ath ath_args flatten_results).
Proof.
  intros HP Hath w.
  destruct (distribute_trace P task_func name data tf_args ath ath_args
              flatten_results w) as (r & w' & evs & E & Hlog & Hp);
    [intros; now apply HP|exact Hath|].
  rewrite E. eexists. split; [exact Hlog|].
  cbn [app forallb]. now rewrite !HP, Hp by reflexivity.
Qed.

Lemma reads_not_get allowed ev : is_get ev = false -> reads_within allowed ev = true.
Proof. destruct ev; simpl; try reflexivity; discriminate. Qed.

Lemma arg_quantiles_insert (quantiles : list Q) (m : kwargs) :
  arg_quantiles (<["sites" := VList (VSite <$> ([] : list Site))]> m) = arg_quantiles m /\
  arg_quantiles (<["quantiles" := VList (VFloat <$> quantiles)]> m) = Some quantiles.
Proof.
  unfold arg_quantiles. split.
  - now rewrite lookup_insert_ne by discriminate.
  - rewrite lookup_insert_eq. f_equal.
    induction quantiles as [|q quantiles IH]; [reflexivity|].
    cbn [fmap list_fmap omap list_omap]. now rewrite IH.
Qed.

Lemma reads_do_curves allowed fuel (sites : list Site) realizations :
  (forall realization s,
     0 <= realization < realizations -> s ∈ sites ->
     allowed (fmt (hazard_curve_poes_key_template (job_id job_ctxt) realization)
                (hash s)) = true) ->
  only (reads_within allowed)
    (do_curves sites realizations (Some (ath_hazard_curve_of_realization fuel))
       compute_hazard_curve).
Proof.
  intros Hk. unfold do_curves. only_step; [only_event|].
  only_step; [|apply only_ret].
  apply only_for_fold_in. intros realization Hr%elem_of_xrange [g gg].
  only_step; [only_event|]. only_step; [only_event|].
  destruct (getrandbits g 32) as [bits g1].
  unfold store_source_model, store_gmpe_map. only_step; [only_event|].
  destruct (getrandbits g1 32) as [bits' g2]. only_step; [only_event|].
  only_step; [|apply only_ret].
  apply only_distribute_at; [apply reads_not_get|]. intros f [= <-].
  rewrite truthy_insert. cbn [default from_option id].
  apply (only_weaken (serializer_event allowed)); [apply serializer_reads_within|].
  apply serializer_ath_hazard_curve_of_realization.
  intros sites' realization' s Hsites Hreal Hs.
  rewrite arg_sites_insert in Hsites. injection Hsites as <-.
  rewrite lookup_insert_ne in Hreal by discriminate.
  rewrite lookup_insert_eq in Hreal. injection Hreal as <-.
  now apply Hk.
Qed.

Lemma reads_hazard_maps allowed (sites : list Site) (A : Type) (items : list A)
    (poe_of : A -> Q) (template_of : A -> Template) (update_of : A -> kwargs)
    (file_of : A -> string) :
  (forall a s, a ∈ items -> s ∈ sites ->
     allowed (fmt (template_of a) (hash s)) = true) ->
  only (reads_within allowed)
    (for_ items (fun a =>
       serialize_hazard_map_at_poe sites (poe_of a) (template_of a) (update_of a)
         (file_of a) >> ret tt)).
Proof.
  intros Hk. apply only_for_in. intros a Ha.
  only_step; [|apply only_ret].
  apply (only_weaken (serializer_event allowed)); [apply serializer_reads_within|].
  apply serializer_serialize_hazard_map_at_poe. intros s Hs. now apply Hk.
Qed.

Lemma reads_do_means allowed fuel (sites : list Site) realizations :
  (forall s, s ∈ sites ->
     allowed (fmt (mean_hazard_curve_key_template (job_id job_ctxt)) (hash s)) = true) ->
  (forall poe s, poe ∈ poes_hazard_maps job_ctxt -> s ∈ sites ->
     allowed (fmt (mean_hazard_map_key_template (job_id job_ctxt) poe) (hash s)) = true) ->
  only (reads_within allowed)
    (do_means sites realizations (Some (ath_mean_hazard_curves fuel))
       compute_mean_curves (Some compute_mean_hazard_maps)
       (Some serialize_mean_hazard_map)).
Proof.
  intros Hcurve Hmap. unfold do_means. destruct (negb _); [apply only_ret|].
  only_step; [only_event|]. only_step.
  - apply only_distribute_at; [apply reads_not_get|]. intros f [= <-].
    unfold truthy. rewrite bool_decide_eq_false_2 by apply insert_non_empty.
    cbn [negb default from_option id].
    apply (only_weaken (serializer_event allowed)); [apply serializer_reads_within|].
    unfold ath_mean_hazard_curves.
    change ({[ "sites" := VList (VSite <$> sites) ]} : kwargs)
      with (<["sites" := VList (VSite <$> sites)]> (∅ : kwargs)).
    rewrite arg_sites_insert. only_step; [|apply only_ret].
    unfold serialize_mean_hazard_curves. only_step; [|apply only_ret].
    now apply serializer_serialize_hazard_curve.
  - destruct (poes_hazard_maps job_ctxt) as [|poe poes] eqn:Ep; [apply only_ret|].
    unfold compute_mean_hazard_maps.
    only_step; [only_event|]. only_step; [only_event|]. only_step; [only_event|].
    unfold serialize_mean_hazard_map. now apply reads_hazard_maps.
Qed.

Lemma reads_do_quantiles allowed fuel (sites : list Site) realizations
    (quantiles : list Q) :
  (forall quantile s, quantile ∈ quantiles -> s ∈ sites ->
     allowed (fmt (quantile_hazard_curve_key_template (job_id job_ctxt)
                     (VStr (str_float quantile))) (hash s)) = true) ->
  (forall poe quantile s,
     poe ∈ poes_hazard_maps job_ctxt -> quantile ∈ quantiles -> s ∈ sites ->
     allowed (fmt (quantile_hazard_map_key_template (job_id job_ctxt) poe quantile)
                (hash s)) = true) ->
  only (reads_within allowed)
    (do_quantiles sites realizations quantiles (Some (ath_quantile_hazard_curves fuel))
       compute_quantile_curves (Some compute_quantile_hazard_maps)
       (Some serialize_quantile_hazard_map)).
Proof.
  intros Hcurve Hmap. unfold do_quantiles.
  destruct quantiles as [|q0 quantiles0] eqn:Eq; [apply only_ret|].
  rewrite <- Eq in *. clear Eq.
  only_step; [only_event|]. only_step.
  - apply only_distribute_at; [apply reads_not_get|]. intros f [= <-].
    rewrite truthy_insert. cbn [default from_option id].
    apply (only_weaken (serializer_event allowed)); [apply serializer_reads_within|].
    unfold ath_quantile_hazard_curves. rewrite arg_sites_insert.
    unfold arg_quantiles. rewrite lookup_insert_ne by discriminate.
    destruct (arg_quantiles_insert quantiles ∅) as [_ Hq].
    unfold arg_quantiles in Hq. rewrite Hq.
    only_step; [|apply only_ret].
    unfold serialize_quantile_hazard_curves. apply only_for_in. intros quantile Hin.
    only_step; [|apply only_ret].
    apply serializer_serialize_hazard_curve. intros s Hs. now apply Hcurve.
  - destruct (poes_hazard_maps job_ctxt) as [|poe poes] eqn:Ep; [apply only_ret|].
    unfold compute_quantile_hazard_maps.
    only_step; [only_event|]. only_step; [only_event|]. only_step; [only_event|].
    apply only_for_in. intros quantile Hin. only_step; [only_event|].
    unfold serialize_quantile_hazard_map. apply reads_hazard_maps.
    intros poe' s Hp Hs. now apply Hmap.
Qed.

(** The keys a block may read: those its purge deletes, and the keys of the
    quantile curves under the template of [str(quantile)], under which
    [serialize_quantile_hazard_curves] reads them. *)
Definition block_keys (data : list Site) (realizations : Z) : list Key :=
  concat (purge_batches (job_id job_ctxt) data realizations
            (quantile_levels job_ctxt) (poes_hazard_maps job_ctxt)) ++
  concat ((fun quantile =>
             site_keys (quantile_hazard_curve_key_template (job_id job_ctxt)
                          (VStr (str_float quantile))) data)
            <$> quantile_levels job_ctxt).

(** X18: whatever a block of [execute] reads from the cache, in any of its
    phases and however the block ends, is at a key that the purge of the block
    deletes (the curves of the realizations, the mean curves, the mean and
    quantile maps of the sites of the block), or at the key of a quantile
    curve of a site of the block built from the template of [str(quantile)],
    where the purge builds it from the template of [quantile]. *)
Theorem execute_block_reads_what_it_purges fuel data realizations purged :
  only (reads_within (fun key => bool_decide (key ∈ block_keys data realizations)))
    (execute_block fuel data realizations purged).
Proof.
  set (allowed := fun key => bool_decide (key ∈ block_keys data realizations)).
  assert (Hpurge : forall key,
            purge_key (job_id job_ctxt) data realizations (quantile_levels job_ctxt)
              (poes_hazard_maps job_ctxt) key -> allowed key = true).
  { intros key Hk. apply bool_decide_eq_true_2. unfold block_keys.
    apply elem_of_app. left. now apply elem_of_purge_batches. }
  unfold execute_block.
  only_step; [only_event|]. only_step.
  { apply reads_do_curves. intros r s Hr Hs. apply Hpurge. left. now exists r, s. }
  only_step; [only_event|]. only_step.
  { apply reads_do_means.
    - intros s Hs. apply Hpurge. right. left. now exists s.
    - intros poe s Hp Hs. apply Hpurge. right. right. right. left. now exists poe, s. }
  only_step; [only_event|]. only_step.
  { apply reads_do_quantiles.
    - intros q s Hq Hs. apply bool_decide_eq_true_2. unfold block_keys.
      apply elem_of_app. right. apply elem_of_concat_fmap. exists q.
      split; [exact Hq|]. apply elem_of_site_keys. now exists s.
    - intros poe q s Hp Hq Hs. apply Hpurge. right. right. right. right.
      now exists poe, q, s. }
  intros w. rewrite release_data_from_kvs_run. cbv zeta. cbn [snd purged_world w_log].
  eexists. split; [reflexivity|].
  apply forallb_forall. intros ev Hev. apply in_map_iff in Hev as (keys & <- & _).
  reflexivity.
Qed.


(** ** The block counters and the serialization contexts *)

(** [steady m]: [m] leaves the counters [blocks] and [cblock] of the job as
    they are, and every serialization context it sets carries their values. *)
Definition steady {A} (m : M A) : Prop :=
  forall w, exists evs,
    w_log (snd (m w)) = w_log w ++ evs /\
    w_pk (snd (m w)) !! (job_id job_ctxt, "blocks") = w_pk w !! (job_id job_ctxt, "blocks") /\
    w_pk (snd (m w)) !! (job_id job_ctxt, "cblock") = w_pk w !! (job_id job_ctxt, "cblock") /\
    Forall (fun x => xsc_blocks x = w_pk w !! (job_id job_ctxt, "blocks") /\
                     xsc_cblock x = w_pk w !! (job_id job_ctxt, "cblock"))
      (contexts evs).

Lemma steady_ret {A} (a : A) : steady (ret a).
Proof. intros w. exists []. simpl. rewrite app_nil_r. splits; auto; constructor. Qed.

Lemma steady_raise {A} (e : exn) : steady (raise (A := A) e).
Proof. intros w. exists []. simpl. rewrite app_nil_r. splits; auto; constructor. Qed.

Lemma steady_out_of_fuel {A} : steady (out_of_fuel (A := A)).
Proof. intros w. exists []. simpl. rewrite app_nil_r. splits; auto; constructor. Qed.

Lemma steady_bind {A B} (m : M A) (k : A -> M B) :
  steady m -> (forall a, steady (k a)) -> steady (bind m k).
Proof.
  intros Hm Hk w. destruct (Hm w) as (evs & Hlog & Hb & Hc & Hx). unfold bind.
  destruct (m w) as [[a|e|] w1]; cbn [snd] in *; [|now exists evs..].
  destruct (Hk a w1) as (evs' & Hlog' & Hb' & Hc' & Hx').
  exists (evs ++ evs'). splits.
  - rewrite Hlog', Hlog. now rewrite <- app_assoc.
  - now rewrite Hb'.
  - now rewrite Hc'.
  - rewrite contexts_app. apply Forall_app. split; [exact Hx|].
    rewrite Hb, Hc in Hx'. exact Hx'.
Qed.

Lemma steady_for_fold {A S} (l : list A) (body : A -> S -> M S) :
  (forall a st, steady (body a st)) -> forall st, steady (for_fold l body st).
Proof.
  intros Hb. induction l as [|a l IH]; intros st; simpl.
  - apply steady_ret.
  - apply steady_bind; [apply Hb | intros st'; apply IH].
Qed.

Lemma steady_for_ {A} (l : list A) (body : A -> M unit) :
  (forall a, steady (body a)) -> steady (for_ l body).
Proof.
  intros Hb. induction l as [|a l IH]; simpl.
  - apply steady_ret.
  - apply steady_bind; [apply Hb | intros _; apply IH].
Qed.

(** A call that logs one event, which is no context, and leaves the two
    counters alone. *)
Lemma steady_one {A} (m : M A) :
  (forall w, exists ev,
     w_log (snd (m w)) = w_log w ++ [ev] /\
     contexts [ev] = [] /\
     w_pk (snd (m w)) !! (job_id job_ctxt, "blocks")
       = w_pk w !! (job_id job_ctxt, "blocks") /\
     w_pk (snd (m w)) !! (job_id job_ctxt, "cblock")
       = w_pk w !! (job_id job_ctxt, "cblock")) ->
  steady m.
Proof.
  intros Hm w. destruct (Hm w) as (ev & Hlog & Hx & Hb & Hc).
  exists [ev]. splits; auto. rewrite Hx. constructor.
Qed.

Ltac steady_event :=
  apply steady_one; intros ?w; eexists;
  split; [reflexivity|]; split; [reflexivity|];
  cbn [snd w_pk];
  split; first [reflexivity | apply lookup_insert_ne; intros [=]].

Ltac steady_step :=
  first
    [ apply steady_ret
    | apply steady_raise
    | apply steady_out_of_fuel
    | apply steady_bind; [|intros ?]
    | apply steady_for_fold; intros ? ?
    | apply steady_for_; intros ?
    | steady_event ].

Lemma steady_check_exception results : steady (_check_exception results).
Proof.
  induction results as [|v results IH]; simpl; [apply steady_ret|].
  destruct v; try exact IH. apply steady_raise.
Qed.

Lemma steady_chain results : steady (chain results).
Proof.
  induction results as [|v results IH]; simpl; [apply steady_ret|].
  destruct (iter_value v); [|apply steady_raise].
  apply steady_bind; [exact IH|intros rest; apply steady_ret].
Qed.

Lemma steady_distribute task_func name data tf_args ath ath_args flatten_results :
  (forall f kw, ath = Some f -> steady (f kw)) ->
  steady (distribute task_func name data tf_args ath ath_args flatten_results).
Proof.
  intros Hath. unfold distribute, apply_async, join_native.
  repeat steady_step.
  destruct (ignore_result task_func).
  - destruct ath as [f|]; [|apply steady_ret].
    destruct (truthy ath_args); now apply Hath.
  - repeat steady_step; [apply steady_check_exception|].
    match goal with |- steady (match ?l with _ => _ end) => destruct l as [|sample ?] end;
      [apply steady_ret|].
    destruct (flatten_results && is_list_tuple_set sample);
      [apply steady_chain|apply steady_ret].
Qed.

(** The polling loop leaves all the progress counters as they are. *)
Definition keeps_pk {A} (m : M A) : Prop := forall w, w_pk (snd (m w)) = w_pk w.

Lemma keeps_pk_bind {A B} (m : M A) (k : A -> M B) :
  keeps_pk m -> (forall a, keeps_pk (k a)) -> keeps_pk (bind m k).
Proof.
  intros Hm Hk w. specialize (Hm w). unfold bind.
  destruct (m w) as [[a|e|] w1]; cbn [snd] in *; [|exact Hm..].
  now rewrite Hk.
Qed.

Lemma keeps_pk_for_fold {A S} (l : list A) (body : A -> S -> M S) :
  (forall a st, keeps_pk (body a st)) -> forall st, keeps_pk (for_fold l body st).
Proof.
  intros Hb. induction l as [|a l IH]; intros st; simpl.
  - intros w. reflexivity.
  - apply keeps_pk_bind; [apply Hb | intros st'; apply IH].
Qed.

Ltac keeps_pk_step :=
  first
    [ apply keeps_pk_bind; [|intros ?]
    | apply keeps_pk_for_fold; intros ? ?
    | intros ?w; reflexivity ].

Lemma keeps_pk_poll_body nrml_path key_template hc_attrib_update sites st :
  keeps_pk (poll_body nrml_path key_template hc_attrib_update sites st).
Proof.
  unfold poll_body. keeps_pk_step; [keeps_pk_step|].
  destruct (bool_decide _); [|keeps_pk_step].
  keeps_pk_step; [keeps_pk_step|]. keeps_pk_step.
  - keeps_pk_step. unfold scan_site. destruct (decide _); [keeps_pk_step|].
    keeps_pk_step; [keeps_pk_step|].
    match goal with a : option value |- _ => destruct a end; keeps_pk_step.
  - destruct (_ =? 0).
    + destruct (next (pgen st)). keeps_pk_step.
    + repeat keeps_pk_step.
Qed.

Lemma keeps_pk_poll_loop nrml_path key_template hc_attrib_update sites fuel :
  forall st, keeps_pk (poll_loop fuel nrml_path key_template hc_attrib_update sites st).
Proof.
  induction fuel as [|fuel IH]; intros st; simpl; destruct (decide _);
    try (intros w; reflexivity).
  apply keeps_pk_bind; [apply keeps_pk_poll_body|exact IH].
Qed.

Lemma keeps_pk_serialize_hazard_curve fuel nrml_file key_template hc_attrib_update
    (sites : list Site) :
  keeps_pk (serialize_hazard_curve fuel nrml_file key_template hc_attrib_update sites).
Proof.
  unfold serialize_hazard_curve. repeat keeps_pk_step. apply keeps_pk_poll_loop.
Qed.

Lemma progress_counters (batches : list (list Site)) :
  forall x0 : XSC,
    Forall (fun x => xsc_blocks x = xsc_blocks x0 /\ xsc_cblock x = xsc_cblock x0)
      (progress x0 batches).
Proof.
  induction batches as [|b batches IH]; intros x0; cbn [progress]; constructor.
  - split; reflexivity.
  - exact (IH (advance x0 b)).
Qed.

Lemma steady_serialize_hazard_curve fuel nrml_file key_template hc_attrib_update
    (sites : list Site) :
  steady (serialize_hazard_curve fuel nrml_file key_template hc_attrib_update sites).
Proof.
  intros w.
  pose proof (keeps_pk_serialize_hazard_curve fuel nrml_file key_template
                hc_attrib_update sites w) as Hpk.
  destruct (serialize_hazard_curve_found fuel nrml_file key_template hc_attrib_update
              sites w) as (r & w' & evs & E & Hlog & _ & Hctx).
  rewrite E in *. cbn [snd] in *. exists evs.
  splits; [exact Hlog|now rewrite Hpk|now rewrite Hpk|].
  rewrite Hctx.
  match goal with |- Forall _ (progress ?x0 ?b) => exact (progress_counters b x0) end.
Qed.

Lemma contexts_gets (sites : list Site) key_template (reads : list (option value)) :
  contexts (zip_with (fun site iml => EvKvsGet (fmt key_template (hash site)) iml)
              sites reads) = [].
Proof.
  revert reads. induction sites as [|site sites IH]; intros [|iml reads];
    try reflexivity. exact (IH reads).
Qed.

Lemma steady_serialize_hazard_map_at_poe (sites : list Site) poe key_template
    hm_attrib_update nrml_file :
  steady (serialize_hazard_map_at_poe sites poe key_template hm_attrib_update nrml_file).
Proof.
  intros w.
  assert (Hpk : w_pk (snd (serialize_hazard_map_at_poe sites poe key_template
                             hm_attrib_update nrml_file w)) = w_pk w).
  { unfold serialize_hazard_map_at_poe.
    unfold bind at 1. unfold emit at 1. cbv beta iota.
    unfold bind at 1. unfold emit at 1. cbv beta iota.
    unfold bind at 1. cbv zeta.
    match goal with |- context [for_fold sites _ ?d ?w1] =>
      destruct (hazard_map_reads key_template poe hm_attrib_update sites d w1)
        as (reads & w' & E & _ & _ & Hpk)
    end.
    unfold hm_attrib at 1 in E. rewrite E. exact Hpk. }
  destruct (serialize_hazard_map_at_poe_run sites poe key_template hm_attrib_update
              nrml_file w) as (reads & w' & E & Hlen & Hlog).
  rewrite E in *. cbn [snd] in *. eexists. splits; [exact Hlog|now rewrite Hpk..|].
  rewrite !contexts_app, contexts_gets.
  cbn [contexts omap list_omap app]. constructor; [|constructor]. split; reflexivity.
Qed.

Lemma steady_ath_hazard_curve_of_realization fuel kw :
  steady (ath_hazard_curve_of_realization fuel kw).
Proof.
  unfold ath_hazard_curve_of_realization.
  destruct (arg_sites kw); [|apply steady_raise].
  destruct (kw !! "realization") as [[]|]; try apply steady_raise.
  steady_step; [|apply steady_ret].
  unfold serialize_hazard_curve_of_realization.
  steady_step; [apply steady_serialize_hazard_curve|apply steady_ret].
Qed.

Lemma steady_ath_mean_hazard_curves fuel kw : steady (ath_mean_hazard_curves fuel kw).
Proof.
  unfold ath_mean_hazard_curves.
  destruct (arg_sites kw); [|apply steady_raise].
  steady_step; [|apply steady_ret].
  unfold serialize_mean_hazard_curves.
  steady_step; [apply steady_serialize_hazard_curve|apply steady_ret].
Qed.

Lemma steady_ath_quantile_hazard_curves fuel kw :
  steady (ath_quantile_hazard_curves fuel kw).
Proof.
  unfold ath_quantile_hazard_curves.
  destruct (arg_sites kw); [|apply steady_raise].
  destruct (arg_quantiles kw); [|apply steady_raise].
  steady_step; [|apply steady_ret].
  unfold serialize_quantile_hazard_curves. apply steady_for_. intros quantile.
  steady_step; [apply steady_serialize_hazard_curve|apply steady_ret].
Qed.

Lemma steady_execute_block fuel data realizations purged :
  steady (execute_block fuel data realizations purged).
Proof.
  unfold execute_block. steady_step; [steady_event|]. steady_step.
  { unfold do_curves. steady_step; [steady_event|].
    steady_step; [|apply steady_ret].
    apply steady_for_fold. intros realization [g gg].
    steady_step; [steady_event|]. steady_step; [steady_event|].
    destruct (getrandbits g 32) as [bits g1].
    unfold store_source_model, store_gmpe_map. steady_step; [steady_event|].
    destruct (getrandbits g1 32) as [bits' g2]. steady_step; [steady_event|].
    steady_step; [|apply steady_ret].
    apply steady_distribute. intros f kw [= <-].
    apply steady_ath_hazard_curve_of_realization. }
  steady_step; [steady_event|]. steady_step.
  { unfold do_means. destruct (negb _); [apply steady_ret|].
    steady_step; [steady_event|]. steady_step.
    - apply steady_distribute. intros f kw [= <-]. apply steady_ath_mean_hazard_curves.
    - destruct (poes_hazard_maps job_ctxt); [apply steady_ret|].
      unfold compute_mean_hazard_maps.
      steady_step; [steady_event|]. steady_step; [steady_event|].
      steady_step; [steady_event|].
      unfold serialize_mean_hazard_map. apply steady_for_. intros poe.
      steady_step; [apply steady_serialize_hazard_map_at_poe|apply steady_ret]. }
  steady_step; [steady_event|]. steady_step.
  { unfold do_quantiles. destruct (quantile_levels job_ctxt) as [|q quantiles];
      [apply steady_ret|].
    steady_step; [steady_event|]. steady_step.
    - apply steady_distribute. intros f kw [= <-].
      apply steady_ath_quantile_hazard_curves.
    - destruct (poes_hazard_maps job_ctxt); [apply steady_ret|].
      unfold compute_quantile_hazard_maps.
      steady_step; [steady_event|]. steady_step; [steady_event|].
      steady_step; [steady_event|].
      apply steady_for_. intros quantile. steady_step; [steady_event|].
      unfold serialize_quantile_hazard_map. apply steady_for_. intros poe.
      steady_step; [apply steady_serialize_hazard_map_at_poe|apply steady_ret]. }
  intros w. rewrite release_data_from_kvs_run. cbv zeta. cbn [snd purged_world w_log w_pk].
  eexists. splits; [reflexivity|reflexivity|reflexivity|].
  match goal with |- Forall _ (contexts (EvKvsDelete <$> ?b)) => generalize b end.
  intros batches.
  replace (contexts (EvKvsDelete <$> batches)) with (@nil XSC); [constructor|].
  induction batches as [|keys batches IH]; [reflexivity|exact IH].
Qed.

Lemma blocks_counters fuel realizations (slices : list (list Site)) :
  forall purged w (c n : Z),
    w_pk w !! (job_id job_ctxt, "blocks") = Some n ->
    w_pk w !! (job_id job_ctxt, "cblock") = Some c ->
    exists r w' evs,
      for_fold slices (block_body fuel realizations) purged w = (r, w') /\
      w_log w' = w_log w ++ evs /\
      Forall (fun x => xsc_blocks x = Some n /\
                       exists i, xsc_cblock x = Some i /\ c < i <= c + len slices)
        (contexts evs) /\
      w_pk w' !! (job_id job_ctxt, "blocks") = Some n /\
      (forall p, r = Ok p -> w_pk w' !! (job_id job_ctxt, "cblock") = Some (c + len slices)).
Proof.
  induction slices as [|data slices IH]; intros purged w c n Hn Hc.
  - exists (Ok purged), w, []. rewrite app_nil_r.
    splits; [reflexivity|reflexivity|constructor|exact Hn|].
    intros p _. rewrite Hc. f_equal. unfold len. simpl. lia.
  - cbn [for_fold]. unfold bind at 1. unfold block_body at 1.
    unfold bind at 1. unfold pk_inc at 1. cbv beta iota.
    match goal with |- context [execute_block _ _ _ _ ?w0] => set (w1 := w0) end.
    assert (Hn1 : w_pk w1 !! (job_id job_ctxt, "blocks") = Some n).
    { unfold w1. cbn [w_pk]. rewrite lookup_insert_ne by (intros [=]). exact Hn. }
    assert (Hc1 : w_pk w1 !! (job_id job_ctxt, "cblock") = Some (c + 1)).
    { unfold w1. cbn [w_pk]. rewrite lookup_insert_eq, Hc. reflexivity. }
    destruct (steady_execute_block fuel data realizations purged w1)
      as (evs1 & Hlog1 & Hb1 & Hcb1 & Hx1).
    destruct (execute_block fuel data realizations purged w1) as [r1 w2] eqn:E1.
    cbn [snd] in Hlog1, Hb1, Hcb1. rewrite Hn1 in Hb1, Hx1. rewrite Hc1 in Hcb1, Hx1.
    assert (Hlog2 : w_log w2 = w_log w ++ EvPkInc (job_id job_ctxt) "cblock" :: evs1).
    { rewrite Hlog1. unfold w1. cbn [w_log]. now rewrite <- app_assoc. }
    assert (Hlen : len (data :: slices) = len slices + 1).
    { unfold len. simpl length. lia. }
    assert (Hx2 : Forall (fun x => xsc_blocks x = Some n /\
                            exists i, xsc_cblock x = Some i /\
                                      c < i <= c + len (data :: slices))
                    (contexts (EvPkInc (job_id job_ctxt) "cblock" :: evs1))).
    { change (contexts (EvPkInc (job_id job_ctxt) "cblock" :: evs1)) with (contexts evs1).
      eapply Forall_impl; [exact Hx1|]. intros x [H1 H2]. split; [exact H1|].
      exists (c + 1). split; [exact H2|]. unfold len in *. lia. }
    destruct r1 as [p1|e|].
    + destruct (IH p1 w2 (c + 1) n Hb1 Hcb1) as (r & w' & evs & E & Hlog & Hx & Hb & Hok).
      exists r, w', ((EvPkInc (job_id job_ctxt) "cblock" :: evs1) ++ evs). splits.
      * exact E.
      * rewrite Hlog, Hlog2. now rewrite <- app_assoc.
      * rewrite contexts_app. apply Forall_app. split; [exact Hx2|].
        eapply Forall_impl; [exact Hx|]. intros x [H1 (i & H2 & H3)].
        split; [exact H1|]. exists i. split; [exact H2|]. lia.
      * exact Hb.
      * intros p Hp. rewrite (Hok p Hp). f_equal. lia.
    + exists (Raise e), w2, (EvPkInc (job_id job_ctxt) "cblock" :: evs1).
      splits; [reflexivity|exact Hlog2|exact Hx2|exact Hb1|discriminate].
    + exists OutOfFuel, w2, (EvPkInc (job_id job_ctxt) "cblock" :: evs1).
      splits; [reflexivity|exact Hlog2|exact Hx2|exact Hb1|discriminate].
Qed.

(** X19: with a positive block size, [execute] keeps the counters of the
    blocks in step with its loop: every serialization context set during the
    run, by any of the curve and map serializers, carries [blocks], the number
    of blocks of the job, and a current block [cblock] between 1 and
    [blocks]; when [execute] returns, [cblock] equals [blocks]. *)
Theorem execute_block_counters fuel purged w :
  0 < hazard_block_size job_ctxt ->
  let n := len (block_slices (sites_to_compute job_ctxt) (hazard_block_size job_ctxt)) in
  exists r w' evs,
    execute fuel purged w = (r, w') /\
    w_log w' = w_log w ++ evs /\
    Forall (fun x => xsc_blocks x = Some n /\
                     exists i, xsc_cblock x = Some i /\ 1 <= i <= n)
      (contexts evs) /\
    w_pk w' !! (job_id job_ctxt, "blocks") = Some n /\
    (forall p, r = Ok p -> w_pk w' !! (job_id job_ctxt, "cblock") = Some n).
Proof.
  intros Hb n. rewrite (execute_decompose fuel purged w Hb).
  unfold bind at 1. unfold execute_prologue.
  unfold bind at 1. unfold emit at 1. cbv beta iota.
  unfold bind at 1. unfold pk_set at 1. cbv beta iota.
  unfold bind at 1. unfold pk_set at 1. cbv beta iota.
  unfold bind at 1. unfold pk_set at 1. cbv beta iota.
  unfold bind at 1. unfold pk_set at 1. cbv beta iota.
  unfold pk_set at 1. cbv beta iota.
  assert (Hlen : len (block_starts (len (sites_to_compute job_ctxt))
                        (hazard_block_size job_ctxt)) = n).
  { unfold n, block_slices, len. now rewrite length_fmap. }
  match goal with |- context [for_fold _ _ _ ?w0] => set (w1 := w0) end.
  destruct (blocks_counters fuel (NUMBER_OF_LOGIC_TREE_SAMPLES job_ctxt)
              (block_slices (sites_to_compute job_ctxt) (hazard_block_size job_ctxt))
              purged w1 0 n)
    as (r & w' & evs & E & Hlog & Hx & Hbl & Hok).
  { unfold w1. cbn [w_pk]. rewrite lookup_insert_ne by (intros [=]).
    rewrite lookup_insert_eq. now rewrite Hlen. }
  { unfold w1. cbn [w_pk]. now rewrite lookup_insert_eq. }
  rewrite E. eexists r, w', _. splits.
  - reflexivity.
  - rewrite Hlog. unfold w1. cbn [w_log]. rewrite <- !app_assoc. reflexivity.
  - rewrite contexts_app. cbn [contexts omap list_omap app].
    eapply Forall_impl; [exact Hx|]. intros x [H1 (i & H2 & H3)].
    split; [exact H1|]. exists i. split; [exact H2|]. fold n in H3. lia.
  - exact Hbl.
  - intros p Hp. rewrite (Hok p Hp). f_equal; unfold n; lia.
Qed.


(** ** execute: when the run comes to its end *)

(** [returns m]: from every world, [m] ends with a value. *)
Definition returns {A} (m : M A) : Prop := forall w, exists a w', m w = (Ok a, w').

Lemma returns_ret {A} (a : A) : returns (ret a).
Proof. intros w. now exists a, w. Qed.

Lemma returns_bind {A B} (m : M A) (k : A -> M B) :
  returns m -> (forall a, returns (k a)) -> returns (bind m k).
Proof.
  intros Hm Hk w. destruct (Hm w) as (a & w1 & E). unfold bind. rewrite E. apply Hk.
Qed.

Lemma returns_for_fold_in {A S} (l : list A) (body : A -> S -> M S) :
  (forall a, a ∈ l -> forall st, returns (body a st)) ->
  forall st, returns (for_fold l body st).
Proof.
  induction l as [|a l IH]; intros Hb st; simpl.
  - apply returns_ret.
  - apply returns_bind; [apply Hb; left|].
    intros st'. apply IH. intros a' Ha'. apply Hb. now right.
Qed.

Lemma returns_for_in {A} (l : list A) (body : A -> M unit) :
  (forall a, a ∈ l -> returns (body a)) -> returns (for_ l body).
Proof.
  induction l as [|a l IH]; intros Hb; simpl.
  - apply returns_ret.
  - apply returns_bind; [apply Hb; left|].
    intros _. apply IH. intros a' Ha'. apply Hb. now right.
Qed.

Ltac returns_event := intros ?w; eexists _, _; reflexivity.

Ltac returns_step :=
  first
    [ apply returns_ret
    | apply returns_bind; [|intros ?]
    | returns_event ].

(** The curves the orchestrator waits for: those of the realizations, the
    mean curve and the quantile curves of a site. *)
Definition curve_key (sites : list Site) (realizations : Z) (quantiles : list Q)
    (key : Key) : Prop :=
  exists s, s ∈ sites /\
    ((exists realization,
        0 <= realization < realizations /\
        key = fmt (hazard_curve_poes_key_template (job_id job_ctxt) realization)
                (hash s)) \/
     key = fmt (mean_hazard_curve_key_template (job_id job_ctxt)) (hash s) \/
     (exists quantile,
        quantile ∈ quantiles /\
        key = fmt (quantile_hazard_curve_key_template (job_id job_ctxt)
                     (VStr (str_float quantile))) (hash s))).

Lemma returns_serialize_hazard_curve (sites : list Site) realizations quantiles fuel
    nrml_file key_template hc_attrib_update :
  (forall log, failure_counters log = []) ->
  (forall log kvs key,
     curve_key sites realizations quantiles key -> is_Some (workers log kvs !! key)) ->
  (0 < fuel)%nat ->
  (forall s, s ∈ sites ->
     curve_key sites realizations quantiles (fmt key_template (hash s))) ->
  returns (serialize_hazard_curve fuel nrml_file key_template hc_attrib_update sites).
Proof.
  intros no_failure curves_present some_fuel Hk w.
  pose proof (serialize_hazard_curve_returns fuel nrml_file key_template
                hc_attrib_update sites 0 w no_failure) as H.
  destruct (serialize_hazard_curve fuel nrml_file key_template hc_attrib_update sites w)
    as [r w'].
  cbn [fst] in H. rewrite H; [now eexists _, _| |exact some_fuel].
  intros log kvs s _ Hs. apply curves_present. now apply Hk.
Qed.

Lemma returns_distribute task_func name data tf_args (f : kwargs -> M value)
    (ath_args : kwargs) :
  ignore_result task_func = true ->
  ath_args <> ∅ ->
  returns (f ath_args) ->
  returns (distribute task_func name data tf_args (Some f) (Some ath_args) false).
Proof.
  intros Hmode Hne Hf w. rewrite distribute_unfold. cbv zeta. rewrite Hmode.
  unfold truthy. rewrite bool_decide_eq_false_2 by exact Hne.
  cbn [negb default from_option id]. apply Hf.
Qed.

Lemma returns_do_curves (sites : list Site) realizations quantiles fuel :
  (forall log, failure_counters log = []) ->
  (forall log kvs key,
     curve_key sites realizations quantiles key -> is_Some (workers log kvs !! key)) ->
  (0 < fuel)%nat ->
  returns (do_curves sites realizations (Some (ath_hazard_curve_of_realization fuel))
             compute_hazard_curve).
Proof.
  intros no_failure curves_present some_fuel.
  unfold do_curves. returns_step; [returns_event|].
  returns_step; [|apply returns_ret].
  apply returns_for_fold_in. intros realization Hr%elem_of_xrange [g gg].
  returns_step; [returns_event|]. returns_step; [returns_event|].
  destruct (getrandbits g 32) as [bits g1].
  unfold store_source_model, store_gmpe_map. returns_step; [returns_event|].
  destruct (getrandbits g1 32) as [bits' g2]. returns_step; [returns_event|].
  returns_step; [|apply returns_ret].
  apply returns_distribute; [reflexivity|apply insert_non_empty|].
  unfold ath_hazard_curve_of_realization. rewrite arg_sites_insert.
  rewrite lookup_insert_ne by discriminate. rewrite lookup_insert_eq.
  returns_step; [|apply returns_ret].
  unfold serialize_hazard_curve_of_realization. returns_step; [|apply returns_ret].
  apply (returns_serialize_hazard_curve sites realizations quantiles); auto.
  intros s Hs. exists s. split; [exact Hs|]. left. now exists realization.
Qed.

Lemma returns_hazard_maps (sites : list Site) (A : Type) (items : list A)
    (poe_of : A -> Q) (template_of : A -> Template) (update_of : A -> kwargs)
    (file_of : A -> string) :
  returns (for_ items (fun a =>
             serialize_hazard_map_at_poe sites (poe_of a) (template_of a) (update_of a)
               (file_of a) >> ret tt)).
Proof.
  intros w.
  destruct (hazard_map_files sites A items poe_of template_of update_of file_of w)
    as (w' & evs & E & _).
  now exists tt, w'.
Qed.

Lemma returns_do_means (sites : list Site) realizations quantiles fuel :
  (forall log, failure_counters log = []) ->
  (forall log kvs key,
     curve_key sites realizations quantiles key -> is_Some (workers log kvs !! key)) ->
  (0 < fuel)%nat ->
  returns (do_means sites realizations (Some (ath_mean_hazard_curves fuel))
             compute_mean_curves (Some compute_mean_hazard_maps)
             (Some serialize_mean_hazard_map)).
Proof.
  intros no_failure curves_present some_fuel.
  unfold do_means. destruct (negb _); [apply returns_ret|].
  returns_step; [returns_event|]. returns_step.
  - apply returns_distribute; [reflexivity|apply insert_non_empty|].
    unfold ath_mean_hazard_curves.
    change ({[ "sites" := VList (VSite <$> sites) ]} : kwargs)
      with (<["sites" := VList (VSite <$> sites)]> (∅ : kwargs)).
    rewrite arg_sites_insert. returns_step; [|apply returns_ret].
    unfold serialize_mean_hazard_curves. returns_step; [|apply returns_ret].
    apply (returns_serialize_hazard_curve sites realizations quantiles); auto.
    intros s Hs. exists s. split; [exact Hs|]. right. now left.
  - destruct (poes_hazard_maps job_ctxt) as [|poe poes] eqn:Ep; [apply returns_ret|].
    unfold compute_mean_hazard_maps.
    returns_step; [returns_event|]. returns_step; [returns_event|].
    returns_step; [returns_event|].
    unfold serialize_mean_hazard_map. apply returns_hazard_maps.
Qed.

Lemma returns_do_quantiles (sites : list Site) realizations quantiles fuel :
  (forall log, failure_counters log = []) ->
  (forall log kvs key,
     curve_key sites realizations quantiles key -> is_Some (workers log kvs !! key)) ->
  (0 < fuel)%nat ->
  returns (do_quantiles sites realizations quantiles
             (Some (ath_quantile_hazard_curves fuel))
             compute_quantile_curves (Some compute_quantile_hazard_maps)
             (Some serialize_quantile_hazard_map)).
Proof.
  intros no_failure curves_present some_fuel.
  unfold do_quantiles.
  destruct quantiles as [|q0 quantiles0] eqn:Eq; [apply returns_ret|].
  rewrite <- Eq in *. clear Eq.
  returns_step; [returns_event|]. returns_step.
  - apply returns_distribute; [reflexivity|apply insert_non_empty|].
    unfold ath_quantile_hazard_curves. rewrite arg_sites_insert.
    unfold arg_quantiles. rewrite lookup_insert_ne by discriminate.
    destruct (arg_quantiles_insert quantiles ∅) as [_ Hq].
    unfold arg_quantiles in Hq. rewrite Hq.
    returns_step; [|apply returns_ret].
    unfold serialize_quantile_hazard_curves. apply returns_for_in. intros quantile Hin.
    returns_step; [|apply returns_ret].
    apply (returns_serialize_hazard_curve sites realizations quantiles); auto.
    intros s Hs. exists s. split; [exact Hs|].
    right. right. now exists quantile.
  - destruct (poes_hazard_maps job_ctxt) as [|poe poes] eqn:Ep; [apply returns_ret|].
    unfold compute_quantile_hazard_maps.
    returns_step; [returns_event|]. returns_step; [returns_event|].
    returns_step; [returns_event|].
    apply returns_for_in. intros quantile Hin. returns_step; [returns_event|].
    unfold serialize_quantile_hazard_map. apply returns_hazard_maps.
Qed.

Lemma returns_execute_block fuel data realizations purged :
  (forall log, failure_counters log = []) ->
  (forall log kvs key,
     curve_key data realizations (quantile_levels job_ctxt) key ->
     is_Some (workers log kvs !! key)) ->
  (0 < fuel)%nat ->
  returns (execute_block fuel data realizations purged).
Proof.
  intros Hf Hw Hfuel. unfold execute_block.
  returns_step; [returns_event|].
  returns_step;
    [now apply (returns_do_curves data realizations (quantile_levels job_ctxt))|].
  returns_step; [returns_event|].
  returns_step;
    [now apply (returns_do_means data realizations (quantile_levels job_ctxt))|].
  returns_step; [returns_event|].
  returns_step; [now apply returns_do_quantiles|].
  intros w. rewrite release_data_from_kvs_run. cbv zeta. now eexists _, _.
Qed.

(** X20: [execute] comes to its end when nothing stands in its way: if the
    block size is positive, no failure is ever on record, and the workers have
    the curves in the cache that the orchestrator waits for (those of the
    realizations, the mean and the quantile curves of the sites of the job),
    then one iteration of each polling loop is enough and [execute] returns,
    with every block purged. *)
Theorem execute_returns fuel purged w :
  0 < hazard_block_size job_ctxt ->
  (forall log, failure_counters log = []) ->
  (forall log kvs key,
     curve_key (sites_to_compute job_ctxt) (NUMBER_OF_LOGIC_TREE_SAMPLES job_ctxt)
       (quantile_levels job_ctxt) key ->
     is_Some (workers log kvs !! key)) ->
  (0 < fuel)%nat ->
  fst (execute fuel purged w) =
    Ok (extend purged
          (concat ((fun data =>
                      concat (purge_batches (job_id job_ctxt) data
                                (NUMBER_OF_LOGIC_TREE_SAMPLES job_ctxt)
                                (quantile_levels job_ctxt) (poes_hazard_maps job_ctxt)))
                     <$> block_slices (sites_to_compute job_ctxt)
                           (hazard_block_size job_ctxt)))).
Proof.
  intros Hb Hf Hw Hfuel.
  destruct (block_slices_partition (sites_to_compute job_ctxt)
              (hazard_block_size job_ctxt) Hb) as [Hcat _].
  assert (Hblocks : forall purged0,
            returns (for_fold (block_slices (sites_to_compute job_ctxt)
                                 (hazard_block_size job_ctxt))
                       (block_body fuel (NUMBER_OF_LOGIC_TREE_SAMPLES job_ctxt)) purged0)).
  { apply returns_for_fold_in. intros data Hdata p0. unfold block_body.
    returns_step; [returns_event|].
    apply returns_execute_block; [exact Hf| |exact Hfuel].
    intros log kvs key (s & Hs & Hk). apply Hw. exists s. split; [|exact Hk].
    rewrite <- Hcat. apply list_elem_of_In, in_concat. exists data.
    split; now apply list_elem_of_In. }
  rewrite (execute_decompose fuel purged w Hb). unfold bind.
  destruct (execute_prologue w) as [[[]|e|] w1] eqn:Ep;
    [|unfold execute_prologue, bind, emit, pk_set in Ep; discriminate..].
  destruct (Hblocks purged w1) as (p & w' & E). rewrite E. cbn [fst].
  apply blocks_purged in E. now rewrite E.
Qed.


(** X21: [serialize_hazard_curve] returns when it can: if no failure is ever
    on record and, from some point on (here: once the log has [T] entries),
    the workers have the curve of every expected site in the cache, then given
    more than [T] iterations the call returns the path of its file, and by
    then every expected site has been handed to the writer, exactly once. *)
Theorem serialize_hazard_curve_terminates fuel nrml_file key_template hc_attrib_update
    (sites : list Site) (T : nat) w :
  (forall log, failure_counters log = []) ->
  (forall log kvs s,
     (T <= length log)%nat -> s ∈ sites ->
     is_Some (workers log kvs !! fmt key_template (hash s))) ->
  (T < fuel)%nat ->
  exists w' evs,
    serialize_hazard_curve fuel nrml_file key_template hc_attrib_update sites w
      = (Ok (build_nrml_path nrml_file), w') /\
    w_log w' = w_log w ++ evs /\
    NoDup (concat (serialized_batches evs)) /\
    forall s, s ∈ concat (serialized_batches evs) <-> s ∈ sites.
Proof.
  intros Hf Hw Hfuel.
  pose proof (serialize_hazard_curve_returns fuel nrml_file key_template
                hc_attrib_update sites T w Hf Hw Hfuel) as Hret.
  destruct (serialize_hazard_curve_polling fuel nrml_file key_template
              hc_attrib_update sites w)
    as (blocks & cblock & x & r & w' & evs & E & Hlog & Hrun).
  rewrite E in Hret. cbn [fst] in Hret.
  destruct r as [stf| |]; try discriminate.
  apply polling_batches in Hrun as (Hnd & Hs & Hok & _).
  exists w', (prelude_events (build_nrml_path nrml_file) blocks cblock ++ evs).
  splits; [exact E|exact Hlog| |].
  - rewrite serialized_batches_app. exact Hnd.
  - intros s. rewrite serialized_batches_app.
    cbn [prelude_events serialized_batches omap list_omap app].
    fold (serialized_batches evs). split.
    + intros Hx. apply Hs in Hx as [Hx _]. now apply elem_of_list_to_set in Hx.
    + intros Hx. destruct (Hok stf eq_refl s) as [Hy|Hy];
        [now apply elem_of_list_to_set|exact Hy|].
      unfold poll_init in Hy. simpl in Hy. now apply elem_of_empty in Hy.
Qed.


(** ** The files of a block *)

(** [files_written files m]: from every world [m] ends with a value, and the
    writers it has created are those of [files], in order. *)
Definition files_written {A} (files : list string) (m : M A) : Prop :=
  forall w, exists a w' evs,
    m w = (Ok a, w') /\ w_log w' = w_log w ++ evs /\ writers evs = files.

Lemma files_ret {A} (a : A) : files_written [] (ret a).
Proof. intros w. exists a, w, []. now rewrite app_nil_r. Qed.

Lemma files_bind {A B} files1 files2 (m : M A) (k : A -> M B) :
  files_written files1 m -> (forall a, files_written files2 (k a)) ->
  files_written (files1 ++ files2) (bind m k).
Proof.
  intros Hm Hk w. destruct (Hm w) as (a & w1 & evs1 & E1 & Hlog1 & Hw1).
  unfold bind. rewrite E1.
  destruct (Hk a w1) as (b & w2 & evs2 & E2 & Hlog2 & Hw2).
  exists b, w2, (evs1 ++ evs2). splits; [exact E2| |].
  - rewrite Hlog2, Hlog1. now rewrite <- app_assoc.
  - unfold writers in *. now rewrite omap_app, Hw1, Hw2.
Qed.

Lemma files_after {A B} files (m : M A) (k : A -> M B) :
  files_written [] m -> (forall a, files_written files (k a)) ->
  files_written files (bind m k).
Proof. intros Hm Hk. exact (files_bind [] files m k Hm Hk). Qed.

Lemma files_before {A B} files (m : M A) (k : A -> M B) :
  files_written files m -> (forall a, files_written [] (k a)) ->
  files_written files (bind m k).
Proof.
  intros Hm Hk. rewrite <- (app_nil_r files). exact (files_bind files [] m k Hm Hk).
Qed.

Lemma files_for_fold_in {A S} (files_of : A -> list string) (l : list A)
    (body : A -> S -> M S) :
  (forall a, a ∈ l -> forall st, files_written (files_of a) (body a st)) ->
  forall st, files_written (concat (files_of <$> l)) (for_fold l body st).
Proof.
  induction l as [|a l IH]; intros Hb st; simpl.
  - apply files_ret.
  - apply files_bind; [apply Hb; left|].
    intros st'. apply IH. intros a' Ha'. apply Hb. now right.
Qed.

Lemma files_for_in {A} (files_of : A -> list string) (l : list A)
    (body : A -> M unit) :
  (forall a, a ∈ l -> files_written (files_of a) (body a)) ->
  files_written (concat (files_of <$> l)) (for_ l body).
Proof.
  induction l as [|a l IH]; intros Hb; simpl.
  - apply files_ret.
  - apply files_bind; [apply Hb; left|].
    intros _. apply IH. intros a' Ha'. apply Hb. now right.
Qed.

Ltac files_event := intros ?w; eexists _, _, [_]; splits; reflexivity.

Lemma polling_no_writer nrml_path sites st r evs :
  polling nrml_path sites st r evs -> writers evs = [].
Proof.
  induction 1 as [st Hd|st Hd|st fs Hd Hf
                 |st st' gets x batch r evs Hd Hg Ha Hnd Hs Hp Hrun IH];
    try reflexivity.
  unfold writers in *. unfold iteration_events. rewrite !omap_app, IH.
  assert (Hgets : omap (fun ev : Event => match ev with
                                         | EvCreateWriter nrml_path => Some nrml_path
                                         | _ => None
                                         end) gets = []).
  { clear - Hg. induction gets as [|ev gets IHg]; [reflexivity|].
    simpl in Hg. apply andb_prop in Hg as [Hev Hg].
    destruct ev; try discriminate. exact (IHg Hg). }
  rewrite Hgets. destruct batch; reflexivity.
Qed.

Lemma files_serialize_hazard_curve (sites : list Site) realizations quantiles fuel
    nrml_file key_template hc_attrib_update :
  (forall log, failure_counters log = []) ->
  (forall log kvs key,
     curve_key sites realizations quantiles key -> is_Some (workers log kvs !! key)) ->
  (0 < fuel)%nat ->
  (forall s, s ∈ sites ->
     curve_key sites realizations quantiles (fmt key_template (hash s))) ->
  files_written [build_nrml_path nrml_file]
    (serialize_hazard_curve fuel nrml_file key_template hc_attrib_update sites).
Proof.
  intros no_failure curves_present some_fuel Hk w.
  pose proof (serialize_hazard_curve_returns fuel nrml_file key_template
                hc_attrib_update sites 0 w no_failure) as H.
  destruct (serialize_hazard_curve_polling fuel nrml_file key_template
              hc_attrib_update sites w)
    as (blocks & cblock & x & r & w' & evs & E & Hlog & Hrun).
  rewrite E in H. cbn [fst] in H.
  rewrite E. rewrite H; [| |exact some_fuel].
  2:{ intros log kvs s _ Hs. apply curves_present. now apply Hk. }
  eexists _, w', _. splits; [reflexivity|exact Hlog|].
  unfold writers. rewrite omap_app.
  pose proof (polling_no_writer _ _ _ _ _ Hrun) as Hnw. unfold writers in Hnw.
  now rewrite Hnw.
Qed.

Lemma files_distribute files task_func name data tf_args (f : kwargs -> M value)
    (ath_args : kwargs) :
  ignore_result task_func = true ->
  ath_args <> ∅ ->
  files_written files (f ath_args) ->
  files_written files
    (distribute task_func name data tf_args (Some f) (Some ath_args) false).
Proof.
  intros Hmode Hne Hf w. rewrite distribute_unfold. cbv zeta. rewrite Hmode.
  unfold truthy. rewrite bool_decide_eq_false_2 by exact Hne.
  cbn [negb default from_option id].
  destruct (Hf (submitted task_func name data tf_args w))
    as (a & w' & evs & E & Hlog & Hw).
  eexists a, w', _. splits; [exact E| |].
  - rewrite Hlog. unfold submitted. cbn [w_log]. rewrite <- app_assoc. reflexivity.
  - unfold writers in *. rewrite omap_app, Hw. reflexivity.
Qed.

Lemma files_hazard_maps (sites : list Site) (A : Type) (items : list A)
    (poe_of : A -> Q) (template_of : A -> Template) (update_of : A -> kwargs)
    (file_of : A -> string) :
  files_written ((fun a => build_nrml_path (file_of a)) <$> items)
    (for_ items (fun a =>
       serialize_hazard_map_at_poe sites (poe_of a) (template_of a) (update_of a)
         (file_of a) >> ret tt)).
Proof.
  intros w.
  destruct (hazard_map_files sites A items poe_of template_of update_of file_of w)
    as (w' & evs & E & Hlog & Hw & _).
  now exists tt, w', evs.
Qed.

(** The files of the curves of the realizations, of the mean curve and the
    mean maps, and of the quantile curves and the quantile maps. *)
Definition curve_files (realizations : Z) : list string :=
  (fun realization => build_nrml_path (hazard_curve_filename realization))
    <$> xrange 0 realizations.

Definition mean_files : list string :=
  if COMPUTE_MEAN_HAZARD_CURVE job_ctxt then
    build_nrml_path mean_hazard_curve_filename ::
    ((fun poe => build_nrml_path (mean_hazard_map_filename poe))
       <$> poes_hazard_maps job_ctxt)
  else [].

Definition quantile_files (quantiles : list Q) : list string :=
  ((fun quantile => build_nrml_path (quantile_hazard_curve_filename quantile))
     <$> quantiles) ++
  concat ((fun quantile =>
             (fun poe => build_nrml_path (quantile_hazard_map_filename quantile poe))
               <$> poes_hazard_maps job_ctxt)
            <$> quantiles).

Definition block_files (realizations : Z) : list string :=
  curve_files realizations ++ mean_files ++ quantile_files (quantile_levels job_ctxt).

Lemma concat_singletons {A B} (f : A -> B) (l : list A) :
  concat ((fun a => [f a]) <$> l) = f <$> l.
Proof. induction l as [|a l IH]; [reflexivity|]. cbn. now rewrite IH. Qed.

Lemma files_do_curves (sites : list Site) realizations quantiles fuel :
  (forall log, failure_counters log = []) ->
  (forall log kvs key,
     curve_key sites realizations quantiles key -> is_Some (workers log kvs !! key)) ->
  (0 < fuel)%nat ->
  files_written (curve_files realizations)
    (do_curves sites realizations (Some (ath_hazard_curve_of_realization fuel))
       compute_hazard_curve).
Proof.
  intros no_failure curves_present some_fuel.
  unfold do_curves, curve_files. apply files_after; [files_event|]. intros _.
  apply files_before; [|intros; apply files_ret].
  rewrite <- concat_singletons.
  apply files_for_fold_in. intros realization Hr%elem_of_xrange [g gg].
  apply files_after; [files_event|]. intros _.
  apply files_after; [files_event|]. intros _.
  destruct (getrandbits g 32) as [bits g1].
  unfold store_source_model, store_gmpe_map.
  apply files_after; [files_event|]. intros _.
  destruct (getrandbits g1 32) as [bits' g2].
  apply files_after; [files_event|]. intros _.
  apply files_before; [|intros; apply files_ret].
  apply files_distribute; [reflexivity|apply insert_non_empty|].
  unfold ath_hazard_curve_of_realization. rewrite arg_sites_insert.
  rewrite lookup_insert_ne by discriminate. rewrite lookup_insert_eq.
  apply files_before; [|intros; apply files_ret].
  unfold serialize_hazard_curve_of_realization.
  apply files_before; [|intros; apply files_ret].
  apply (files_serialize_hazard_curve sites realizations quantiles); auto.
  intros s Hs. exists s. split; [exact Hs|]. left. now exists realization.
Qed.

Lemma files_do_means (sites : list Site) realizations quantiles fuel :
  (forall log, failure_counters log = []) ->
  (forall log kvs key,
     curve_key sites realizations quantiles key -> is_Some (workers log kvs !! key)) ->
  (0 < fuel)%nat ->
  files_written mean_files
    (do_means sites realizations (Some (ath_mean_hazard_curves fuel))
       compute_mean_curves (Some compute_mean_hazard_maps)
       (Some serialize_mean_hazard_map)).
Proof.
  intros no_failure curves_present some_fuel.
  unfold do_means, mean_files.
  destruct (COMPUTE_MEAN_HAZARD_CURVE job_ctxt); cbn [negb]; [|apply files_ret].
  apply files_after; [files_event|]. intros _.
  apply (files_bind [build_nrml_path mean_hazard_curve_filename]).
  - apply files_distribute; [reflexivity|apply insert_non_empty|].
    unfold ath_mean_hazard_curves.
    change ({[ "sites" := VList (VSite <$> sites) ]} : kwargs)
      with (<["sites" := VList (VSite <$> sites)]> (∅ : kwargs)).
    rewrite arg_sites_insert. apply files_before; [|intros; apply files_ret].
    unfold serialize_mean_hazard_curves.
    apply files_before; [|intros; apply files_ret].
    apply (files_serialize_hazard_curve sites realizations quantiles); auto.
    intros s Hs. exists s. split; [exact Hs|]. right. now left.
  - intros _. destruct (poes_hazard_maps job_ctxt) as [|poe poes] eqn:Ep;
      [apply files_ret|].
    unfold compute_mean_hazard_maps.
    apply files_after; [files_event|]. intros _.
    apply files_after; [files_event|]. intros _.
    apply files_after; [files_event|]. intros _.
    unfold serialize_mean_hazard_map.
    exact (files_hazard_maps sites Q (poe :: poes) (fun poe => poe)
             (fun poe => mean_hazard_map_key_template (job_id job_ctxt) poe)
             (fun _ => {[ "statistics" := VStr "mean" ]})
             mean_hazard_map_filename).
Qed.

Lemma files_do_quantiles (sites : list Site) realizations quantiles fuel :
  (forall log, failure_counters log = []) ->
  (forall log kvs key,
     curve_key sites realizations quantiles key -> is_Some (workers log kvs !! key)) ->
  (0 < fuel)%nat ->
  files_written (quantile_files quantiles)
    (do_quantiles sites realizations quantiles
       (Some (ath_quantile_hazard_curves fuel))
       compute_quantile_curves (Some compute_quantile_hazard_maps)
       (Some serialize_quantile_hazard_map)).
Proof.
  intros no_failure curves_present some_fuel.
  unfold do_quantiles, quantile_files.
  destruct quantiles as [|q0 quantiles0] eqn:Eq; [apply files_ret|].
  rewrite <- Eq in *. clear Eq.
  apply files_after; [files_event|]. intros _.
  apply files_bind.
  - apply files_distribute; [reflexivity|apply insert_non_empty|].
    unfold ath_quantile_hazard_curves. rewrite arg_sites_insert.
    unfold arg_quantiles. rewrite lookup_insert_ne by discriminate.
    destruct (arg_quantiles_insert quantiles ∅) as [_ Hq].
    unfold arg_quantiles in Hq. rewrite Hq.
    apply files_before; [|intros; apply files_ret].
    unfold serialize_quantile_hazard_curves. rewrite <- concat_singletons.
    apply files_for_in. intros quantile Hin.
    apply files_before; [|intros; apply files_ret].
    apply (files_serialize_hazard_curve sites realizations quantiles); auto.
    intros s Hs. exists s. split; [exact Hs|].
    right. right. now exists quantile.
  - intros _. destruct (poes_hazard_maps job_ctxt) as [|poe poes] eqn:Ep.
    + assert (Hnil : concat ((fun _ : Q => @nil string) <$> quantiles) = []).
      { clear. induction quantiles as [|q l IH]; [reflexivity|exact IH]. }
      cbn [fmap list_fmap]. rewrite Hnil. apply files_ret.
    + unfold compute_quantile_hazard_maps.
      apply files_after; [files_event|]. intros _.
      apply files_after; [files_event|]. intros _.
      apply files_after; [files_event|]. intros _.
      apply files_for_in. intros quantile Hin.
      apply files_after; [files_event|]. intros _.
      unfold serialize_quantile_hazard_map.
      exact (files_hazard_maps sites Q (poe :: poes) (fun poe => poe)
               (fun poe => quantile_hazard_map_key_template (job_id job_ctxt) poe
                             quantile)
               (fun _ => <["statistics" := VStr "quantile"]>
                           (<["quantileValue" := VFloat quantile]> ∅))
               (quantile_hazard_map_filename quantile)).
Qed.

Lemma files_execute_block fuel data realizations purged :
  (forall log, failure_counters log = []) ->
  (forall log kvs key,
     curve_key data realizations (quantile_levels job_ctxt) key ->
     is_Some (workers log kvs !! key)) ->
  (0 < fuel)%nat ->
  files_written (block_files realizations)
    (execute_block fuel data realizations purged).
Proof.
  intros Hf Hw Hfuel. unfold execute_block, block_files.
  apply files_after; [files_event|]. intros _.
  apply files_bind;
    [now apply (files_do_curves data realizations (quantile_levels job_ctxt))|].
  intros _. apply files_after; [files_event|]. intros _.
  apply files_bind;
    [now apply (files_do_means data realizations (quantile_levels job_ctxt))|].
  intros _. apply files_after; [files_event|]. intros _.
  apply files_before; [now apply files_do_quantiles|].
  intros _ w. rewrite release_data_from_kvs_run. cbv zeta.
  eexists _, _, _. splits; [reflexivity|reflexivity|].
  cbn [purged_world]. generalize (purge_batches (job_id job_ctxt) data realizations
    (quantile_levels job_ctxt) (poes_hazard_maps job_ctxt)).
  intros batches. induction batches as [|keys batches IH]; [reflexivity|exact IH].
Qed.

(** X22: when nothing stands in its way (a positive block size, no failure
    on record, the curves the orchestrator waits for in the cache), [execute]
    creates the same writers for every block, in the same order: the curve
    file of every realization, then (if mean curves are computed) the file of
    the mean curve and the mean map of every PoE, then the curve file of every
    quantile and the map of every quantile and PoE.  The names do not depend
    on the block: with several blocks, every block writes to the same
    files. *)
Theorem execute_writes_the_same_files_for_every_block fuel purged w :
  0 < hazard_block_size job_ctxt ->
  (forall log, failure_counters log = []) ->
  (forall log kvs key,
     curve_key (sites_to_compute job_ctxt) (NUMBER_OF_LOGIC_TREE_SAMPLES job_ctxt)
       (quantile_levels job_ctxt) key ->
     is_Some (workers log kvs !! key)) ->
  (0 < fuel)%nat ->
  exists p w' evs,
    execute fuel purged w = (Ok p, w') /\
    w_log w' = w_log w ++ evs /\
    writers evs =
      concat ((fun _ => block_files (NUMBER_OF_LOGIC_TREE_SAMPLES job_ctxt))
                <$> block_slices (sites_to_compute job_ctxt)
                      (hazard_block_size job_ctxt)).
Proof.
  intros Hb Hf Hw Hfuel.
  destruct (block_slices_partition (sites_to_compute job_ctxt)
              (hazard_block_size job_ctxt) Hb) as [Hcat _].
  assert (Hblocks : forall purged0,
            files_written
              (concat ((fun _ => block_files (NUMBER_OF_LOGIC_TREE_SAMPLES job_ctxt))
                         <$> block_slices (sites_to_compute job_ctxt)
                               (hazard_block_size job_ctxt)))
              (for_fold (block_slices (sites_to_compute job_ctxt)
                           (hazard_block_size job_ctxt))
                 (block_body fuel (NUMBER_OF_LOGIC_TREE_SAMPLES job_ctxt)) purged0)).
  { apply files_for_fold_in. intros data Hdata p0. unfold block_body.
    apply files_after; [files_event|]. intros _.
    apply files_execute_block; [exact Hf| |exact Hfuel].
    intros log kvs key (s & Hs & Hk). apply Hw. exists s. split; [|exact Hk].
    rewrite <- Hcat. apply list_elem_of_In, in_concat. exists data.
    split; now apply list_elem_of_In. }
  rewrite (execute_decompose fuel purged w Hb).
  assert (Hpro : files_written [] execute_prologue).
  { unfold execute_prologue. repeat (apply files_after; [files_event|]; intros _).
    files_event. }
  exact (files_after _ _ _ Hpro (fun _ => Hblocks purged) w).
Qed.

(** ** compute_hazard_curve, the method of the calculator that the workers run

    [ClassicalHazardCalculator.compute_hazard_curve] runs in a worker; its
    world is the cache.  The call into Java is a parameter: it gives the
    list of the ordinates, one entry per site (their JSON text, taken here as
    the value it decodes to), or the exception that
    [unwrap_validation_error] raises for the Java exception thrown.  The
    name [compute_hazard_curve] is that of the celery task above. *)

Section Worker.

Variable hazard_curve_poes_key : Z -> Z -> Site -> Key.
Variable getHazardCurvesAsJson : list Site -> exn + list value.

(** [for site, poes in izip(sites, poes_list)]: the key of the site is set
    and appended to [curve_keys]. *)
Definition write_curve (job_id realization : Z)
    (st : list Key * gmap Key value) (entry : Site * value)
    : list Key * gmap Key value :=
  let curve_key := hazard_curve_poes_key job_id realization entry.1 in
  (st.1 ++ [curve_key], <[curve_key := entry.2]> st.2).

Definition calculator_compute_hazard_curve
    (sites : list Site) (realization : Z) (kvs : gmap Key value)
    : Res (list Key) * gmap Key value :=
  match getHazardCurvesAsJson sites with
  | inl ex => (Raise ex, kvs)
  | inr poes_list =>
      let '(curve_keys, kvs) :=
        foldl (write_curve (job_id job_ctxt) realization) ([], kvs)
          (zip sites poes_list) in
      (Ok curve_keys, kvs)
  end.

Lemma fst_zip_take {A B} (l : list A) (k : list B) : (zip l k).*1 = take (length k) l.
Proof.
  revert k. induction l as [|a l IH]; intros [|b k]; try reflexivity.
  cbn. f_equal. apply IH.
Qed.

Lemma write_curves job_id realization (entries : list (Site * value)) :
  forall curve_keys kvs, exists kvs',
    foldl (write_curve job_id realization) (curve_keys, kvs) entries
    = (curve_keys ++ (hazard_curve_poes_key job_id realization <$> entries.*1), kvs') /\
    (forall key, key ∉ hazard_curve_poes_key job_id realization <$> entries.*1 ->
       kvs' !! key = kvs !! key) /\
    (NoDup (hazard_curve_poes_key job_id realization <$> entries.*1) ->
     forall site poes, (site, poes) ∈ entries ->
       kvs' !! hazard_curve_poes_key job_id realization site = Some poes).
Proof.
  induction entries as [|[site poes] entries IH]; intros curve_keys kvs.
  - exists kvs. cbn. rewrite app_nil_r. splits; auto. intros _ s p Hin. inversion Hin.
  - cbn [foldl].
    change (write_curve job_id realization (curve_keys, kvs) (site, poes))
      with (curve_keys ++ [hazard_curve_poes_key job_id realization site],
            <[hazard_curve_poes_key job_id realization site := poes]> kvs).
    destruct (IH (curve_keys ++ [hazard_curve_poes_key job_id realization site])
                 (<[hazard_curve_poes_key job_id realization site := poes]> kvs))
      as (kvs' & E & Hother & Hwritten).
    exists kvs'. cbn [fmap list_fmap fst]. splits.
    + rewrite E. now rewrite <- app_assoc.
    + intros key Hk. apply not_elem_of_cons in Hk as [Hne Hk].
      rewrite (Hother key Hk). now rewrite lookup_insert_ne.
    + intros Hnd s p Hin.
      apply NoDup_cons in Hnd as [Hfresh Hnd].
      apply elem_of_cons in Hin as [[= -> ->]|Hin].
      * rewrite (Hother _ Hfresh). apply lookup_insert_eq.
      * now apply Hwritten.
Qed.

(** X23: when the Java calculator hands back the ordinates,
    [compute_hazard_curve] pairs them with the sites as [izip] does, in order
    and up to the shorter of the two lists: it returns one key per pair, in
    that order, and leaves every other key of the cache as it was.  If the
    keys of the sites are distinct, then afterwards every returned key holds
    the ordinates of its site.  A site beyond the length of the list of
    ordinates gets no key at all.  If Java throws, the exception is raised
    and the cache is not touched. *)
Theorem compute_hazard_curve_writes_the_curves
    (sites : list Site) (realization : Z) (kvs : gmap Key value) :
  let run := calculator_compute_hazard_curve sites realization kvs in
  let key := hazard_curve_poes_key (job_id job_ctxt) realization in
  (forall ex, getHazardCurvesAsJson sites = inl ex -> run = (Raise ex, kvs)) /\
  (forall poes_list,
     getHazardCurvesAsJson sites = inr poes_list ->
     let written := take (length poes_list) sites in
     fst run = Ok (key <$> written) /\
     (forall k, k ∉ key <$> written -> snd run !! k = kvs !! k) /\
     (NoDup (key <$> written) ->
      forall (i : nat) site poes,
        sites !! i = Some site -> poes_list !! i = Some poes ->
        snd run !! key site = Some poes)).
Proof.
  cbv zeta. unfold calculator_compute_hazard_curve. split.
  - intros ex ->. reflexivity.
  - intros poes_list ->.
    destruct (write_curves (job_id job_ctxt) realization (zip sites poes_list) [] kvs)
      as (kvs' & E & Hother & Hwritten).
    rewrite E. cbn [fst snd app]. rewrite fst_zip_take in Hother, Hwritten |- *.
    splits.
    + reflexivity.
    + exact Hother.
    + intros Hnd i site poes Hs Hp. apply (Hwritten Hnd).
      apply list_elem_of_lookup. exists i. now apply lookup_zip_Some.
Qed.

End Worker.

End ClassicalHazardCalculator.


(** ** do_curves and the seed of the ground-motion-model stream *)

(** The job with another [GMPE_LT_RANDOM_SEED]. *)
Definition with_gmpe_seed (job_ctxt : JobContext) (seed : Z) : JobContext :=
  {| job_id := job_id job_ctxt;
     SOURCE_MODEL_LT_RANDOM_SEED := SOURCE_MODEL_LT_RANDOM_SEED job_ctxt;
     GMPE_LT_RANDOM_SEED := seed;
     NUMBER_OF_LOGIC_TREE_SAMPLES := NUMBER_OF_LOGIC_TREE_SAMPLES job_ctxt;
     COMPUTE_MEAN_HAZARD_CURVE := COMPUTE_MEAN_HAZARD_CURVE job_ctxt;
     INVESTIGATION_TIME := INVESTIGATION_TIME job_ctxt;
     INTENSITY_MEASURE_TYPE := INTENSITY_MEASURE_TYPE job_ctxt;
     REFERENCE_VS30_VALUE := REFERENCE_VS30_VALUE job_ctxt;
     imls := imls job_ctxt;
     sites_to_compute := sites_to_compute job_ctxt;
     quantile_levels := quantile_levels job_ctxt;
     poes_hazard_maps := poes_hazard_maps job_ctxt;
     hazard_block_size := hazard_block_size job_ctxt |}.

(** The generator seeded with [GMPE_LT_RANDOM_SEED] is never drawn from:
    whatever that seed is, [do_curves] does the same, and stores the same
    seeds. *)
Lemma do_curves_ignores_gmpe_seed job_ctxt seed sites realizations serializer
    the_task w :
  do_curves (with_gmpe_seed job_ctxt seed) sites realizations serializer the_task w
  = do_curves job_ctxt sites realizations serializer the_task w.
Proof.
  unfold do_curves. cbn [with_gmpe_seed job_id SOURCE_MODEL_LT_RANDOM_SEED
                         GMPE_LT_RANDOM_SEED].
  match goal with |- context [for_fold _ ?b _] => remember b as body eqn:Hbody end.
  unfold bind, pk_set. cbv beta iota.
  generalize (rng_seed seed). generalize (rng_seed (GMPE_LT_RANDOM_SEED job_ctxt)).
  generalize (rng_seed (SOURCE_MODEL_LT_RANDOM_SEED job_ctxt)).
  match goal with |- context [for_fold _ _ _ ?w1] => generalize w1 end.
  generalize (xrange 0 realizations).
  intros l. induction l as [|realization l IH]; intros w0 g gg gg'; [reflexivity|].
  simpl for_fold. unfold bind.
  pose proof (f_equal (fun b => b realization (g, gg') w0) Hbody) as Hb'.
  pose proof (f_equal (fun b => b realization (g, gg) w0) Hbody) as Hb.
  cbv beta iota in Hb, Hb'. rewrite Hb, Hb'. clear Hb Hb'.
  unfold bind, pk_inc, store_source_model, store_gmpe_map, emit. cbv beta iota.
  destruct (getrandbits g 32) as [b1 g1].
  destruct (getrandbits g1 32) as [b2 g2].
  match goal with |- context [distribute ?a ?b ?c ?d ?e ?f ?g ?w1] =>
    destruct (distribute a b c d e f g w1) as [[v|e0|] w2]
  end; try reflexivity.
  unfold ret at 1 3. cbv beta iota. apply IH.
Qed.


End Openquake.

(** * Evaluation on a small job *)

Definition fx_fmt (template h : Z) : Z := template * 1000 + h.
Definition fx_hash (site : Z) : Z := site.
Definition fx_curve_template (job_id realization : Z) : Z := 10 + realization.
Definition fx_mean_template (job_id : Z) : Z := 1.
Definition fx_quantile_template (job_id : Z) (quantile : @value Z) : Z := 2.
Definition fx_mean_map_template (job_id : Z) (poe : Q) : Z := 3.
Definition fx_quantile_map_template (job_id : Z) (poe quantile : Q) : Z := 4.
Definition fx_str_int (n : Z) : string := "n".
Definition fx_str_float (x : Q) : string := "x".
Definition fx_path (file : string) : string := file.

(** A linear congruential generator in the place of [random.Random]. *)
Definition fx_seed (x : Z) : Z := x.
Definition fx_getrandbits (g k : Z) : Z * Z :=
  let g' := (g * 1103515245 + 12345) mod 2147483648 in
  (g' mod 2 ^ k, g').

Definition fx_no_failure (log : list (@Event Z Z)) : list (string * Z) := [].

Definition fx_curve : @value Z := VList [VFloat (1 # 2); VFloat (1 # 4)].

(** Workers that have everything in the cache at once. *)
Definition fx_keys : list Z :=
  t ← [1; 2; 3; 4; 10; 11]; s ← [1; 2; 3]; [fx_fmt t s].

Definition fx_ready (log : list (@Event Z Z)) (kvs : gmap Z (@value Z))
    : gmap Z (@value Z) :=
  foldr (fun key kvs => <[key := fx_curve]> kvs) kvs fx_keys.

(** What a worker hands back: the item of its subtask. *)
Definition fx_worker_run (name : string) (kw : gmap string (@value Z)) : @value Z :=
  match kw !! "site_id" with
  | Some v => v
  | None => default VNone (kw !! "sites")
  end.

Definition fx_job : @JobContext Z :=
  {| job_id := 7;
     SOURCE_MODEL_LT_RANDOM_SEED := 1;
     GMPE_LT_RANDOM_SEED := 2;
     NUMBER_OF_LOGIC_TREE_SAMPLES := 2;
     COMPUTE_MEAN_HAZARD_CURVE := true;
     INVESTIGATION_TIME := VFloat 50;
     INTENSITY_MEASURE_TYPE := VStr "PGA";
     REFERENCE_VS30_VALUE := VFloat 760;
     imls := VList [VFloat (1 # 100); VFloat (1 # 10)];
     sites_to_compute := [1; 2; 3];
     quantile_levels := [1 # 2];
     poes_hazard_maps := [1 # 10];
     hazard_block_size := 2 |}.

Definition fx_world : @World Z Z _ _ := {| w_log := []; w_kvs := ∅; w_pk := ∅ |}.

Definition fx_execute (fuel : nat) :=
  execute fx_fmt fx_hash fx_curve_template fx_mean_template fx_quantile_template
    fx_mean_map_template fx_quantile_map_template fx_str_int fx_str_float fx_str_float
    fx_path fx_seed fx_getrandbits fx_no_failure fx_ready fx_worker_run fx_job fuel None
    fx_world.


(** Workers that are slow: the curve of site 1 is in the cache after the
    second sleep of the orchestrator, that of site 2 after the fourth. *)
Definition fx_sleeps (log : list (@Event Z Z)) : nat :=
  length (omap (fun ev => match ev with EvSleep p => Some p | _ => None end) log).

Definition fx_slow (log : list (@Event Z Z)) (kvs : gmap Z (@value Z))
    : gmap Z (@value Z) :=
  let kvs := if (2 <=? fx_sleeps log)%nat then <[fx_fmt 10 1 := fx_curve]> kvs else kvs in
  if (4 <=? fx_sleeps log)%nat then <[fx_fmt 10 2 := fx_curve]> kvs else kvs.

(** A failure is recorded by the time of the third sleep. *)
Definition fx_failure (log : list (@Event Z Z)) : list (string * Z) :=
  if (3 <=? fx_sleeps log)%nat then [("hazard:failed", 1)] else [].

Definition fx_xsc : XSC :=
  {| xsc_blocks := None; xsc_cblock := None; i_total := 2; i_done := 0; i_next := 0 |}.

Definition fx_poll_body (st : @Poll Z _ _) (w : @World Z Z _ _) :=
  poll_body fx_fmt fx_hash fx_no_failure fx_slow fx_job "hazardcurve-0.xml" 10 ∅
    {[1; 2]} st w.

(** The loop variables and the world after [n] iterations with the slow
    workers. *)
Fixpoint fx_states (n : nat) : @Poll Z _ _ * @World Z Z _ _ :=
  match n with
  | O => (poll_init fx_xsc, fx_world)
  | S n' =>
      let '(st, w) := fx_states n' in
      match fx_poll_body st w with
      | (Ok st', w') => (st', w')
      | (_, w') => (st, w')
      end
  end.

Definition fx_serialize (failure_counters : list (@Event Z Z) -> list (string * Z))
    (fuel : nat) :=
  serialize_hazard_curve fx_fmt fx_hash fx_path failure_counters fx_slow fx_job fuel
    "hazardcurve-0.xml" 10 ∅ [1; 2] fx_world.


(** ** distribute *)

(** C1, counterexample: called with no items, for a task whose results are
    ignored and for one whose results are collected, [distribute] returns
    ([None], and the empty list); it raises nothing. *)
Lemma distribute_empty_data_returns :
  fst (distribute (compute_hazard_curve fx_worker_run) "sites" [] None None None false
         fx_world) = Ok VNone /\
  fst (distribute (compute_mgm_intensity fx_worker_run) "site_id" [] None None None false
         fx_world) = Ok (VList []) /\
  ~ (exists e,
       fst (distribute (compute_hazard_curve fx_worker_run) "sites" [] None None None
              false fx_world) = Raise e).
Proof.
  split; [reflexivity|]. split; [reflexivity|]. intros [e He]. discriminate He.
Qed.

Definition fx_items : list (@value Z) := [VInt 1; VInt 2].

(** C8, on two items: the results come back in the order of the items. *)
Lemma distribute_collect_in_order_witness :
  fx_items <> [] /\
  ignore_result (compute_mgm_intensity fx_worker_run) = false /\
  fst (distribute (compute_mgm_intensity fx_worker_run) "site_id" fx_items
         None None None false fx_world) = Ok (VList fx_items).
Proof.
  assert (H1 : fx_items <> []) by discriminate.
  assert (H2 : ignore_result (compute_mgm_intensity fx_worker_run) = false)
    by reflexivity.
  split; [exact H1|]. split; [exact H2|].
  destruct (distribute_collect_in_order (compute_mgm_intensity fx_worker_run)
              "site_id" fx_items None None None false fx_world H1 H2)
    as (_ & Hok & _).
  destruct (Hok eq_refl) as [Hplain _]. exact (Hplain eq_refl).
Defined.

(** A subtask that hands back an exception for the second item: the call
    raises it. *)
Definition fx_failing_run (name : string) (kw : gmap string (@value Z)) : @value Z :=
  match kw !! "site_id" with
  | Some (VInt 2) => VExc (TaskError "no such site")
  | Some v => v
  | None => VNone
  end.

Example distribute_collect_raises :
  fst (distribute (compute_mgm_intensity fx_failing_run) "site_id"
         [VInt 1; VInt 2; VInt 3] None None None false fx_world)
  = Raise (TaskError "no such site").
Proof. reflexivity. Qed.

(** ** do_curves *)

(** C2, evaluated: with source-model seed 1 and ground-motion-model seed 2
    the seed stored for the ground-motion model of the first realization is
    the second draw of the generator seeded with 1, not a draw of the one
    seeded with 2. *)
Lemma do_curves_draws_gmpe_seed_from_source_model_stream :
  let stored :=
    w_log (snd (do_curves fx_seed fx_getrandbits fx_job [1; 2] 1 None
                  (compute_hazard_curve fx_worker_run) fx_world)) in
  let first := fx_getrandbits (fx_seed (SOURCE_MODEL_LT_RANDOM_SEED fx_job)) 32 in
  let second := fx_getrandbits (snd first) 32 in
  source_model_seeds stored = [fst first] /\
  gmpe_seeds stored = [fst second] /\
  gmpe_seeds stored
    <> [fst (fx_getrandbits (fx_seed (GMPE_LT_RANDOM_SEED fx_job)) 32)].
Proof. cbv zeta. split; [reflexivity|]. split; [reflexivity|]. discriminate. Qed.

(** ** serialize_hazard_curve *)

Example serialize_hazard_curve_slow_workers :
  fst (fx_serialize fx_no_failure 5) = Ok "hazardcurve-0.xml" /\
  serialized_batches (w_log (snd (fx_serialize fx_no_failure 5))) = [[1]; [2]] /\
  fst (fx_serialize fx_no_failure 3) = OutOfFuel.
Proof. repeat split; reflexivity. Qed.

(** C3, counterexample: the failure is recorded while the loop sleeps in its
    third iteration; the cache read of that iteration still follows, and the
    loop raises at the check of the fourth. *)
Lemma serialize_hazard_curve_reads_after_failure :
  let evs := w_log (snd (fx_serialize fx_failure 5)) in
  exists pre post,
    evs = pre ++ EvKvsGet (fx_fmt 10 2) None :: post /\
    fx_failure pre = [("hazard:failed", 1)] /\
    post = [EvFailureCounters 7 [("hazard:failed", 1)]] /\
    fst (fx_serialize fx_failure 5) = Raise (RuntimeError [("hazard:failed", 1)]).
Proof.
  cbv zeta.
  exists (take 15 (w_log (snd (fx_serialize fx_failure 5)))),
         (drop 16 (w_log (snd (fx_serialize fx_failure 5)))).
  repeat split; vm_compute; reflexivity.
Qed.

Lemma fx_reachable_1 :
  reachable fx_fmt fx_hash fx_no_failure fx_slow fx_job "hazardcurve-0.xml" 10 ∅
    {[1; 2]} fx_xsc 1 (fst (fx_states 1)).
Proof.
  apply (reachable_idle _ _ _ _ _ _ _ _ _ _ 0 (fst (fx_states 0)) (snd (fx_states 0))
           (fst (fx_states 1)) (snd (fx_states 1))).
  - apply reachable_init.
  - vm_compute. reflexivity.
  - vm_compute. reflexivity.
Qed.

Lemma fx_reachable_2 :
  reachable fx_fmt fx_hash fx_no_failure fx_slow fx_job "hazardcurve-0.xml" 10 ∅
    {[1; 2]} fx_xsc 1 (fst (fx_states 2)).
Proof.
  apply (reachable_progress _ _ _ _ _ _ _ _ _ _ 1 (fst (fx_states 1))
           (snd (fx_states 1)) (fst (fx_states 2)) (snd (fx_states 2))).
  - exact fx_reachable_1.
  - vm_compute. reflexivity.
  - vm_compute. discriminate.
Qed.

(** C4, counterexample: after one escalation (0.1 to 0.2) and one decay (to
    0.16), an iteration in which no site completes sets the pause to 0.4,
    which is not twice 0.16. *)
Lemma pause_not_doubled :
  let st := fst (fx_states 2) in
  let w := snd (fx_states 2) in
  let st' := fst (fx_states 3) in
  reachable fx_fmt fx_hash fx_no_failure fx_slow fx_job "hazardcurve-0.xml" 10 ∅
    {[1; 2]} fx_xsc 1 st /\
  fx_poll_body st w = (Ok st', snd (fx_states 3)) /\
  accounted_for st' = accounted_for st /\
  (pause st == 16 # 100)%Q /\
  (pause st < 45)%Q /\
  (pause st' == 4 # 10)%Q /\
  ~ (pause st' == pause st * 2)%Q.
Proof.
  cbv zeta. split; [exact fx_reachable_2|].
  repeat split; try (vm_compute; reflexivity). vm_compute. discriminate.
Qed.

(** C4 (amended), at the state reached after one escalation and one decay. *)
Lemma pause_backoff_witness :
  let st := fst (fx_states 2) in
  reachable fx_fmt fx_hash fx_no_failure fx_slow fx_job "hazardcurve-0.xml" 10 ∅
    {[1; 2]} fx_xsc 1 st /\
  (min_pause <= pause st <= 90)%Q /\
  (pause st <= pause (fst (fx_states 3)) <= 90)%Q.
Proof.
  cbv zeta.
  destruct (pause_backoff fx_fmt fx_hash fx_no_failure fx_slow fx_job
              "hazardcurve-0.xml" 10 ∅ {[1; 2]} fx_xsc 1 (fst (fx_states 2))
              fx_reachable_2) as (_ & Hb & Hstep).
  split; [exact fx_reachable_2|]. split; [exact Hb|].
  destruct (Hstep (snd (fx_states 2)) (fst (fx_states 3)) (snd (fx_states 3)))
    as [Hidle _]; [vm_compute; reflexivity|].
  destruct Hidle as (_ & _ & Hle); [vm_compute; reflexivity|exact Hle].
Defined.

(** C9, at the same state: the escalation after the decay yields
    [min(0.1 * 2^2, 51.2) = 0.4]. *)
Lemma escalation_independent_of_decay_witness :
  let st := fst (fx_states 2) in
  reachable fx_fmt fx_hash fx_no_failure fx_slow fx_job "hazardcurve-0.xml" 10 ∅
    {[1; 2]} fx_xsc 1 st /\
  (pause st == 16 # 100)%Q /\
  (pause (fst (fx_states 3)) == Qmin (min_pause * 2 ^ 2) (512 # 10))%Q.
Proof.
  cbv zeta.
  destruct (escalation_independent_of_decay fx_fmt fx_hash fx_no_failure fx_slow fx_job
              "hazardcurve-0.xml" 10 ∅ {[1; 2]} fx_xsc 1 (fst (fx_states 2))
              fx_reachable_2) as (_ & Hstep).
  split; [exact fx_reachable_2|]. split; [vm_compute; reflexivity|].
  destruct (Hstep (snd (fx_states 2)) (fst (fx_states 3)) (snd (fx_states 3)))
    as [Hidle _]; [vm_compute; reflexivity|].
  destruct Hidle as (Hp & _); [vm_compute; reflexivity|exact Hp].
Defined.

(** ** execute *)

(** C7, on three sites in blocks of two, two realizations, one quantile and
    one PoE: the run returns, and the log shows the two blocks one after the
    other, each with its phases in order and its own keys purged. *)
Lemma execute_blocks_in_order_witness :
  0 < hazard_block_size fx_job /\
  block_slices (sites_to_compute fx_job) (hazard_block_size fx_job) = [[1; 2]; [3]] /\
  fst (fx_execute 3) = Ok None /\
  phases (new_events fx_world (snd (fx_execute 3))) =
    [Curves; Means; Quantiles;
     Purge [10001; 10002]; Purge [11001; 11002]; Purge [1001; 1002];
     Purge [2001; 2002; 4001; 4002]; Purge [3001; 3002];
     Curves; Means; Quantiles;
     Purge [10003]; Purge [11003]; Purge [1003]; Purge [2003; 4003]; Purge [3003]].
Proof.
  assert (Hb : 0 < hazard_block_size fx_job) by reflexivity.
  split; [exact Hb|]. split; [vm_compute; reflexivity|].
  split; [vm_compute; reflexivity|]. unfold fx_execute.
  destruct (execute_blocks_in_order fx_fmt fx_hash fx_curve_template fx_mean_template
              fx_quantile_template fx_mean_map_template fx_quantile_map_template
              fx_str_int fx_str_float fx_str_float fx_path fx_seed fx_getrandbits
              fx_no_failure fx_ready fx_worker_run fx_job 3 None fx_world Hb)
    as (_ & _ & evs & Hlog & Hph).
  rewrite (new_events_app _ _ _ Hlog).
  destruct Hph as [[_ ->]|[Hno _]]; [vm_compute; reflexivity|].
  exfalso. apply (Hno None). vm_compute. reflexivity.
Defined.

(** * Evaluation of the further properties *)

(** The job of the evaluation with another site list and block size. *)
Definition fx_job_with (sites : list Z) (block_size : Z) : @JobContext Z :=
  {| job_id := job_id fx_job;
     SOURCE_MODEL_LT_RANDOM_SEED := SOURCE_MODEL_LT_RANDOM_SEED fx_job;
     GMPE_LT_RANDOM_SEED := GMPE_LT_RANDOM_SEED fx_job;
     NUMBER_OF_LOGIC_TREE_SAMPLES := NUMBER_OF_LOGIC_TREE_SAMPLES fx_job;
     COMPUTE_MEAN_HAZARD_CURVE := COMPUTE_MEAN_HAZARD_CURVE fx_job;
     INVESTIGATION_TIME := INVESTIGATION_TIME fx_job;
     INTENSITY_MEASURE_TYPE := INTENSITY_MEASURE_TYPE fx_job;
     REFERENCE_VS30_VALUE := REFERENCE_VS30_VALUE fx_job;
     imls := imls fx_job;
     sites_to_compute := sites;
     quantile_levels := quantile_levels fx_job;
     poes_hazard_maps := poes_hazard_maps fx_job;
     hazard_block_size := block_size |}.

(** [execute] on a job, with the workers that have everything in the cache. *)
Definition fx_run (job : @JobContext Z)
    (failure_counters : list (@Event Z Z) -> list (string * Z)) (fuel : nat)
    (purged : option (list Z)) :=
  execute fx_fmt fx_hash fx_curve_template fx_mean_template fx_quantile_template
    fx_mean_map_template fx_quantile_map_template fx_str_int fx_str_float fx_str_float
    fx_path fx_seed fx_getrandbits failure_counters fx_ready fx_worker_run job fuel purged
    fx_world.

(** A failure is on record from the start. *)
Definition fx_failed (log : list (@Event Z Z)) : list (string * Z) :=
  [("hazard:failed", 1)].

(** A subtask that hands back a list for the first item and a number for the
    others. *)
Definition fx_mixed_run (name : string) (kw : gmap string (@value Z)) : @value Z :=
  match kw !! "site_id" with
  | Some (VInt 1) => VList [VInt 1]
  | Some v => v
  | None => VNone
  end.

Ltac decide_by_evaluation :=
  match goal with |- ?P => refine (@bool_decide_unpack P _ _); vm_compute; exact I end.

Lemma fx_ready_lookup (log : list (@Event Z Z)) (kvs : gmap Z (@value Z)) (key : Z) :
  key ∈ fx_keys -> is_Some (fx_ready log kvs !! key).
Proof.
  unfold fx_ready. generalize fx_keys. intros keys.
  induction keys as [|k keys IH]; intros Hk; [inversion Hk|]. cbn [foldr].
  destruct (decide (k = key)) as [->|Hne].
  - rewrite lookup_insert_eq. eauto.
  - rewrite lookup_insert_ne by exact Hne. apply IH.
    apply elem_of_cons in Hk as [Hk|Hk]; [congruence|exact Hk].
Qed.

Lemma fx_curves_present (log : list (@Event Z Z)) (kvs : gmap Z (@value Z)) (key : Z) :
  curve_key fx_fmt fx_hash fx_curve_template fx_mean_template fx_quantile_template
    fx_str_float fx_job (sites_to_compute fx_job) (NUMBER_OF_LOGIC_TREE_SAMPLES fx_job)
    (quantile_levels fx_job) key ->
  is_Some (fx_ready log kvs !! key).
Proof.
  intros (s & Hs & Hk). apply fx_ready_lookup.
  assert (Hsite : s = 1 \/ s = 2 \/ s = 3).
  { cbn in Hs. repeat (apply elem_of_cons in Hs as [Hs|Hs]; [auto|]). inversion Hs. }
  destruct Hk as [(r & Hr & ->)|[->|(q & Hq & ->)]].
  - cbn in Hr. assert (Hreal : r = 0 \/ r = 1) by lia.
    destruct Hreal as [->| ->]; destruct Hsite as [->|[->| ->]];
      decide_by_evaluation.
  - destruct Hsite as [->|[->| ->]]; decide_by_evaluation.
  - destruct Hsite as [->|[->| ->]]; decide_by_evaluation.
Qed.

(** ** pause_generator *)

(** X1, from 0.1: twelve values, none above 90. *)
Lemma pause_generator_never_exceeds_90_witness :
  (min_pause <= 90)%Q /\
  Forall (fun v => (v <= 90)%Q) (yields 12 (pause_generator min_pause)).
Proof.
  assert (H : (min_pause <= 90)%Q) by (vm_compute; discriminate).
  split; [exact H|]. exact (pause_generator_never_exceeds_90 min_pause 12 H).
Defined.

(** ** distribute *)

(** X3, on two items: the task whose subtask fails on the second item and
    the task whose subtasks all succeed make no difference. *)
Lemma distribute_ignores_subtask_results_witness :
  ignore_result (compute_hazard_curve fx_worker_run) = true /\
  ignore_result (compute_hazard_curve fx_failing_run) = true /\
  task_name (compute_hazard_curve fx_worker_run)
    = task_name (compute_hazard_curve fx_failing_run) /\
  distribute (compute_hazard_curve fx_worker_run) "site_id" fx_items None None None
    false fx_world
  = distribute (compute_hazard_curve fx_failing_run) "site_id" fx_items None None None
      true fx_world.
Proof.
  assert (H1 : ignore_result (compute_hazard_curve fx_worker_run) = true) by reflexivity.
  assert (H2 : ignore_result (compute_hazard_curve fx_failing_run) = true) by reflexivity.
  assert (H3 : task_name (compute_hazard_curve fx_worker_run)
               = task_name (compute_hazard_curve fx_failing_run)) by reflexivity.
  split; [exact H1|]. split; [exact H2|]. split; [exact H3|].
  exact (distribute_ignores_subtask_results (compute_hazard_curve fx_worker_run)
           (compute_hazard_curve fx_failing_run) "site_id" fx_items None None None
           false true fx_world H1 H2 H3).
Defined.

(** X4, on two items: the handler (here one that would raise) is not called. *)
Lemma distribute_collect_never_calls_ath_witness :
  ignore_result (compute_mgm_intensity fx_worker_run) = false /\
  fst (distribute (compute_mgm_intensity fx_worker_run) "site_id" fx_items None
         (Some (fun _ => raise (TaskError "handler called"))) None false fx_world)
  = Ok (VList fx_items).
Proof.
  assert (H1 : ignore_result (compute_mgm_intensity fx_worker_run) = false)
    by reflexivity.
  split; [exact H1|].
  rewrite (distribute_collect_never_calls_ath (compute_mgm_intensity fx_worker_run)
             "site_id" fx_items None
             (Some (fun _ => raise (TaskError "handler called"))) None false fx_world H1).
  vm_compute. reflexivity.
Defined.

(** X5, on two items: the first result is a list, the second a number. *)
Lemma distribute_flatten_not_iterable_witness :
  ignore_result (compute_mgm_intensity fx_mixed_run) = false /\
  fst (distribute (compute_mgm_intensity fx_mixed_run) "site_id" fx_items None None None
         true fx_world)
  = Raise (TypeError "object is not iterable").
Proof.
  assert (H1 : ignore_result (compute_mgm_intensity fx_mixed_run) = false) by reflexivity.
  split; [exact H1|].
  rewrite (distribute_flatten_not_iterable (compute_mgm_intensity fx_mixed_run)
             "site_id" fx_items None None None fx_world H1).
  - reflexivity.
  - vm_compute. reflexivity.
  - vm_compute. reflexivity.
  - exists (VInt 2). split; [|reflexivity].
    apply list_elem_of_In. vm_compute. right. left. reflexivity.
Defined.

(** ** execute *)

(** X8, on a job without sites. *)
Lemma execute_without_blocks_witness :
  hazard_block_size (fx_job_with [] 2) <> 0 /\
  (sites_to_compute (fx_job_with [] 2) = [] \/ hazard_block_size (fx_job_with [] 2) < 0) /\
  fst (fx_run (fx_job_with [] 2) fx_no_failure 1 None) = Ok None.
Proof.
  assert (H1 : hazard_block_size (fx_job_with [] 2) <> 0) by discriminate.
  assert (H2 : sites_to_compute (fx_job_with [] 2) = [] \/
               hazard_block_size (fx_job_with [] 2) < 0) by (left; reflexivity).
  split; [exact H1|]. split; [exact H2|]. unfold fx_run.
  exact (proj1 (execute_without_blocks fx_fmt fx_hash fx_curve_template fx_mean_template
                  fx_quantile_template fx_mean_map_template fx_quantile_map_template
                  fx_str_int fx_str_float fx_str_float fx_path fx_seed fx_getrandbits
                  fx_no_failure fx_ready fx_worker_run (fx_job_with [] 2) 1 None fx_world
                  H1 H2)).
Defined.

(** X9, on the three sites with a block size of zero. *)
Lemma execute_zero_block_size_witness :
  hazard_block_size (fx_job_with [1; 2; 3] 0) = 0 /\
  fst (fx_run (fx_job_with [1; 2; 3] 0) fx_no_failure 1 None)
  = Raise (ValueError "range() step argument must not be zero").
Proof.
  assert (H1 : hazard_block_size (fx_job_with [1; 2; 3] 0) = 0) by reflexivity.
  split; [exact H1|]. unfold fx_run.
  exact (proj1 (execute_zero_block_size fx_fmt fx_hash fx_curve_template fx_mean_template
                  fx_quantile_template fx_mean_map_template fx_quantile_map_template
                  fx_str_int fx_str_float fx_str_float fx_path fx_seed fx_getrandbits
                  fx_no_failure fx_ready fx_worker_run (fx_job_with [1; 2; 3] 0) 1 None
                  fx_world H1)).
Defined.

(** X19, on the job of three sites in blocks of two. *)
Lemma execute_block_counters_witness :
  0 < hazard_block_size fx_job /\
  exists r w' evs,
    fx_run fx_job fx_no_failure 1 None = (r, w') /\
    w_log w' = w_log fx_world ++ evs /\
    Forall (fun x => xsc_blocks x = Some 2 /\
                     exists i, xsc_cblock x = Some i /\ 1 <= i <= 2)
      (contexts evs) /\
    w_pk w' !! (job_id fx_job, "blocks") = Some 2 /\
    (forall p, r = Ok p -> w_pk w' !! (job_id fx_job, "cblock") = Some 2).
Proof.
  assert (H1 : 0 < hazard_block_size fx_job) by reflexivity.
  split; [exact H1|]. unfold fx_run.
  exact (execute_block_counters fx_fmt fx_hash fx_curve_template fx_mean_template
           fx_quantile_template fx_mean_map_template fx_quantile_map_template
           fx_str_int fx_str_float fx_str_float fx_path fx_seed fx_getrandbits
           fx_no_failure fx_ready fx_worker_run fx_job 1 None fx_world H1).
Defined.

(** X17, on the same job with a failure on record. *)
Lemma execute_aborts_on_recorded_failure_witness :
  0 < hazard_block_size fx_job /\
  sites_to_compute fx_job <> [] /\
  0 < NUMBER_OF_LOGIC_TREE_SAMPLES fx_job /\
  (forall log, fx_failed log <> []) /\
  exists failures evs,
    failures <> [] /\
    fst (fx_run fx_job fx_failed 1 None) = Raise (RuntimeError failures) /\
    w_log (snd (fx_run fx_job fx_failed 1 None)) = w_log fx_world ++ evs /\
    phases evs = [Curves].
Proof.
  assert (H1 : 0 < hazard_block_size fx_job) by reflexivity.
  assert (H2 : sites_to_compute fx_job <> []) by discriminate.
  assert (H3 : 0 < NUMBER_OF_LOGIC_TREE_SAMPLES fx_job) by reflexivity.
  assert (H4 : forall log, fx_failed log <> []) by (intros log; discriminate).
  split; [exact H1|]. split; [exact H2|]. split; [exact H3|]. split; [exact H4|].
  unfold fx_run.
  destruct (execute_aborts_on_recorded_failure fx_fmt fx_hash fx_curve_template
              fx_mean_template fx_quantile_template fx_mean_map_template
              fx_quantile_map_template fx_str_int fx_str_float fx_str_float fx_path
              fx_seed fx_getrandbits fx_failed fx_ready fx_worker_run fx_job 0 None
              fx_world H1 H2 H3 H4)
    as (failures & evs & Hfs & Hr & Hlog & _ & _ & Hph & _).
  exists failures, evs. split; [exact Hfs|]. split; [exact Hr|].
  split; [exact Hlog|exact Hph].
Defined.

(** X16, on the same job, with an empty list passed in. *)
Lemma execute_reports_purged_keys_witness :
  0 < hazard_block_size fx_job /\
  fst (fx_run fx_job fx_no_failure 1 (Some []))
  = Ok (Some [10001; 10002; 11001; 11002; 1001; 1002; 2001; 2002; 4001; 4002;
              3001; 3002; 10003; 11003; 1003; 2003; 4003; 3003]) /\
  Some [10001; 10002; 11001; 11002; 1001; 1002; 2001; 2002; 4001; 4002;
        3001; 3002; 10003; 11003; 1003; 2003; 4003; 3003]
  = Some ([] ++
          concat ((fun data =>
                     concat (purge_batches fx_fmt fx_hash fx_curve_template
                               fx_mean_template fx_quantile_template
                               fx_mean_map_template fx_quantile_map_template
                               (job_id fx_job) data (NUMBER_OF_LOGIC_TREE_SAMPLES fx_job)
                               (quantile_levels fx_job) (poes_hazard_maps fx_job)))
                    <$> block_slices (sites_to_compute fx_job)
                          (hazard_block_size fx_job))).
Proof.
  assert (H1 : 0 < hazard_block_size fx_job) by reflexivity.
  assert (H2 : fst (fx_run fx_job fx_no_failure 1 (Some []))
               = Ok (Some [10001; 10002; 11001; 11002; 1001; 1002; 2001; 2002; 4001;
                           4002; 3001; 3002; 10003; 11003; 1003; 2003; 4003; 3003]))
    by (vm_compute; reflexivity).
  split; [exact H1|]. split; [exact H2|]. unfold fx_run in H2.
  exact (proj1 (execute_reports_purged_keys fx_fmt fx_hash fx_curve_template
                  fx_mean_template fx_quantile_template fx_mean_map_template
                  fx_quantile_map_template fx_str_int fx_str_float fx_str_float fx_path
                  fx_seed fx_getrandbits fx_no_failure fx_ready fx_worker_run fx_job 1 []
                  fx_world _ H1 H2)).
Defined.

(** X21, on two sites whose curves are in the cache. *)
Lemma serialize_hazard_curve_terminates_witness :
  (forall log, fx_no_failure log = []) /\
  (forall log kvs s,
     (0 <= length log)%nat -> s ∈ [1; 2] ->
     is_Some (fx_ready log kvs !! fx_fmt 10 (fx_hash s))) /\
  (0 < 1)%nat /\
  exists w' evs,
    serialize_hazard_curve fx_fmt fx_hash fx_path fx_no_failure fx_ready fx_job 1
      "hazardcurve-0.xml" 10 ∅ [1; 2] fx_world = (Ok (fx_path "hazardcurve-0.xml"), w') /\
    w_log w' = w_log fx_world ++ evs /\
    NoDup (concat (serialized_batches evs)) /\
    forall s, s ∈ concat (serialized_batches evs) <-> s ∈ [1; 2].
Proof.
  assert (H1 : forall log, fx_no_failure log = []) by reflexivity.
  assert (H2 : forall log kvs s,
            (0 <= length log)%nat -> s ∈ [1; 2] ->
            is_Some (fx_ready log kvs !! fx_fmt 10 (fx_hash s))).
  { intros log kvs s _ Hs. apply fx_ready_lookup.
    repeat (apply elem_of_cons in Hs as [->|Hs];
            [decide_by_evaluation|]).
    inversion Hs. }
  assert (H3 : (0 < 1)%nat) by lia.
  split; [exact H1|]. split; [exact H2|]. split; [exact H3|].
  exact (serialize_hazard_curve_terminates fx_fmt fx_hash fx_path fx_no_failure fx_ready
           fx_job 1 "hazardcurve-0.xml" 10 ∅ [1; 2] 0 fx_world H1 H2 H3).
Defined.

(** X20, on the job of three sites in blocks of two. *)
Lemma execute_returns_witness :
  0 < hazard_block_size fx_job /\
  (forall log, fx_no_failure log = []) /\
  (0 < 1)%nat /\
  fst (fx_run fx_job fx_no_failure 1 None) = Ok None.
Proof.
  assert (H1 : 0 < hazard_block_size fx_job) by reflexivity.
  assert (H2 : forall log, fx_no_failure log = []) by reflexivity.
  assert (H3 : (0 < 1)%nat) by lia.
  split; [exact H1|]. split; [exact H2|]. split; [exact H3|]. unfold fx_run.
  exact (execute_returns fx_fmt fx_hash fx_curve_template fx_mean_template
           fx_quantile_template fx_mean_map_template fx_quantile_map_template
           fx_str_int fx_str_float fx_str_float fx_path fx_seed fx_getrandbits
           fx_no_failure fx_ready fx_worker_run fx_job 1 None fx_world H1 H2
           fx_curves_present H3).
Defined.

(** X22, on the same job: the two blocks write to the same six files. *)
Lemma execute_writes_the_same_files_for_every_block_witness :
  0 < hazard_block_size fx_job /\
  (forall log, fx_no_failure log = []) /\
  (0 < 1)%nat /\
  exists p w' evs,
    fx_run fx_job fx_no_failure 1 None = (Ok p, w') /\
    w_log w' = w_log fx_world ++ evs /\
    writers evs =
      ["hazardcurve-n.xml"; "hazardcurve-n.xml"; "hazardcurve-mean.xml";
       "hazardmap-x-mean.xml"; "hazardcurve-quantile-x.xml";
       "hazardmap-x-quantile-x.xml"; "hazardcurve-n.xml"; "hazardcurve-n.xml";
       "hazardcurve-mean.xml"; "hazardmap-x-mean.xml"; "hazardcurve-quantile-x.xml";
       "hazardmap-x-quantile-x.xml"]%string.
Proof.
  assert (H1 : 0 < hazard_block_size fx_job) by reflexivity.
  assert (H2 : forall log, fx_no_failure log = []) by reflexivity.
  assert (H3 : (0 < 1)%nat) by lia.
  split; [exact H1|]. split; [exact H2|]. split; [exact H3|]. unfold fx_run.
  destruct (execute_writes_the_same_files_for_every_block fx_fmt fx_hash
              fx_curve_template fx_mean_template fx_quantile_template
              fx_mean_map_template fx_quantile_map_template fx_str_int fx_str_float
              fx_str_float fx_path fx_seed fx_getrandbits fx_no_failure fx_ready
              fx_worker_run fx_job 1 None fx_world H1 H2 fx_curves_present H3)
    as (p & w' & evs & E & Hlog & Hw).
  exists p, w', evs. split; [exact E|]. split; [exact Hlog|].
  rewrite Hw. vm_compute. reflexivity.
Defined.
